(** * Crowd management system: capacity estimator and alert engine

    A shallow embedding of [config.py] and of the three functions of
    [utils.py] that carry the logic of the system
    ([estimate_venue_capacity], [count_people_in_frame], [get_alert_status]),
    with the Python arithmetic they rely on written out: unbounded integers
    are [Z], floats are IEEE-754 binary64 values ([spec_float] at precision
    53 and maximal exponent 1024), and a raised exception is a value of the
    error monad [exc].  The two drawing functions of [utils.py]
    ([annotate_frame], [draw_detections]) and the monitoring loop of
    [app.py] follow, over OpenCV, the model and the page as parameters. *)

From Stdlib Require Import ZArith Bool List String Ascii Lia DecimalString.
From Stdlib Require Import Floats.SpecFloat.
Import ListNotations.

Local Open Scope string_scope.
Local Open Scope Z_scope.

(** ** Exceptions and the error monad *)

Module Exc.

(** A raised exception: its class and its text.  Only instances of Python's
    [Exception] are modelled (the classes a [try ... except Exception]
    catches); asynchronous signals such as [KeyboardInterrupt] are not
    events of the functions below. *)
Record exn : Type := mkExn { exn_class : string; exn_msg : string }.

Inductive exc (A : Type) : Type :=
| Ok (a : A)
| Raise (e : exn).

Arguments Ok {A} a.
Arguments Raise {A} e.

Definition bind {A B : Type} (c : exc A) (k : A -> exc B) : exc B :=
  match c with
  | Ok a => k a
  | Raise e => Raise e
  end.

Definition OverflowError (msg : string) : exn := mkExn "OverflowError" msg.
Definition ValueError (msg : string) : exn := mkExn "ValueError" msg.
Definition TypeError (msg : string) : exn := mkExn "TypeError" msg.
Definition ZeroDivisionError (msg : string) : exn := mkExn "ZeroDivisionError" msg.

End Exc.

Export Exc.

Declare Scope exc_scope.
Delimit Scope exc_scope with exc.
Notation "x <- c ;; k" := (bind c (fun x => k))
  (at level 61, c at next level, right associativity) : exc_scope.
Notation "' pat <- c ;; k" := (bind c (fun x => match x with pat => k end))
  (at level 61, pat pattern, c at next level, right associativity) : exc_scope.
Local Open Scope exc_scope.

(** ** Python numbers *)

Module Py.

(** binary64 *)
Definition prec : Z := 53.
Definition emax : Z := 1024.

Definition float : Type := spec_float.

(** The values the functions receive and return: [None], an [int] or a
    [float]. *)
Inductive pyval : Type :=
| PyNone
| PyInt (z : Z)
| PyFloat (f : float).

(** An integer as an exact, not yet rounded, operand. *)
Definition Z2SF (z : Z) : float :=
  match z with
  | Z0 => S754_zero false
  | Zpos p => S754_finite false p 0
  | Zneg p => S754_finite true p 0
  end.

(** [float(z)]: the nearest binary64 value, ties to even; an integer beyond
    the range raises. *)
Definition float_of_int (z : Z) : exc float :=
  match binary_normalize prec emax z 0 false with
  | S754_infinity _ => Raise (OverflowError "int too large to convert to float")
  | f => Ok f
  end.

(** [a / b] on two [int]s: the quotient correctly rounded to binary64 (one
    rounding, ties to even), [ZeroDivisionError] on a zero divisor and
    [OverflowError] when the rounded quotient is out of range. *)
Definition int_truediv (a b : Z) : exc float :=
  if b =? 0 then Raise (ZeroDivisionError "division by zero")
  else
    match SFdiv prec emax (Z2SF a) (Z2SF b) with
    | S754_infinity _ =>
        Raise (OverflowError "integer division result too large for a float")
    | f => Ok f
    end.

(** [x * y] on two [float]s: IEEE multiplication, which never raises. *)
Definition float_mul (x y : float) : float := SFmul prec emax x y.

(** [x * y]: [int * int] is exact; a mixed product converts the [int]
    operand with [float_of_int] first. *)
Definition py_mul (x y : pyval) : exc pyval :=
  match x, y with
  | PyInt a, PyInt b => Ok (PyInt (a * b))
  | PyInt a, PyFloat g => f <- float_of_int a ;; Ok (PyFloat (float_mul f g))
  | PyFloat f, PyInt b => g <- float_of_int b ;; Ok (PyFloat (float_mul f g))
  | PyFloat f, PyFloat g => Ok (PyFloat (float_mul f g))
  | _, _ => Raise (TypeError "unsupported operand type(s) for *")
  end.

(** The integer part of a finite float, rounded toward zero, toward minus
    infinity and toward plus infinity. *)
Definition shift_trunc (m : positive) (e : Z) : Z :=
  match e with
  | Z0 => Zpos m
  | Zpos p => Zpos m * 2 ^ Zpos p
  | Zneg p => Zpos m / 2 ^ Zpos p
  end.

Definition shift_exact (m : positive) (e : Z) : bool :=
  match e with
  | Zneg p => Zpos m mod 2 ^ Zpos p =? 0
  | _ => true
  end.

Definition finite_trunc (s : bool) (m : positive) (e : Z) : Z :=
  if s then - shift_trunc m e else shift_trunc m e.

Definition finite_floor (s : bool) (m : positive) (e : Z) : Z :=
  if s then
    (if shift_exact m e then - shift_trunc m e else - shift_trunc m e - 1)
  else shift_trunc m e.

Definition finite_ceil (s : bool) (m : positive) (e : Z) : Z :=
  if s then - shift_trunc m e
  else (if shift_exact m e then shift_trunc m e else shift_trunc m e + 1).

(** [int(f)] on a [float]: truncation toward zero. *)
Definition int_of_float (f : float) : exc Z :=
  match f with
  | S754_nan => Raise (ValueError "cannot convert float NaN to integer")
  | S754_infinity _ =>
      Raise (OverflowError "cannot convert float infinity to integer")
  | S754_zero _ => Ok 0
  | S754_finite s m e => Ok (finite_trunc s m e)
  end.

(** [math.floor(f)] on a [float]. *)
Definition floor_of_float (f : float) : exc Z :=
  match f with
  | S754_nan => Raise (ValueError "cannot convert float NaN to integer")
  | S754_infinity _ =>
      Raise (OverflowError "cannot convert float infinity to integer")
  | S754_zero _ => Ok 0
  | S754_finite s m e => Ok (finite_floor s m e)
  end.

(** [int(x)] *)
Definition py_int (x : pyval) : exc Z :=
  match x with
  | PyInt z => Ok z
  | PyFloat f => int_of_float f
  | PyNone => Raise (TypeError "int() argument must be a number")
  end.

(** [math.floor(x)] *)
Definition py_floor (x : pyval) : exc Z :=
  match x with
  | PyInt z => Ok z
  | PyFloat f => floor_of_float f
  | PyNone => Raise (TypeError "must be real number, not NoneType")
  end.

(** [x <= y] on two [float]s *)
Definition float_le (x y : float) : bool := SFleb x y.

(** [f <= k] and [k <= f] for a [float] and an [int]: Python compares the
    two exactly. *)
Definition float_le_int (f : float) (k : Z) : bool :=
  match f with
  | S754_nan => false
  | S754_infinity s => s
  | S754_zero _ => 0 <=? k
  | S754_finite s m e => finite_ceil s m e <=? k
  end.

Definition int_le_float (k : Z) (f : float) : bool :=
  match f with
  | S754_nan => false
  | S754_infinity s => negb s
  | S754_zero _ => k <=? 0
  | S754_finite s m e => k <=? finite_floor s m e
  end.

(** [x <= y] *)
Definition py_le (x y : pyval) : exc bool :=
  match x, y with
  | PyInt a, PyInt b => Ok (a <=? b)
  | PyInt a, PyFloat g => Ok (int_le_float a g)
  | PyFloat f, PyInt b => Ok (float_le_int f b)
  | PyFloat f, PyFloat g => Ok (float_le f g)
  | _, _ => Raise (TypeError "'<=' not supported between these operands")
  end.

(** A float literal [n/d] written in decimal denotes the nearest binary64
    value. *)
Definition float_literal (n d : Z) : float :=
  SFdiv prec emax (Z2SF n) (Z2SF d).

(** A float a Python program can hold: a NaN, an infinity, a zero, or a
    finite value in canonical binary64 form. *)
Definition is_float (f : float) : bool := valid_binary prec emax f.

Definition is_finite (f : float) : bool :=
  match f with
  | S754_zero _ | S754_finite _ _ _ => true
  | _ => false
  end.

End Py.

Export Py.

(** ** config.py *)

Module Config.

(** Crowd density standards (people per square metre) *)
Definition SAFE_DENSITY : float := Eval vm_compute in float_literal 4 10.
Definition MAX_DENSITY : float := Eval vm_compute in float_literal 67 100.

(** Alert thresholds *)
Definition WARNING_THRESHOLD : float := Eval vm_compute in float_literal 75 100.
Definition CRITICAL_THRESHOLD : float := Eval vm_compute in float_literal 1 1.

(** Model settings *)
Definition YOLO_MODEL : string := "yolov8s.pt".
Definition CONFIDENCE_THRESHOLD : float := Eval vm_compute in float_literal 25 100.
Definition PERSON_CLASS_ID : Z := 0.

(** Default settings *)
Definition DEFAULT_VENUE_AREA : Z := 500.

(** Colors (BGR for OpenCV) *)
Definition COLOR_SAFE : Z * Z * Z := (76, 175, 80).
Definition COLOR_WARNING : Z * Z * Z := (255, 152, 0).
Definition COLOR_CRITICAL : Z * Z * Z := (244, 67, 54).

(** Video processing *)
Definition FRAME_SKIP : Z := 2.
Definition MAX_VIDEO_LENGTH : Z := 300.

End Config.

Export Config.

(** ** utils.py *)

Module Utils.

(** The dictionary [estimate_venue_capacity] returns, by key. *)
Record CapacityEstimate : Type := mkCapacityEstimate {
  area : pyval;
  safe_capacity : Z;
  max_capacity : Z
}.

(** [def estimate_venue_capacity(area_sqm=None)] *)
Definition estimate_venue_capacity (area_sqm : pyval) : exc CapacityEstimate :=
  use_default <- match area_sqm with
                 | PyNone => Ok true
                 | _ => py_le area_sqm (PyInt 0)
                 end ;;
  let area_sqm := if use_default then PyInt DEFAULT_VENUE_AREA else area_sqm in
  safe <- (x <- py_mul area_sqm (PyFloat SAFE_DENSITY) ;; py_int x) ;;
  max <- (x <- py_mul area_sqm (PyFloat MAX_DENSITY) ;; py_int x) ;;
  Ok (mkCapacityEstimate area_sqm safe max).

(** *** The detector and [count_people_in_frame]

    The frame, OpenCV and the YOLO model are collaborators of the function:
    their behaviour is a parameter, each call returning a value or raising. *)
Section Detection.

Variable frame : Type.

(** [frame.shape[:2]], unpacked as (height, width) *)
Variable frame_shape : frame -> exc (Z * Z).

(** [cv2.resize(frame, (new_width, new_height))] *)
Variable cv2_resize : frame -> Z * Z -> exc frame.

(** A detected box: [cls] is the tensor of its class ids. *)
Record box : Type := mkBox { cls : list pyval }.

(** One element of the model's results: [boxes] may be [None]. *)
Record result : Type := mkResult { boxes : option (list box) }.

(** The callable [model(frame, verbose=False, conf=..., iou=...)] *)
Definition detector : Type := frame -> float -> float -> exc (list result).

(** [int(box.cls[0])] *)
Definition box_class_id (b : box) : exc Z :=
  match cls b with
  | [] => Raise (mkExn "IndexError" "index 0 is out of bounds")
  | x :: _ => py_int x
  end.

(** [for box in result.boxes: ...], threading [person_count] *)
Fixpoint count_boxes (bs : list box) (person_count : Z) : exc Z :=
  match bs with
  | [] => Ok person_count
  | b :: rest =>
      class_id <- box_class_id b ;;
      count_boxes rest
        (if class_id =? PERSON_CLASS_ID then person_count + 1
         else person_count)
  end.

(** [for result in results: ...], threading [person_count] *)
Fixpoint count_results (results : list result) (person_count : Z) : exc Z :=
  match results with
  | [] => Ok person_count
  | r :: rest =>
      person_count <-
        match boxes r with
        | Some bs =>
            if Z.of_nat (List.length bs) >? 0 then count_boxes bs person_count
            else Ok person_count
        | None => Ok person_count
        end ;;
      count_results rest person_count
  end.

(** The body of the [try] block. *)
Definition count_people_body (model : detector) (frm : frame) : exc Z :=
  '(height, width) <- frame_shape frm ;;
  frm <- (if width >? 1280 then
            scale <- int_truediv 1280 width ;;
            let new_width := 1280 in
            new_height <-
              (x <- py_mul (PyInt height) (PyFloat scale) ;; py_int x) ;;
            cv2_resize frm (new_width, new_height)
          else Ok frm) ;;
  results <- model frm (float_literal 25 100) (float_literal 5 10) ;;
  let person_count := 0 in
  count_results results person_count.

(** [def count_people_in_frame(model, frame)]: the value returned, and the
    lines printed on the way. *)
Definition count_people_in_frame (model : detector) (frm : frame)
  : exc Z * list string :=
  match count_people_body model frm with
  | Ok person_count => (Ok person_count, [])
  | Raise e => (Ok 0, [String.append "Detection error: " (exn_msg e)])
  end.

End Detection.

(** The dictionary [get_alert_status] returns, by key. *)
Record AlertResult : Type := mkAlertResult {
  status : string;
  status_emoji : string;
  color : string;
  color_bgr : Z * Z * Z;
  percentage : pyval;
  message : string;
  recommendations : list string
}.

(** [(current_count / max_capacity) * 100 if max_capacity > 0 else 0] *)
Definition alert_percentage (current_count max_capacity : Z) : exc pyval :=
  if max_capacity >? 0 then
    q <- int_truediv current_count max_capacity ;;
    py_mul (PyFloat q) (PyInt 100)
  else Ok (PyInt 0).

(** [def get_alert_status(current_count, safe_capacity, max_capacity)] *)
Definition get_alert_status (current_count safe_capacity max_capacity : Z)
  : exc AlertResult :=
  pct <- alert_percentage current_count max_capacity ;;
  if current_count >=? max_capacity then
    Ok (mkAlertResult
          "CRITICAL" "ðŸš¨" "critical" COLOR_CRITICAL pct
          "Overcrowding Detected"
          [ "Stop all entries immediately";
            "Activate emergency protocols";
            "Deploy security personnel";
            "Open emergency exits";
            "Alert emergency services" ])
  else if current_count >=? safe_capacity then
    Ok (mkAlertResult
          "WARNING" "âš ï¸" "warning" COLOR_WARNING pct
          "Approaching Capacity"
          [ "Reduce entry rate";
            "Increase monitoring";
            "Prepare dispersal plan";
            "Alert security team";
            "Monitor crowd flow" ])
  else
    Ok (mkAlertResult
          "SAFE" "âœ…" "safe" COLOR_SAFE pct
          "Normal Operations"
          [ "Continue monitoring";
            "Maintain regular checks" ]).

End Utils.

Export Utils.


(** ** The module namespace and the returned dictionaries as objects

    [from config import *] binds the names of [config.py] in the namespace
    of [utils.py] once, when the module is loaded.  A function looks a
    global name up in that namespace each time it runs, and an assignment
    such as [utils.SAFE_DENSITY = 0.5] binds the name anew.  A
    [return {...}] statement builds its dictionary, and the list inside it,
    anew at every call.  The state below holds both: the bindings the two
    functions look up, and the store of the objects they return; a caller
    keeps the reference it was returned and may mutate what it points to. *)

Module Namespace.

(** The global names [estimate_venue_capacity] and [get_alert_status] look
    up: three bound to [None] or a number, three to a colour. *)
Record t : Type := make {
  DEFAULT_VENUE_AREA : pyval;
  SAFE_DENSITY : pyval;
  MAX_DENSITY : pyval;
  COLOR_SAFE : Z * Z * Z;
  COLOR_WARNING : Z * Z * Z;
  COLOR_CRITICAL : Z * Z * Z
}.

End Namespace.

Module Objects.






















End Objects.

Export Objects.

(** ** The specification's side *)

Module Spec.

(** The ordering SAFE < WARNING < CRITICAL of the alert statuses. *)
Definition status_rank (s : string) : option nat :=
  if String.eqb s "SAFE" then Some 0%nat
  else if String.eqb s "WARNING" then Some 1%nat
  else if String.eqb s "CRITICAL" then Some 2%nat
  else None.

Definition status_le (s1 s2 : string) : Prop :=
  match status_rank s1, status_rank s2 with
  | Some a, Some b => (a <= b)%nat
  | _, _ => False
  end.

(** The integers below [double_bound] round to a finite binary64 value:
    it is the midpoint between the largest float and [2^1024]. *)
Definition double_bound : Z := 2 ^ 1024 - 2 ^ 970.

(** The quotient [current_count / max_capacity] is within the range of a
    float (or is not computed at all). *)
Definition quotient_in_range (current_count max_capacity : Z) : Prop :=
  max_capacity <= 0 \/ Z.abs current_count < double_bound * max_capacity.

(** The areas on which the estimator returns: no area at all, an integer
    that converts to a float, or a finite float. *)
Definition area_in_range (a : pyval) : Prop :=
  match a with
  | PyNone => True
  | PyInt z => z < double_bound
  | PyFloat f => is_float f = true /\ is_finite f = true
  end.

(** The percentage as the specification writes it:
    [100 * current_count / max_capacity] if [max_capacity > 0], else [0]. *)
Definition spec_percentage (current_count max_capacity : Z) : exc pyval :=
  if max_capacity >? 0 then
    q <- int_truediv (100 * current_count) max_capacity ;; Ok (PyFloat q)
  else Ok (PyInt 0).

(** The capacity estimate as the specification writes it: the default area
    replaces an absent or non-positive one, and each capacity is the floor
    of the area times the density. *)
Definition spec_area (area_sqm : pyval) : exc pyval :=
  match area_sqm with
  | PyNone => Ok (PyInt 500)
  | _ => b <- py_le area_sqm (PyInt 0) ;; Ok (if b then PyInt 500 else area_sqm)
  end.

Definition spec_estimate_capacity (area_sqm : pyval) : exc CapacityEstimate :=
  a <- spec_area area_sqm ;;
  safe <- (x <- py_mul a (PyFloat (float_literal 4 10)) ;; py_floor x) ;;
  max <- (x <- py_mul a (PyFloat (float_literal 67 100)) ;; py_floor x) ;;
  Ok (mkCapacityEstimate a safe max).

(** The recommendation lists of the specification, by status. *)
Definition critical_recommendations : list string :=
  [ "Stop all entries immediately"; "Activate emergency protocols";
    "Deploy security personnel"; "Open emergency exits";
    "Alert emergency services" ].

Definition warning_recommendations : list string :=
  [ "Reduce entry rate"; "Increase monitoring"; "Prepare dispersal plan";
    "Alert security team"; "Monitor crowd flow" ].

Definition safe_recommendations : list string :=
  [ "Continue monitoring"; "Maintain regular checks" ].

Definition recommendations_of (st : string) : list string :=
  if String.eqb st "CRITICAL" then critical_recommendations
  else if String.eqb st "WARNING" then warning_recommendations
  else safe_recommendations.

End Spec.

Export Spec.

(** ** Case analyses of the two functions *)

Module Cases.

(** [float(100)], the factor of the percentage. *)
Definition hundred : float := Eval vm_compute in
  match float_of_int 100 with Ok f => f | Raise _ => S754_nan end.

(** The three dictionaries [get_alert_status] can return, each with the
    condition on the count under which it is returned. *)
Inductive alert_case (c s m : Z) (r : AlertResult) : Prop :=
| case_critical : m <= c ->
    r = mkAlertResult "CRITICAL" (status_emoji r) "critical" COLOR_CRITICAL
          (percentage r) "Overcrowding Detected" critical_recommendations ->
    alert_case c s m r
| case_warning : c < m -> s <= c ->
    r = mkAlertResult "WARNING" (status_emoji r) "warning" COLOR_WARNING
          (percentage r) "Approaching Capacity" warning_recommendations ->
    alert_case c s m r
| case_safe : c < m -> c < s ->
    r = mkAlertResult "SAFE" (status_emoji r) "safe" COLOR_SAFE
          (percentage r) "Normal Operations" safe_recommendations ->
    alert_case c s m r.

(** What [estimate_venue_capacity] returns for the default area. *)
Definition default_estimate : CapacityEstimate :=
  mkCapacityEstimate (PyInt 500) 200 335.

(** The float an area enters the two products as. *)
Definition area_float (a : pyval) : exc float :=
  match a with
  | PyInt z => float_of_int z
  | PyFloat f => Ok f
  | PyNone => Raise (TypeError "unsupported operand type(s) for *")
  end.

(** The area is kept, not replaced by the default: it is positive. *)
Definition kept_area (a : pyval) : Prop :=
  match a with
  | PyInt z => 0 < z
  | PyFloat f => float_le_int f 0 = false
  | PyNone => False
  end.

(** A float that is not negative: a zero, a positive finite value, an
    infinity or a NaN. *)
Definition unsigned (x : float) : Prop :=
  match x with
  | S754_finite s _ _ => s = false
  | _ => True
  end.

(** A float that is not replaced by the default area. *)
Definition kept_float (f : float) : Prop :=
  match f with
  | S754_finite false _ _ | S754_infinity false | S754_nan => True
  | _ => False
  end.

(** A zero or a positive finite float within the binary64 bounds. *)
Definition bounded_float (f : float) : Prop :=
  match f with
  | S754_zero _ => True
  | S754_finite false m e => Zpos m < 2 ^ prec /\ e <= emax - prec
  | _ => False
  end.

(** [status] and [percentage] of a call, the latter between two decimal
    bounds [lo / 100] and [hi / 100]. *)
Definition alert_is (c s m : Z) (st : string) (lo hi : Z) : bool :=
  match get_alert_status c s m with
  | Ok r =>
      String.eqb (status r) st &&
      match py_le (PyFloat (float_literal lo 100)) (percentage r),
            py_le (percentage r) (PyFloat (float_literal hi 100)) with
      | Ok b1, Ok b2 => b1 && b2
      | _, _ => false
      end
  | Raise _ => false
  end.

End Cases.

Export Cases.

(** ** Rounding to binary64, arithmetically

    [binary_round_aux] rounds a truncated mantissa and the position of what
    was cut off.  The definitions below describe the same rounding on an
    exact rational input [N / D * 2^e], in units of the smallest subnormal
    [2^emin64]: a result is a mantissa [m] and an exponent offset [E], of
    value [m * 2^E]. *)

Module Rounding.

Definition emin64 : Z := Eval compute in SpecFloat.emin prec emax.

(** The position of [N / D] between [N / D] truncated and its successor. *)
Definition loc_of (N D : Z) : location :=
  if N mod D =? 0 then loc_Exact else loc_Inexact (2 * (N mod D) ?= D).

(** [N / D] truncated, with its round and sticky bits. *)
Definition rec_of (N D : Z) : shr_record :=
  {| shr_m := N / D;
     shr_r := D <=? 2 * (N mod D);
     shr_s := negb ((2 * (N mod D)) mod D =? 0) |}.

(** [N / D] rounded to the nearest integer, ties to even. *)
Definition rne (N D : Z) : Z := round_nearest_even (N / D) (loc_of N D).

(** [N / D * 2^e] as a fraction [P / B] of [2^emin64]. *)
Definition scale (N D e : Z) : Z * Z :=
  if emin64 <=? e then (N * 2 ^ (e - emin64), D)
  else (N, D * 2 ^ (emin64 - e)).

(** The exponent offset at which [P / B] fits in [prec] bits. *)
Definition rn_exp (P B : Z) : Z := Z.max (Z.log2 (P / B) + 1 - prec) 0.

(** [P / B] rounded: mantissa and exponent offset, renormalised when the
    mantissa carries into bit [prec]. *)
Definition rn_spec (P B : Z) : Z * Z :=
  let E := rn_exp P B in
  let m := rne P (B * 2 ^ E) in
  if m =? 2 ^ prec then (2 ^ (prec - 1), E + 1) else (m, E).

Definition rn_val (P B : Z) : Z :=
  rne P (B * 2 ^ rn_exp P B) * 2 ^ rn_exp P B.

(** The float of sign [s] a rounded pair denotes; beyond the largest
    exponent it is an infinity. *)
Definition float_of_rn (s : bool) (me : Z * Z) : float :=
  match fst me with
  | Z0 => S754_zero s
  | Zpos p =>
      if snd me + emin64 <=? emax - prec then S754_finite s p (snd me + emin64)
      else S754_infinity s
  | Zneg _ => S754_nan
  end.

(** A rounded pair in canonical form: at most [prec] bits, and all of them
    above the subnormal range. *)
Definition canon (me : Z * Z) : Prop :=
  0 <= fst me < 2 ^ prec /\ 0 <= snd me /\
  (0 < snd me -> 2 ^ (prec - 1) <= fst me).

(** A mantissa with its leading bit set. *)
Definition normal (m : positive) : Prop := 2 ^ (prec - 1) <= Zpos m.

(** The value of a rounded pair, in units of [2^emin64], and with a sign. *)
Definition value (me : Z * Z) : Z := fst me * 2 ^ snd me.

Definition signed_value (s : bool) (me : Z * Z) : Z :=
  if s then - value me else value me.

(** The shapes a rounded result can take. *)
Inductive rn_shape (s : bool) (me : Z * Z) : float -> Prop :=
| shape_zero : fst me = 0 -> snd me = 0 -> rn_shape s me (S754_zero s)
| shape_finite p : fst me = Zpos p -> snd me + emin64 <= emax - prec ->
    rn_shape s me (S754_finite s p (snd me + emin64))
| shape_inf : 0 < fst me -> emax - prec < snd me + emin64 ->
    rn_shape s me (S754_infinity s).

(** The quotient of two integers, rounded once. *)
Definition quotient_rn (c m : Z) : Z * Z :=
  rn_spec (Z.abs c * 2 ^ (- emin64)) m.

(** The product of a rounded value and a float [my * 2^ey], rounded. *)
Definition product_rn (me : Z * Z) (my : positive) (ey : Z) : Z * Z :=
  let sc := scale (fst me * Zpos my) 1 (snd me + emin64 + ey) in
  rn_spec (fst sc) (snd sc).

(** The product of two positive finite floats, rounded. *)
Definition area_product (ma : positive) (ea : Z) (md : positive) (ed : Z)
  : Z * Z :=
  let sc := scale (Zpos ma * Zpos md) 1 (ea + ed) in rn_spec (fst sc) (snd sc).

End Rounding.

Import Rounding.

(** ** Text: [str] and the format specification [.Nf] *)

Module PyText.

(** The decimal digits of an [int], with its sign. *)
Definition str_int (z : Z) : string := NilZero.string_of_int (Z.to_int z).

(** [str(z)] on an [int], as an f-string applies it: CPython, at its default
    limit, refuses an [int] of more than 4300 digits. *)
Definition py_str_int (z : Z) : exc string :=
  if Z.abs z <? 10 ^ 4300 then Ok (str_int z)
  else
    Raise
      (ValueError
         ("Exceeds the limit (4300 digits) for integer string conversion; " ++
          "use sys.set_int_max_str_digits() to increase the limit")).

Definition digit (d : Z) : ascii := ascii_of_nat (48 + Z.to_nat d).

(** The last [n] decimal digits of [x], the most significant first. *)
Fixpoint digits (n : nat) (x : Z) : string :=
  match n with
  | O => ""
  | S k => digits k (x / 10) ++ String (digit (x mod 10)) ""
  end.

(** [m * 2^e * 10^n] rounded to the nearest integer, ties to even: the
    digits a float is printed with at [n] decimals. *)
Definition fixed_units (n : nat) (m : positive) (e : Z) : Z :=
  match e with
  | Zneg p => rne (Zpos m * 10 ^ Z.of_nat n) (2 ^ Zpos p)
  | _ => Zpos m * 2 ^ e * 10 ^ Z.of_nat n
  end.

Definition fixed_text (n : nat) (units : Z) : string :=
  str_int (units / 10 ^ Z.of_nat n) ++
  match n with
  | O => ""
  | _ => "." ++ digits n units
  end.

Definition sign_text (s : bool) : string := if s then "-" else "".

(** [format(f, ".nf")] on a [float] *)
Definition format_float (n : nat) (f : float) : string :=
  match f with
  | S754_nan => "nan"
  | S754_infinity s => sign_text s ++ "inf"
  | S754_zero s => sign_text s ++ fixed_text n 0
  | S754_finite s m e => sign_text s ++ fixed_text n (fixed_units n m e)
  end.

(** [format(x, ".nf")], as an f-string applies it: an [int] is converted to
    a [float] first. *)
Definition py_format_f (n : nat) (x : pyval) : exc string :=
  match x with
  | PyFloat f => Ok (format_float n f)
  | PyInt z => f <- float_of_int z ;; Ok (format_float n f)
  | PyNone =>
      Raise (TypeError "unsupported format string passed to NoneType.__format__")
  end.

(** [float(x)] *)
Definition py_float (x : pyval) : exc float :=
  match x with
  | PyFloat f => Ok f
  | PyInt z => float_of_int z
  | PyNone =>
      Raise (TypeError "float() argument must be a string or a real number")
  end.

(** The line feed of a string literal. *)
Definition nl : string := String (ascii_of_nat 10) "".

End PyText.

Export PyText.


(** ** utils.py: the drawing functions

    OpenCV draws in place and the functions below never share the array
    they draw on (each works on a copy), so a drawing call is modelled by
    the image it leaves behind.  As for the detector, what the calls return
    is a parameter. *)

Module Drawing.

Section Drawing.

Variable frame : Type.

(** [frame.shape[:2]], unpacked as (height, width) *)
Variable frame_shape : frame -> exc (Z * Z).

(** [frame.copy()] *)
Variable frame_copy : frame -> exc frame.

(** [cv2.resize(frame, (width, height))] *)
Variable cv2_resize : frame -> Z * Z -> exc frame.

(** [cv2.rectangle(img, pt1, pt2, color, thickness)] *)
Variable cv2_rectangle :
  frame -> Z * Z -> Z * Z -> Z * Z * Z -> Z -> exc frame.

(** [cv2.putText(img, text, org, cv2.FONT_HERSHEY_SIMPLEX, fontScale,
    color, thickness)] *)
Variable cv2_putText :
  frame -> string -> Z * Z -> pyval -> Z * Z * Z -> Z -> exc frame.

(** [cv2.addWeighted(src1, alpha, src2, beta, gamma, dst)] *)
Variable cv2_addWeighted :
  frame -> float -> frame -> float -> Z -> exc frame.

(** [def annotate_frame(frame, count, alert_info)] *)
Definition annotate_frame (frm : frame) (count : Z) (alert_info : AlertResult)
  : exc frame :=
  annotated <- frame_copy frm ;;
  overlay <- frame_copy annotated ;;
  overlay <- cv2_rectangle overlay (0, 0) (500, 180) (0, 0, 0) (-1) ;;
  annotated <-
    cv2_addWeighted overlay (float_literal 6 10) annotated
      (float_literal 4 10) 0 ;;
  count_text <- py_str_int count ;;
  annotated <-
    cv2_putText annotated ("Count: " ++ count_text) (15, 45)
      (PyFloat (float_literal 13 10)) (0, 255, 0) 3 ;;
  let status_text := status_emoji alert_info ++ " " ++ status alert_info in
  annotated <-
    cv2_putText annotated status_text (15, 95)
      (PyFloat (float_literal 13 10)) (color_bgr alert_info) 3 ;;
  pct <- py_format_f 1 (percentage alert_info) ;;
  annotated <-
    cv2_putText annotated (pct ++ "% of max") (15, 145)
      (PyFloat (float_literal 9 10)) (color_bgr alert_info) 2 ;;
  Ok annotated.

(** A detected box as [draw_detections] reads it: the class ids that
    [count_people_in_frame] reads too, the corner coordinates and the
    confidence. *)
Record drawn_box : Type := mkDrawnBox {
  seen : box;
  xyxy : list (list pyval);
  conf : list pyval
}.

Record drawn_result : Type := mkDrawnResult {
  drawn_boxes : option (list drawn_box)
}.

(** The same result, as [count_people_in_frame] reads it. *)
Definition as_result (r : drawn_result) : result :=
  mkResult (option_map (map seen) (drawn_boxes r)).

Definition drawing_detector : Type :=
  frame -> float -> float -> exc (list drawn_result).

(** [map(int, row)], as far as an unpacking into four names runs it: the
    items are converted one by one, and a fifth one is asked for to see that
    the row is exhausted. *)
Fixpoint take_ints (k : nat) (row : list pyval) : exc (list Z) :=
  match k, row with
  | S k', x :: rest => z <- py_int x ;; zs <- take_ints k' rest ;; Ok (z :: zs)
  | _, _ => Ok []
  end.

(** [x1, y1, x2, y2 = map(int, box.xyxy[0])] *)
Definition box_corners (b : drawn_box) : exc (Z * Z * Z * Z) :=
  match xyxy b with
  | [] => Raise (mkExn "IndexError" "index 0 is out of bounds")
  | row :: _ =>
      zs <- take_ints 5 row ;;
      match zs with
      | [x1; y1; x2; y2] => Ok (x1, y1, x2, y2)
      | _ :: _ :: _ :: _ :: _ :: _ =>
          Raise (ValueError "too many values to unpack (expected 4)")
      | _ =>
          Raise (ValueError
                   ("not enough values to unpack (expected 4, got "
                    ++ str_int (Z.of_nat (List.length zs)) ++ ")"))
      end
  end.

(** [float(box.conf[0])] *)
Definition box_confidence (b : drawn_box) : exc float :=
  match conf b with
  | [] => Raise (mkExn "IndexError" "index 0 is out of bounds")
  | x :: _ => py_float x
  end.

(** [for box in result.boxes: ...], threading [annotated] and
    [person_count] *)
Fixpoint draw_boxes (bs : list drawn_box) (annotated : frame)
  (person_count : Z) : exc (frame * Z) :=
  match bs with
  | [] => Ok (annotated, person_count)
  | b :: rest =>
      class_id <- box_class_id (seen b) ;;
      if class_id =? PERSON_CLASS_ID then
        let person_count := person_count + 1 in
        '(x1, y1, x2, y2) <- box_corners b ;;
        conf <- box_confidence b ;;
        annotated <-
          cv2_rectangle annotated (x1, y1) (x2, y2) (0, 255, 0) 2 ;;
        let label := format_float 2 conf in
        annotated <-
          cv2_putText annotated label (x1, y1 - 5)
            (PyFloat (float_literal 4 10)) (0, 255, 0) 1 ;;
        draw_boxes rest annotated person_count
      else draw_boxes rest annotated person_count
  end.

(** [for result in results: ...] *)
Fixpoint draw_results (results : list drawn_result) (annotated : frame)
  (person_count : Z) : exc (frame * Z) :=
  match results with
  | [] => Ok (annotated, person_count)
  | r :: rest =>
      '(annotated, person_count) <-
        match drawn_boxes r with
        | Some bs => draw_boxes bs annotated person_count
        | None => Ok (annotated, person_count)
        end ;;
      draw_results rest annotated person_count
  end.

(** The body of the [try] block of [draw_detections]. *)
Definition draw_detections_body (frm : frame) (model : drawing_detector)
  : exc frame :=
  '(height, width) <- frame_shape frm ;;
  resized <- (if width >? 1280 then
                scale <- int_truediv 1280 width ;;
                let new_width := 1280 in
                new_height <-
                  (x <- py_mul (PyInt height) (PyFloat scale) ;; py_int x) ;;
                cv2_resize frm (new_width, new_height)
              else frame_copy frm) ;;
  results <- model resized (float_literal 25 100) (float_literal 5 10) ;;
  annotated <- frame_copy resized ;;
  let person_count := 0 in
  '(annotated, person_count) <- draw_results results annotated person_count ;;
  annotated <- cv2_rectangle annotated (10, 10) (250, 60) (0, 0, 0) (-1) ;;
  annotated <-
    cv2_putText annotated ("Detected: " ++ str_int person_count) (20, 45)
      (PyInt 1) (0, 255, 0) 2 ;;
  if width >? 1280 then cv2_resize annotated (width, height)
  else Ok annotated.

(** [def draw_detections(frame, model)]: the frame returned, and the lines
    printed on the way. *)
Definition draw_detections (frm : frame) (model : drawing_detector)
  : frame * list string :=
  match draw_detections_body frm model with
  | Ok annotated => (annotated, [])
  | Raise e => (frm, [String.append "Drawing error: " (exn_msg e)])
  end.

End Drawing.

End Drawing.

Export Drawing.


(** ** app.py: the monitoring loop

    The part of the script that reads the uploaded video: what it shows,
    frame after frame, as the list of the calls it makes on the Streamlit
    placeholders.  A run that raises keeps what it has shown so far. *)

Module App.

(** [int((frame_count / total_frames) * 100)], then [min(prog, 100)] *)
Definition progress_value (frame_count total_frames : Z) : exc Z :=
  q <- int_truediv frame_count total_frames ;;
  x <- py_mul (PyFloat q) (PyInt 100) ;;
  prog <- py_int x ;;
  Ok (Z.min prog 100).

(** [for i, rec in enumerate(..., 1): rec_text += f"\n{i}. {rec}"] *)
Fixpoint rec_lines (recs : list string) (i : Z) (rec_text : string) : string :=
  match recs with
  | [] => rec_text
  | rec :: rest =>
      rec_lines rest (i + 1) (rec_text ++ nl ++ str_int i ++ ". " ++ rec)
  end.

(** The text of the recommendations box, from
    [alert['recommendations'][:3]]. *)
Definition recommendations_text (recs : list string) : string :=
  rec_lines (firstn 3 recs) 1 ("**💡 Recommendations:**" ++ nl).

(** The value a metric shows. *)
Inductive shown : Type :=
| ShownInt (z : Z)
| ShownText (s : string).

Section Monitoring.

Variable frame : Type.
Variable frame_shape : frame -> exc (Z * Z).
Variable frame_copy : frame -> exc frame.
Variable cv2_resize : frame -> Z * Z -> exc frame.
Variable cv2_rectangle :
  frame -> Z * Z -> Z * Z -> Z * Z * Z -> Z -> exc frame.
Variable cv2_putText :
  frame -> string -> Z * Z -> pyval -> Z * Z * Z -> Z -> exc frame.
Variable cv2_addWeighted :
  frame -> float -> frame -> float -> Z -> exc frame.

(** [cv2.cvtColor(annotated, cv2.COLOR_BGR2RGB)] *)
Variable cv2_cvtColor : frame -> exc frame.

(** The calls a run makes, and the lines the functions of [utils.py] print
    meanwhile. *)
Inductive event : Type :=
| Printed (line : string)
| Metric (placeholder : Z) (label : string) (value : shown)
| VideoImage (image : frame)
| AlertError (body : string)
| AlertWarning (body : string)
| AlertSuccess (body : string)
| RecInfo (body : string)
| RecEmpty
| Progress (value : Z)
| Sleep
| Release
| ProgressEmpty
| Success (body : string).

(** A computation that shows events and may raise. *)
Definition run (A : Type) : Type := list event * exc A.

Definition pure {A : Type} (a : A) : run A := ([], Ok a).

Definition lift {A : Type} (c : exc A) : run A := ([], c).

Definition emit (e : event) : run unit := ([e], Ok tt).

Definition then_ {A B : Type} (c : run A) (k : A -> run B) : run B :=
  match c with
  | (shown, Ok a) => let '(more, b) := k a in ((shown ++ more)%list, b)
  | (shown, Raise e) => (shown, Raise e)
  end.

Notation "x <~ c ;; k" := (then_ c (fun x => k))
  (at level 61, c at next level, right associativity).

(** [alert_box.error], [.warning] or [.success], by status *)
Definition alert_box (alert : AlertResult) : event :=
  if String.eqb (status alert) "CRITICAL" then
    AlertError ("🚨 " ++ message alert)
  else if String.eqb (status alert) "WARNING" then
    AlertWarning ("⚠️ " ++ message alert)
  else AlertSuccess ("✅ " ++ message alert).

(** [rec_box.info] with the recommendations, or [rec_box.empty()] *)
Definition rec_box (alert : AlertResult) : event :=
  if negb (String.eqb (status alert) "SAFE") then
    RecInfo (recommendations_text (recommendations alert))
  else RecEmpty.

(** The model, as [count_people_in_frame] calls it. *)
Definition counting (model : drawing_detector frame) : detector frame :=
  fun frm conf iou =>
    results <- model frm conf iou ;; Ok (map as_result results).

(** The body of the [while] loop for a frame that is shown. *)
Definition show_frame (model : drawing_detector frame) (show_boxes : bool)
  (safe max_cap total_frames frame_count : Z) (frm : frame) : run unit :=
  let '(count, printed) :=
    count_people_in_frame frame frame_shape cv2_resize (counting model) frm in
  _ <~ (map Printed printed, Ok tt) ;;
  count <~ lift count ;;
  alert <~ lift (get_alert_status count safe max_cap) ;;
  annotated <~
    (if show_boxes then
       let '(annotated, printed) :=
         draw_detections frame frame_shape frame_copy cv2_resize
           cv2_rectangle cv2_putText frm model in
       (map Printed printed, Ok annotated)
     else
       lift (annotate_frame frame frame_copy cv2_rectangle cv2_putText
               cv2_addWeighted frm count alert)) ;;
  _ <~ emit (Metric 1 "👥 Current Count" (ShownInt count)) ;;
  _ <~ emit (Metric 2 "📊 Status"
               (ShownText (status_emoji alert ++ " " ++ status alert))) ;;
  pct <~ lift (py_format_f 0 (percentage alert)) ;;
  _ <~ emit (Metric 3 "📈 Capacity" (ShownText (pct ++ "%"))) ;;
  image <~ lift (cv2_cvtColor annotated) ;;
  _ <~ emit (VideoImage image) ;;
  _ <~ emit (alert_box alert) ;;
  _ <~ emit (rec_box alert) ;;
  prog <~ lift (progress_value frame_count total_frames) ;;
  _ <~ emit (Progress prog) ;;
  emit Sleep.

(** [while cap.isOpened(): ...] on the frames the capture still holds,
    threading [frame_count]; a failed [cap.read()] ends the loop. *)
Fixpoint monitor_loop (model : drawing_detector frame) (show_boxes : bool)
  (safe max_cap total_frames : Z) (frames : list frame) (frame_count : Z)
  : run unit :=
  match frames with
  | [] => pure tt
  | frm :: rest =>
      let frame_count := frame_count + 1 in
      if negb (frame_count mod 2 =? 0) then
        monitor_loop model show_boxes safe max_cap total_frames rest frame_count
      else
        _ <~ show_frame model show_boxes safe max_cap total_frames
               frame_count frm ;;
        monitor_loop model show_boxes safe max_cap total_frames rest frame_count
  end.

(** From [cap.get(cv2.CAP_PROP_FRAME_COUNT)] to the final message. *)
Definition monitor (model : drawing_detector frame) (show_boxes : bool)
  (capacity : CapacityEstimate) (cap_is_opened : bool)
  (cap_frame_count : float) (frames : list frame) : run unit :=
  total_frames <~ lift (int_of_float cap_frame_count) ;;
  let frame_count := 0 in
  let safe := safe_capacity capacity in
  let max_cap := max_capacity capacity in
  _ <~ (if cap_is_opened then
          monitor_loop model show_boxes safe max_cap total_frames frames
            frame_count
        else pure tt) ;;
  _ <~ emit Release ;;
  _ <~ emit ProgressEmpty ;;
  emit (Success "✅ Video processing complete!").

(** The frames a run has shown to the end: the pause closes each. *)
Definition is_sleep (e : event) : bool :=
  match e with
  | Sleep => true
  | _ => false
  end.

Definition frames_shown (shown : list event) : nat :=
  List.length (filter is_sleep shown).

(** The values the progress bar was set to. *)
Fixpoint progress_values (shown : list event) : list Z :=
  match shown with
  | [] => []
  | Progress value :: rest => value :: progress_values rest
  | _ :: rest => progress_values rest
  end.

(** What a run has shown, summed up: the frames shown to the end, the
    values of the progress bar, and how the run ended. *)
Definition summary (r : run unit) : nat * list Z * exc unit :=
  (frames_shown (fst r), progress_values (fst r), snd r).

End Monitoring.

End App.

Export App.


(** ** app.py: the venue form and the session state

    Streamlit runs the script anew at every interaction and keeps
    [st.session_state] between the runs.  One run of the venue form (a run
    in which the model was loaded, so that the script did not stop before
    the form) is a step on the session state; what the widgets return is
    the input of the step. *)

Module Session.

(** [st.session_state]: each of the two keys is absent or holds a value,
    and [capacity] holds [None] or a dictionary. *)
Record session : Type := mkSession {
  capacity : option (option CapacityEstimate);
  capacity_calculated : option bool
}.

(** The session of a new visitor. *)
Definition new_session : session := mkSession None None.

(** [if 'capacity' not in st.session_state: ...] and the same for
    [capacity_calculated] *)
Definition with_defaults (st : session) : session :=
  mkSession
    (match capacity st with
     | None => Some None
     | present => present
     end)
    (match capacity_calculated st with
     | None => Some false
     | present => present
     end).

(** What the page goes on to show below the form. *)
Inductive page : Type :=
| Monitoring (capacity : CapacityEstimate) (calculated_message : bool)
| AskForCapacity.

(** The truth value of [st.session_state.capacity]: a dictionary with keys
    is true, [None] is false. *)
Definition truthy (c : option (option CapacityEstimate))
  : option CapacityEstimate :=
  match c with
  | Some (Some d) => Some d
  | _ => None
  end.

(** One run of the script, from the session state to [if
    st.session_state.capacity: ... else: ...]: [area] is what the number
    input returns and [clicked] what the button does.  The session is
    returned as the run leaves it, also when the run raises. *)
Definition venue_form (st : session) (area : Z) (clicked : bool)
  : session * exc page :=
  let st := with_defaults st in
  match (if clicked then
           match estimate_venue_capacity (PyInt area) with
           | Ok d => Ok (mkSession (Some (Some d)) (Some true))
           | Raise e => Raise e
           end
         else Ok st) with
  | Raise e => (st, Raise e)
  | Ok st =>
      match truthy (capacity st) with
      | Some d =>
          match capacity_calculated st with
          | Some true =>
              (mkSession (capacity st) (Some false), Ok (Monitoring d true))
          | _ => (st, Ok (Monitoring d false))
          end
      | None => (st, Ok AskForCapacity)
      end
  end.

(** The sessions a visitor can be in: after any number of runs, each on an
    area the number input lets through (it has [min_value=50]). *)
Inductive reachable : session -> Prop :=
| reach_new : reachable new_session
| reach_run st area clicked :
    reachable st -> 50 <= area ->
    reachable (fst (venue_form st area clicked)).

(** What every session of a visitor satisfies: the flag is not left set,
    and a capacity held comes from an area the form lets through. *)
Definition settled (st : session) : Prop :=
  capacity_calculated st <> Some true /\
  forall d, truthy (capacity st) = Some d ->
    exists area, 50 <= area /\ estimate_venue_capacity (PyInt area) = Ok d.

End Session.

Export Session.


(** ** What [count_people_in_frame] counts

    The boxes of the person class, said once more without the loops: the
    properties of the counting functions are stated against this. *)

Module Counting.

(** The boxes a result holds: none when [boxes] is [None]. *)
Definition result_boxes (r : result) : list box :=
  match boxes r with
  | Some bs => bs
  | None => []
  end.

(** A box whose class id reads as the person class. *)
Definition is_person (b : box) : bool :=
  match box_class_id b with
  | Ok class_id => class_id =? PERSON_CLASS_ID
  | Raise _ => false
  end.

(** The boxes of the person class among all the results. *)
Definition person_boxes (results : list result) : list box :=
  filter is_person (flat_map result_boxes results).

(** Every class id can be read. *)
Definition readable (bs : list box) : Prop :=
  forall b, In b bs -> exists class_id, box_class_id b = Ok class_id.

End Counting.

Export Counting.


(** ** Rounded values of the further properties *)

Module Measures.

(** [1.0], the quotient of a count by itself. *)
Definition one : float := Eval vm_compute in float_literal 1 1.

(** A positive area as a rounded pair: the rounding of an integer, or the
    mantissa and exponent of a float. *)
Definition area_rn (a : pyval) : Z * Z :=
  match a with
  | PyInt z => quotient_rn z 1
  | PyFloat (S754_finite _ m e) => (Zpos m, e - emin64)
  | _ => (0, 0)
  end.

(** The percentage of the progress bar before [min], as a rounded value. *)
Definition progress_rn (frame_count total_frames : Z) : Z * Z :=
  product_rn (quotient_rn frame_count total_frames) 7036874417766400 (-46).

End Measures.

Export Measures.


(** * Facts about rounding *)

Module RoundingFacts.

(** A power of two with a non-negative exponent is positive. *)
Ltac pow_pos := apply Z.pow_pos_nonneg; lia.

(** ** Digits, shifts and the shift record *)

Lemma digits2_pos_log2 p : Zpos (digits2_pos p) = Z.log2 (Zpos p) + 1.
Proof.
  induction p as [p IH|p IH|]; simpl digits2_pos; try reflexivity.
  - rewrite Pos2Z.inj_succ, IH. change (Zpos p~1) with (2 * Zpos p + 1).
    rewrite Z.log2_succ_double by lia. lia.
  - rewrite Pos2Z.inj_succ, IH. change (Zpos p~0) with (2 * Zpos p).
    rewrite Z.log2_double by lia. lia.
Qed.

Lemma Zdigits2_pos z : 0 < z -> Zdigits2 z = Z.log2 z + 1.
Proof. destruct z; try lia. intros _. apply digits2_pos_log2. Qed.

Lemma iter_pos_nat {A} (f : A -> A) p x :
  iter_pos f p x = Nat.iter (Pos.to_nat p) f x.
Proof.
  revert x. induction p as [p IH|p IH|]; intros x; simpl iter_pos.
  - rewrite !IH. rewrite Pos2Nat.inj_xI.
    replace (S (2 * Pos.to_nat p))%nat with (Pos.to_nat p + (Pos.to_nat p + 1))%nat by lia.
    rewrite !Nat.iter_add. reflexivity.
  - rewrite !IH. rewrite Pos2Nat.inj_xO.
    replace (2 * Pos.to_nat p)%nat with (Pos.to_nat p + Pos.to_nat p)%nat by lia.
    rewrite Nat.iter_add. reflexivity.
  - reflexivity.
Qed.

Lemma rec_of_shr_1 N D : 0 <= N -> 0 < D -> shr_1 (rec_of N D) = rec_of N (2 * D).
Proof.
  intros HN HD. unfold rec_of.
  pose proof (Z.div_mod N D ltac:(lia)) as E.
  pose proof (Z.mod_pos_bound N D HD) as Hr.
  pose proof (Z.div_pos N D HN HD) as Hq.
  set (q := N / D) in *. set (r := N mod D) in *.
  assert (Hq2 : N / (2 * D) = q / 2).
  { rewrite Z.mul_comm. rewrite <- Z.div_div by lia. reflexivity. }
  assert (Hr2 : N mod (2 * D) = (q mod 2) * D + r).
  { pose proof (Z.div_mod N (2 * D) ltac:(lia)) as E2. rewrite Hq2 in E2.
    pose proof (Z.div_mod q 2 ltac:(lia)). nia. }
  rewrite Hq2, Hr2.
  pose proof (Z.mod_pos_bound q 2 ltac:(lia)) as Hb.
  assert (Hs : (shr_r {| shr_m := q; shr_r := D <=? 2 * r; shr_s := negb ((2 * r) mod D =? 0) |}
                || shr_s {| shr_m := q; shr_r := D <=? 2 * r; shr_s := negb ((2 * r) mod D =? 0) |})%bool
               = negb ((2 * (q mod 2 * D + r)) mod (2 * D) =? 0)).
  { cbn [shr_r shr_s].
    assert ((2 * (q mod 2 * D + r)) mod (2 * D) = 2 * r).
    { replace (2 * (q mod 2 * D + r)) with (2 * r + (q mod 2) * (2 * D)) by ring.
      rewrite Z.mod_add by lia. apply Z.mod_small. lia. }
    rewrite H. destruct (Z.leb_spec D (2 * r)).
    - cbn [orb]. symmetry. apply negb_true_iff. apply Z.eqb_neq. lia.
    - cbn [orb]. rewrite Z.mod_small by lia. reflexivity. }
  cbn [shr_r shr_s] in Hs. unfold shr_1.
  destruct q as [|p|p]; try lia.
  - rewrite Hs. f_equal. symmetry. apply Z.leb_gt. change (0 mod 2) with 0. lia.
  - destruct p as [p|p|].
    + rewrite Hs. f_equal.
      * change (Zpos p~1) with (2 * Zpos p + 1). symmetry.
        rewrite Z.mul_comm, Z.div_add_l by lia. reflexivity.
      * replace (Zpos p~1) with (1 + Zpos p * 2) by lia. rewrite Z.mod_add by lia.
        change (1 mod 2) with 1. symmetry. apply Z.leb_le. lia.
    + rewrite Hs. f_equal.
      * replace (Zpos p~0) with (Zpos p * 2) by lia. symmetry.
        rewrite Z.div_mul by lia. reflexivity.
      * replace (Zpos p~0) with (Zpos p * 2) by lia. rewrite Z.mod_mul by lia.
        symmetry. apply Z.leb_gt. lia.
    + rewrite Hs. f_equal. symmetry. apply Z.leb_le. change (1 mod 2) with 1. lia.
Qed.

Lemma rec_of_iter n N D : 0 <= N -> 0 < D ->
  Nat.iter n shr_1 (rec_of N D) = rec_of N (D * 2 ^ Z.of_nat n).
Proof.
  intros HN HD. induction n as [|n IH].
  - simpl. rewrite Z.mul_1_r. reflexivity.
  - rewrite Nat.iter_succ, IH. rewrite rec_of_shr_1 by (try lia; apply Z.mul_pos_pos; lia).
    f_equal. rewrite Nat2Z.inj_succ, Z.pow_succ_r by lia. ring.
Qed.

Lemma mod_twice r D : 0 <= r < D ->
  (2 * r) mod D = if 2 * r <? D then 2 * r else 2 * r - D.
Proof.
  intros H. destruct (Z.ltb_spec (2 * r) D) as [H1|H1].
  - apply Z.mod_small. lia.
  - symmetry. apply (Z.mod_unique_pos _ _ 1). lia. lia.
Qed.

Lemma loc_of_rec N D : 0 < D -> loc_of_shr_record (rec_of N D) = loc_of N D.
Proof.
  intros HD. unfold rec_of, loc_of, loc_of_shr_record.
  pose proof (Z.mod_pos_bound N D HD) as Hr. set (r := N mod D) in *.
  rewrite (mod_twice r D Hr).
  destruct (Z.ltb_spec (2 * r) D) as [H1|H1];
    destruct (Z.leb_spec D (2 * r)) as [H2|H2]; try lia;
    destruct (Z.eqb_spec r 0) as [H3|H3];
    destruct (Z.compare_spec (2 * r) D) as [H4|H4|H4]; try lia;
    repeat match goal with
           | |- context [?a =? ?b] => destruct (Z.eqb_spec a b); try lia
           end;
    reflexivity.
Qed.

Lemma rec_of_loc N D : 0 < D -> shr_record_of_loc (N / D) (loc_of N D) = rec_of N D.
Proof.
  intros HD. unfold rec_of, loc_of, shr_record_of_loc.
  pose proof (Z.mod_pos_bound N D HD) as Hr. set (r := N mod D) in *.
  rewrite (mod_twice r D Hr).
  destruct (Z.ltb_spec (2 * r) D) as [H1|H1];
    destruct (Z.leb_spec D (2 * r)) as [H2|H2]; try lia;
    destruct (Z.eqb_spec r 0) as [H3|H3];
    destruct (Z.compare_spec (2 * r) D) as [H4|H4|H4]; try lia;
    repeat match goal with
           | |- context [?a =? ?b] => destruct (Z.eqb_spec a b); try lia
           end;
    reflexivity.
Qed.

(** Shifting an exact input by [n] bits divides it by [2^n]. *)
Lemma shr_rec_of N D e n : 0 <= N -> 0 < D -> 0 <= n ->
  shr (rec_of N D) e n = (rec_of N (D * 2 ^ n), e + n).
Proof.
  intros HN HD Hn. unfold shr. destruct n as [|p|p]; try lia.
  - rewrite Z.mul_1_r, Z.add_0_r. reflexivity.
  - rewrite iter_pos_nat, rec_of_iter by lia. rewrite positive_nat_Z. reflexivity.
Qed.

Lemma fexp_eq e : fexp prec emax e = Z.max (e - prec) emin64.
Proof. reflexivity. Qed.

Lemma rne_bounds N D : 0 < D -> N / D <= rne N D <= N / D + 1.
Proof.
  intros HD. unfold rne, round_nearest_even, loc_of.
  destruct (N mod D =? 0); [lia|].
  destruct (2 * (N mod D) ?= D); try lia.
  destruct (Z.even (N / D)); lia.
Qed.

Lemma rne_scale N D k : 0 < D -> 0 < k -> rne (N * k) (D * k) = rne N D.
Proof.
  intros HD Hk. unfold rne, loc_of.
  rewrite Z.div_mul_cancel_r by lia.
  rewrite Z.mul_mod_distr_r by lia.
  replace (2 * (N mod D * k)) with (2 * (N mod D) * k) by ring.
  rewrite <- Zmult_compare_compat_r by lia.
  destruct (Z.eqb_spec (N mod D * k) 0), (Z.eqb_spec (N mod D) 0); try nia; reflexivity.
Qed.

(** ** Rounding to the nearest integer, ties to even

    [rne N D] is at least [k + 1] only from the half-way point [k + 1/2]
    on, and at most [k] only up to it. *)
Lemma rne_ge N D k : 0 < D -> k + 1 <= rne N D -> (2 * k + 1) * D <= 2 * N.
Proof.
  intros HD. unfold rne, round_nearest_even, loc_of.
  pose proof (Z.div_mod N D ltac:(lia)) as E.
  pose proof (Z.mod_pos_bound N D HD) as Hr.
  destruct (Z.eqb_spec (N mod D) 0); [nia|].
  destruct (Z.compare_spec (2 * (N mod D)) D); try nia.
  destruct (Z.even (N / D)); nia.
Qed.

Lemma rne_le N D k : 0 < D -> rne N D <= k -> 2 * N <= (2 * k + 1) * D.
Proof.
  intros HD. unfold rne, round_nearest_even, loc_of.
  pose proof (Z.div_mod N D ltac:(lia)) as E.
  pose proof (Z.mod_pos_bound N D HD) as Hr.
  destruct (Z.eqb_spec (N mod D) 0); [nia|].
  destruct (Z.compare_spec (2 * (N mod D)) D); try nia.
  destruct (Z.even (N / D)); nia.
Qed.

Lemma div_le_cross N1 D1 N2 D2 : 0 < D1 -> 0 < D2 ->
  N1 * D2 <= N2 * D1 -> N1 / D1 <= N2 / D2.
Proof.
  intros H1 H2 H. apply Z.div_le_lower_bound; [lia|].
  pose proof (Z.div_mod N1 D1 ltac:(lia)) as E.
  pose proof (Z.mod_pos_bound N1 D1 H1) as Hr.
  (* D2 * (N1/D1) <= N2 : since D1 * D2 * q1 <= N1 * D2 <= N2 * D1 *)
  assert (D1 * (D2 * (N1 / D1)) <= D1 * N2) by nia.
  nia.
Qed.

Lemma rne_mono N1 D1 N2 D2 : 0 < D1 -> 0 < D2 ->
  N1 * D2 <= N2 * D1 -> rne N1 D1 <= rne N2 D2.
Proof.
  intros H1 H2 H.
  destruct (Z_le_gt_dec (rne N1 D1) (rne N2 D2)) as [|G]; [assumption|exfalso].
  pose proof (rne_ge N1 D1 (rne N2 D2) H1 ltac:(lia)) as A.
  pose proof (rne_le N2 D2 (rne N2 D2) H2 ltac:(lia)) as B.
  (* (2k+1) D1 <= 2 N1, 2 N2 <= (2k+1) D2 : so N1/D1 >= (2k+1)/2 >= N2/D2; with H equality *)
  set (k := rne N2 D2) in *.
  assert (E1 : 2 * N1 * D2 = (2 * k + 1) * D1 * D2) by nia.
  assert (E2 : 2 * N2 * D1 = (2 * k + 1) * D1 * D2) by nia.
  assert (F1 : 2 * N1 = (2 * k + 1) * D1) by nia.
  assert (F2 : 2 * N2 = (2 * k + 1) * D2) by nia.
  (* both are exact ties at k + 1/2: each rounds to the even neighbour *)
  clear A B E1 E2 H.
  assert (T : forall N D, 0 < D -> 2 * N = (2 * k + 1) * D ->
              rne N D = if Z.even k then k else k + 1).
  { clear. intros N D HD F. unfold rne, round_nearest_even, loc_of.
    assert (Hq : N / D = k).
    { symmetry. apply (Z.div_unique_pos N D k (N - k * D)); nia. }
    assert (Hr : 2 * (N mod D) = D).
    { pose proof (Z.div_mod N D ltac:(lia)) as E. rewrite Hq in E. nia. }
    rewrite Hq, Hr, Z.compare_refl.
    destruct (Z.eqb_spec (N mod D) 0); [lia|reflexivity]. }
  pose proof (T N1 D1 H1 F1). pose proof (T N2 D2 H2 F2). subst k. 
  destruct (Z.even (rne N2 D2)); lia.
Qed.

Lemma Zdigits2_nonneg z : 0 <= z -> Zdigits2 z = if z =? 0 then 0 else Z.log2 z + 1.
Proof.
  intros H. destruct (Z.eqb_spec z 0) as [->|Hz]; [reflexivity|].
  apply Zdigits2_pos. lia.
Qed.

Lemma log2_div_scale N D k : 0 < D -> 0 <= k -> 1 <= N / D ->
  Z.log2 ((N * 2 ^ k) / D) = Z.log2 (N / D) + k.
Proof.
  intros HD Hk Hq.
  pose proof (Z.log2_spec (N / D) ltac:(lia)) as [L U].
  pose proof (Z.log2_nonneg (N / D)) as Hl.
  set (a := Z.log2 (N / D)) in *.
  pose proof (Z.div_mod N D ltac:(lia)) as E.
  pose proof (Z.mod_pos_bound N D HD) as Hr.
  assert (P2 : 0 < 2 ^ k) by pow_pos.
  assert (Pa : 0 < 2 ^ a) by pow_pos.
  assert (L' : 2 ^ a * D <= N) by nia.
  assert (U' : N < 2 ^ Z.succ a * D) by nia.
  apply Z.log2_unique; [lia|]. rewrite Z.pow_add_r by lia. split.
  - apply Z.div_le_lower_bound; [lia|]. nia.
  - apply Z.div_lt_upper_bound; [lia|].
    replace (Z.succ (a + k)) with (Z.succ a + k) by lia.
    rewrite (Z.pow_add_r 2 (Z.succ a) k) by lia. nia.
Qed.

Lemma log2_div_pow2 q k : 0 <= q -> 0 <= k ->
  Z.log2 (q / 2 ^ k) = Z.max 0 (Z.log2 q - k).
Proof.
  intros Hq Hk. destruct (Z.eqb_spec q 0) as [->|H0].
  - rewrite Z.div_0_l by (apply Z.pow_nonzero; lia). simpl Z.log2. lia.
  - rewrite <- Z.shiftr_div_pow2 by lia. apply Z.log2_shiftr. lia.
Qed.

(** ** [binary_round_aux] on an exact input

    The exponent the first shift reaches is the exponent of the scaled
    input. *)
Lemma target_exp N D e : 0 <= N -> 0 < D ->
  e <= fexp prec emax (Zdigits2 (N / D) + e) ->
  fexp prec emax (Zdigits2 (N / D) + e)
  = rn_exp (fst (scale N D e)) (snd (scale N D e)) + emin64.
Proof.
  intros HN HD Hpre. rewrite fexp_eq in *.
  pose proof (Z.div_pos N D HN HD) as Hq.
  rewrite Zdigits2_nonneg in * by assumption.
  unfold scale, rn_exp. destruct (Z.leb_spec emin64 e) as [He|He]; cbn [fst snd].
  - destruct (Z.eqb_spec (N / D) 0) as [H0|H0].
    + assert (e = emin64) by (unfold prec, emin64 in *; lia). subst e.
      rewrite Z.sub_diag, Z.pow_0_r, Z.mul_1_r, H0. unfold prec, emin64; simpl; lia.
    + rewrite log2_div_scale by lia.
      pose proof (Z.log2_nonneg (N / D)). unfold prec, emin64 in *. lia.
  - rewrite <- Z.div_div by (try lia; apply Z.pow_pos_nonneg; lia).
    rewrite log2_div_pow2 by lia.
    pose proof (Z.log2_nonneg (N / D)).
    destruct (Z.eqb_spec (N / D) 0) as [H0|H0].
    + rewrite H0. unfold prec, emin64 in *. simpl Z.log2. lia.
    + unfold prec, emin64 in *. lia.
Qed.

Lemma rn_exp_nonneg P B : 0 <= rn_exp P B.
Proof. unfold rn_exp. lia. Qed.

Lemma rn_floor_lt P B : 0 <= P -> 0 < B ->
  P / (B * 2 ^ rn_exp P B) < 2 ^ prec.
Proof.
  intros HP HB. pose proof (rn_exp_nonneg P B) as HE.
  assert (P2 : 0 < 2 ^ rn_exp P B) by pow_pos.
  rewrite <- Z.div_div by lia.
  apply Z.div_lt_upper_bound; [lia|].
  rewrite <- Z.pow_add_r by (unfold prec; lia).
  pose proof (Z.div_pos P B HP HB) as Hq.
  destruct (Z.eqb_spec (P / B) 0) as [H0|H0].
  - rewrite H0. apply Z.pow_pos_nonneg; unfold prec; lia.
  - pose proof (Z.log2_spec (P / B) ltac:(lia)) as [_ U].
    eapply Z.lt_le_trans; [exact U|]. apply Z.pow_le_mono_r; [lia|].
    unfold rn_exp. lia.
Qed.

Lemma rn_mant_le P B : 0 <= P -> 0 < B ->
  0 <= rne P (B * 2 ^ rn_exp P B) <= 2 ^ prec.
Proof.
  intros HP HB. pose proof (rn_exp_nonneg P B) as HE.
  assert (P2 : 0 < 2 ^ rn_exp P B) by pow_pos.
  pose proof (rn_floor_lt P B HP HB).
  pose proof (rne_bounds P (B * 2 ^ rn_exp P B) ltac:(nia)).
  pose proof (Z.div_pos P (B * 2 ^ rn_exp P B) HP ltac:(nia)). lia.
Qed.

(** The second shift of [binary_round_aux]: one step, when rounding carried
    into bit [prec]. *)
Lemma shr_fexp_carry m e : 0 <= m <= 2 ^ prec -> emin64 <= e ->
  let '(mrs, e') := shr_fexp prec emax m e loc_Exact in
  (shr_m mrs, e') = if m =? 2 ^ prec then (2 ^ (prec - 1), e + 1) else (m, e).
Proof.
  intros Hm He. unfold shr_fexp. rewrite fexp_eq.
  destruct (Z.eqb_spec m (2 ^ prec)) as [E|E].
  - subst m. replace (Z.max (Zdigits2 (2 ^ prec) + e - prec) emin64 - e) with 1.
    + reflexivity.
    + change (Zdigits2 (2 ^ prec)) with 54. unfold prec, emin64 in *. lia.
  - assert (Hn : Z.max (Zdigits2 m + e - prec) emin64 - e <= 0).
    { rewrite Zdigits2_nonneg by lia. destruct (Z.eqb_spec m 0).
      - unfold prec, emin64 in *. lia.
      - assert (Z.log2 m < prec).
        { apply Z.log2_lt_pow2; lia. }
        unfold prec, emin64 in *. lia. }
    unfold shr.
    destruct (Z.max (Zdigits2 m + e - prec) emin64 - e) as [|p|p]; try lia; reflexivity.
Qed.

Lemma shr_fexp_first N D e : 0 <= N -> 0 < D ->
  e <= fexp prec emax (Zdigits2 (N / D) + e) ->
  shr_fexp prec emax (N / D) e (loc_of N D)
  = (rec_of N (D * 2 ^ (fexp prec emax (Zdigits2 (N / D) + e) - e)),
     fexp prec emax (Zdigits2 (N / D) + e)).
Proof.
  intros HN HD Hpre. unfold shr_fexp. rewrite rec_of_loc by assumption.
  rewrite shr_rec_of by lia. f_equal. lia.
Qed.

Lemma rne_scaled N D e : 0 <= N -> 0 < D ->
  e <= fexp prec emax (Zdigits2 (N / D) + e) ->
  rne N (D * 2 ^ (fexp prec emax (Zdigits2 (N / D) + e) - e))
  = rne (fst (scale N D e))
        (snd (scale N D e) * 2 ^ rn_exp (fst (scale N D e)) (snd (scale N D e))).
Proof.
  intros HN HD Hpre.
  pose proof (target_exp N D e HN HD Hpre) as Ht.
  pose proof (rn_exp_nonneg (fst (scale N D e)) (snd (scale N D e))) as HE.
  set (E := rn_exp _ _) in *. set (Et := fexp _ _ _) in *.
  unfold scale. destruct (Z.leb_spec emin64 e) as [He|He]; cbn [fst snd].
  - replace E with ((Et - e) + (e - emin64)) by lia.
    rewrite Z.pow_add_r by lia. rewrite Z.mul_assoc.
    rewrite rne_scale; [reflexivity| |].
    + apply Z.mul_pos_pos; [assumption|]. apply Z.pow_pos_nonneg; lia.
    + apply Z.pow_pos_nonneg; lia.
  - rewrite <- Z.mul_assoc, <- Z.pow_add_r by lia.
    replace (emin64 - e + E) with (Et - e) by lia. reflexivity.
Qed.

Theorem binary_round_aux_spec s N D e : 0 <= N -> 0 < D ->
  e <= fexp prec emax (Zdigits2 (N / D) + e) ->
  binary_round_aux prec emax s (N / D) e (loc_of N D)
  = float_of_rn s (rn_spec (fst (scale N D e)) (snd (scale N D e))).
Proof.
  intros HN HD Hpre. unfold binary_round_aux.
  rewrite shr_fexp_first by assumption.
  assert (HD' : 0 < D * 2 ^ (fexp prec emax (Zdigits2 (N / D) + e) - e)).
  { apply Z.mul_pos_pos; [assumption|]. apply Z.pow_pos_nonneg; lia. }
  rewrite loc_of_rec by assumption.
  change (round_nearest_even (shr_m (rec_of N ?d)) (loc_of N ?d)) with (rne N d).
  rewrite rne_scaled by assumption.
  rewrite target_exp by assumption.
  assert (HP : 0 <= fst (scale N D e) /\ 0 < snd (scale N D e)).
  { unfold scale. destruct (Z.leb_spec emin64 e); cbn [fst snd]; split; try assumption.
    - apply Z.mul_nonneg_nonneg; [assumption|]. apply Z.pow_nonneg; lia.
    - apply Z.mul_pos_pos; [assumption|]. apply Z.pow_pos_nonneg; lia. }
  destruct HP as [HP HB].
  set (P := fst (scale N D e)) in *. set (B := snd (scale N D e)) in *.
  pose proof (rn_mant_le P B HP HB) as Hm.
  pose proof (rn_exp_nonneg P B) as HE.
  pose proof (shr_fexp_carry (rne P (B * 2 ^ rn_exp P B)) (rn_exp P B + emin64) Hm ltac:(lia)) as Hc.
  destruct (shr_fexp prec emax (rne P (B * 2 ^ rn_exp P B)) (rn_exp P B + emin64) loc_Exact)
    as [mrs e''].
  unfold float_of_rn, rn_spec.
  destruct (rne P (B * 2 ^ rn_exp P B) =? 2 ^ prec);
    injection Hc as -> ->; cbn [fst snd].
  - replace (rn_exp P B + emin64 + 1) with (rn_exp P B + 1 + emin64) by lia. reflexivity.
  - reflexivity.
Qed.

Lemma rn_floor_ge P B : 0 <= P -> 0 < B -> 0 < rn_exp P B ->
  2 ^ (prec - 1) <= P / (B * 2 ^ rn_exp P B).
Proof.
  intros HP HB HE.
  assert (P2 : 0 < 2 ^ rn_exp P B) by pow_pos.
  rewrite <- Z.div_div by lia.
  apply Z.div_le_lower_bound; [lia|].
  rewrite <- Z.pow_add_r by (unfold prec; lia).
  unfold rn_exp in *.
  assert (Hq : 0 < P / B).
  { destruct (Z.eqb_spec (P / B) 0) as [H0|H0].
    - rewrite H0 in HE. simpl in HE. unfold prec in HE. lia.
    - pose proof (Z.div_pos P B HP HB). lia. }
  pose proof (Z.log2_spec (P / B) Hq) as [L _].
  eapply Z.le_trans; [|exact L]. apply Z.pow_le_mono_r; lia.
Qed.

Lemma rn_spec_canon P B : 0 <= P -> 0 < B -> canon (rn_spec P B).
Proof.
  intros HP HB. unfold rn_spec, canon.
  pose proof (rn_mant_le P B HP HB) as Hm.
  pose proof (rn_exp_nonneg P B) as HE.
  destruct (Z.eqb_spec (rne P (B * 2 ^ rn_exp P B)) (2 ^ prec)) as [E|E]; cbn [fst snd].
  - unfold prec. simpl. lia.
  - repeat split; try lia. intros H.
    pose proof (rn_floor_ge P B HP HB H).
    assert (0 < B * 2 ^ rn_exp P B).
    { apply Z.mul_pos_pos; [lia|apply Z.pow_pos_nonneg; lia]. }
    pose proof (rne_bounds P (B * 2 ^ rn_exp P B) ltac:(lia)). lia.
Qed.

Lemma rn_spec_val P B : fst (rn_spec P B) * 2 ^ snd (rn_spec P B) = rn_val P B.
Proof.
  unfold rn_spec, rn_val. pose proof (rn_exp_nonneg P B) as HE.
  destruct (Z.eqb_spec (rne P (B * 2 ^ rn_exp P B)) (2 ^ prec)) as [E|E]; cbn [fst snd].
  - rewrite E. rewrite Z.pow_add_r by lia. unfold prec. simpl (53 - 1).
    change (2 ^ 53) with (2 ^ 52 * 2). change (2 ^ 1) with 2. ring.
  - reflexivity.
Qed.

Lemma rn_exp_mono P1 B1 P2 B2 : 0 <= P1 -> 0 < B1 -> 0 < B2 ->
  P1 * B2 <= P2 * B1 -> rn_exp P1 B1 <= rn_exp P2 B2.
Proof.
  intros HP H1 H2 H. unfold rn_exp.
  pose proof (div_le_cross P1 B1 P2 B2 H1 H2 H).
  pose proof (Z.log2_le_mono (P1 / B1) (P2 / B2) ltac:(lia)). lia.
Qed.

Theorem rn_val_mono P1 B1 P2 B2 : 0 <= P1 -> 0 < B1 -> 0 < B2 ->
  P1 * B2 <= P2 * B1 -> rn_val P1 B1 <= rn_val P2 B2.
Proof.
  intros HP H1 H2 H.
  assert (HP2 : 0 <= P2) by nia.
  pose proof (rn_exp_mono P1 B1 P2 B2 HP H1 H2 H) as HE.
  pose proof (rn_exp_nonneg P1 B1) as HE1.
  unfold rn_val. set (E1 := rn_exp P1 B1) in *. set (E2 := rn_exp P2 B2) in *.
  assert (Q1 : 0 < 2 ^ E1) by pow_pos.
  assert (Q2 : 0 < 2 ^ E2) by pow_pos.
  destruct (Z.eq_dec E1 E2) as [Heq|Hne].
  - rewrite <- Heq. apply Z.mul_le_mono_nonneg_r; [lia|].
    apply rne_mono; nia.
  - assert (Hlt : E1 < E2) by lia.
    pose proof (rn_mant_le P1 B1 HP H1) as [_ U]. fold E1 in U.
    pose proof (rn_floor_ge P2 B2 HP2 H2 ltac:(fold E2; lia)) as L. fold E2 in L.
    pose proof (rne_bounds P2 (B2 * 2 ^ E2) ltac:(nia)) as [L2 _].
    apply Z.le_trans with (2 ^ prec * 2 ^ E1); [nia|].
    apply Z.le_trans with (2 ^ (prec - 1) * 2 ^ E2); [|nia].
    rewrite <- !Z.pow_add_r by (unfold prec; lia).
    apply Z.pow_le_mono_r; lia.
Qed.

(** ** The order of two canonical, rounded results *)
Lemma canon_exp_le m1 E1 m2 E2 : canon (m1, E1) -> canon (m2, E2) ->
  0 < m1 -> m1 * 2 ^ E1 <= m2 * 2 ^ E2 -> E1 <= E2.
Proof.
  unfold canon; cbn [fst snd]. intros (A1 & B1 & C1) (A2 & B2 & C2) Hm H.
  destruct (Z_le_gt_dec E1 E2) as [|G]; [assumption|exfalso].
  specialize (C1 ltac:(lia)).
  assert (Q2 : 0 < 2 ^ E2) by pow_pos.
  assert (m2 * 2 ^ E2 < 2 ^ prec * 2 ^ E2) by nia.
  assert (2 ^ prec * 2 ^ E2 <= 2 ^ (prec - 1) * 2 ^ E1).
  { rewrite <- !Z.pow_add_r by (unfold prec; lia). apply Z.pow_le_mono_r; lia. }
  assert (Q1 : 0 < 2 ^ E1) by pow_pos.
  nia.
Qed.

Lemma float_of_rn_le m1 E1 m2 E2 : canon (m1, E1) -> canon (m2, E2) ->
  m1 * 2 ^ E1 <= m2 * 2 ^ E2 ->
  SFleb (float_of_rn false (m1, E1)) (float_of_rn false (m2, E2)) = true.
Proof.
  intros C1 C2 H.
  pose proof C1 as (A1 & B1 & _). pose proof C2 as (A2 & B2 & _).
  cbn [fst snd] in A1, B1, A2, B2.
  assert (Q1 : 0 < 2 ^ E1) by pow_pos.
  assert (Q2 : 0 < 2 ^ E2) by pow_pos.
  unfold float_of_rn; cbn [fst snd].
  destruct m1 as [|p1|p1]; [| |lia].
  - destruct m2 as [|p2|p2]; [reflexivity| |lia].
    destruct (E2 + emin64 <=? emax - prec); reflexivity.
  - destruct m2 as [|p2|p2]; [nia| |lia].
    pose proof (canon_exp_le _ _ _ _ C1 C2 ltac:(lia) H) as HE.
    destruct (Z.leb_spec (E1 + emin64) (emax - prec)) as [F1|F1];
      destruct (Z.leb_spec (E2 + emin64) (emax - prec)) as [F2|F2]; try lia; try reflexivity.
    unfold SFleb, SFcompare.
    destruct (Z.compare_spec (E1 + emin64) (E2 + emin64)) as [Ee|Ee|Ee]; try lia; try reflexivity.
    assert (E1 = E2) by lia. subst E2.
    rewrite Pos.compare_cont_spec. cbn [Pos.switch_Eq].
    destruct (Pos.compare_spec p1 p2) as [Hp|Hp|Hp]; try reflexivity.
    exfalso. assert (Z.pos p2 < Z.pos p1) by lia. nia.
Qed.

Theorem float_of_rn_mono P1 B1 P2 B2 : 0 <= P1 -> 0 < B1 -> 0 < B2 ->
  P1 * B2 <= P2 * B1 ->
  SFleb (float_of_rn false (rn_spec P1 B1)) (float_of_rn false (rn_spec P2 B2)) = true.
Proof.
  intros HP H1 H2 H. assert (HP2 : 0 <= P2) by nia.
  pose proof (rn_spec_canon P1 B1 HP H1) as C1.
  pose proof (rn_spec_canon P2 B2 HP2 H2) as C2.
  pose proof (rn_val_mono P1 B1 P2 B2 HP H1 H2 H) as V.
  rewrite <- !rn_spec_val in V.
  destruct (rn_spec P1 B1) as [m1 E1], (rn_spec P2 B2) as [m2 E2].
  apply float_of_rn_le; assumption.
Qed.

Lemma new_location_loc N D : 0 < D -> new_location D (N mod D) = loc_of N D.
Proof.
  intros HD. unfold new_location, new_location_even, new_location_odd, loc_of.
  pose proof (Z.mod_pos_bound N D HD) as Hr. set (r := N mod D) in *.
  destruct (Z.even D) eqn:Ev; destruct (Z.eqb_spec r 0) as [H0|H0]; try reflexivity.
  f_equal.
  assert (Hodd : Z.odd D = true) by (rewrite <- Z.negb_even, Ev; reflexivity).
  apply Z.odd_spec in Hodd. destruct Hodd as [k Hk].
  destruct (Z.compare_spec (2 * r + 1) D), (Z.compare_spec (2 * r) D); try lia; reflexivity.
Qed.

Lemma div_eucl_eq a b : Z.div_eucl a b = (a / b, a mod b).
Proof. unfold Z.div, Z.modulo. destruct (Z.div_eucl a b). reflexivity. Qed.

Lemma fexp_mono a b : a <= b -> fexp prec emax a <= fexp prec emax b.
Proof. rewrite !fexp_eq. lia. Qed.

Lemma fexp_ge_emin a : emin64 <= fexp prec emax a.
Proof. rewrite fexp_eq. lia. Qed.

Lemma SFdiv_core_int c m :
  let e' := Z.min (fexp prec emax (Zdigits2 (Zpos c) - Zdigits2 (Zpos m))) 0 in
  SFdiv_core_binary prec emax (Zpos c) 0 (Zpos m) 0
  = ((Zpos c * 2 ^ (- e')) / Zpos m, e', loc_of (Zpos c * 2 ^ (- e')) (Zpos m)).
Proof.
  intros e'. unfold SFdiv_core_binary.
  rewrite !Z.add_0_r. change (0 - 0) with 0. fold e'.
  replace (0 - e') with (- e') by lia.
  assert (He : e' <= 0) by (unfold e'; lia).
  assert (Hm' : match - e' with
                | 0 => Zpos c
                | Zpos _ => Z.shiftl (Zpos c) (- e')
                | Zneg _ => 0
                end = Zpos c * 2 ^ (- e')).
  { destruct (- e') as [|p|p] eqn:Es; try lia.
    rewrite Z.shiftl_mul_pow2 by lia. reflexivity. }
  rewrite Hm'. rewrite div_eucl_eq. rewrite new_location_loc by lia. reflexivity.
Qed.

Lemma digits_div_ge N D s d1 d2 : 0 < D -> 0 <= s ->
  2 ^ (d1 - 1 + s) <= N -> D < 2 ^ d2 -> 1 <= d1 -> 0 <= d2 ->
  d1 + s - d2 <= Zdigits2 (N / D).
Proof.
  intros HD Hs HN HD2 H1 H2.
  assert (0 < 2 ^ (d1 - 1 + s)) by pow_pos.
  pose proof (Z.div_pos N D ltac:(lia) HD) as Hq.
  rewrite Zdigits2_nonneg by assumption.
  destruct (Z_le_gt_dec (d1 + s - d2) 0) as [Hle|Hgt].
  - destruct (N / D =? 0); [lia|]. pose proof (Z.log2_nonneg (N / D)). lia.
  - assert (Hq' : 2 ^ (d1 - 1 + s - d2) <= N / D).
    { apply Z.div_le_lower_bound; [lia|].
      apply Z.le_trans with (2 ^ d2 * 2 ^ (d1 - 1 + s - d2)).
      - apply Z.mul_le_mono_nonneg_r; [apply Z.pow_nonneg|]; lia.
      - rewrite <- Z.pow_add_r by lia.
        replace (d2 + (d1 - 1 + s - d2)) with (d1 - 1 + s) by lia. assumption. }
    assert (0 < 2 ^ (d1 - 1 + s - d2)) by pow_pos.
    destruct (Z.eqb_spec (N / D) 0); [lia|].
    pose proof (Z.log2_le_pow2 (N / D) (d1 - 1 + s - d2) ltac:(lia)) as L.
    apply L in Hq'. lia.
Qed.

Lemma SFdiv_core_round s c m :
  (let '(mz, ez, lz) := SFdiv_core_binary prec emax (Zpos c) 0 (Zpos m) 0 in
   binary_round_aux prec emax s mz ez lz)
  = float_of_rn s (rn_spec (Zpos c * 2 ^ (- emin64)) (Zpos m)).
Proof.
  rewrite SFdiv_core_int.
  set (e' := Z.min (fexp prec emax (Zdigits2 (Zpos c) - Zdigits2 (Zpos m))) 0).
  assert (He : e' <= 0) by (unfold e'; lia).
  assert (He' : emin64 <= e').
  { unfold e'. pose proof (fexp_ge_emin (Zdigits2 (Zpos c) - Zdigits2 (Zpos m))).
    unfold emin64 in *. lia. }
  assert (P2 : 0 < 2 ^ (- e')) by pow_pos.
  rewrite binary_round_aux_spec; [| nia | lia |].
  - unfold scale. destruct (Z.leb_spec emin64 e'); [|lia]. cbn [fst snd].
    rewrite <- Z.mul_assoc, <- Z.pow_add_r by lia.
    replace (- e' + (e' - emin64)) with (- emin64) by lia. reflexivity.
  - apply Z.le_trans with (fexp prec emax (Zdigits2 (Zpos c) - Zdigits2 (Zpos m))).
    + unfold e'. lia.
    + apply fexp_mono.
      pose proof (digits_div_ge (Zpos c * 2 ^ (- e')) (Zpos m) (- e')
                    (Zdigits2 (Zpos c)) (Zdigits2 (Zpos m))) as G.
      rewrite !Zdigits2_pos in * by lia.
      pose proof (Z.log2_spec (Zpos c) ltac:(lia)) as [Lc Uc].
      pose proof (Z.log2_spec (Zpos m) ltac:(lia)) as [Lm Um].
      pose proof (Z.log2_nonneg (Zpos c)). pose proof (Z.log2_nonneg (Zpos m)).
      assert (2 ^ (Z.log2 (Zpos c) + 1 - 1 + - e') <= Zpos c * 2 ^ (- e')).
      { replace (Z.log2 (Zpos c) + 1 - 1 + - e') with (Z.log2 (Zpos c) + - e') by lia.
        rewrite Z.pow_add_r by lia. nia. }
      specialize (G ltac:(lia) ltac:(lia) ltac:(assumption)
                    ltac:(replace (Z.log2 (Zpos m) + 1) with (Z.succ (Z.log2 (Zpos m))) by lia; assumption)
                    ltac:(lia) ltac:(lia)).
      lia.
Qed.

Lemma rne_zero D : 0 < D -> rne 0 D = 0.
Proof.
  intros HD. unfold rne, loc_of. rewrite Z.mod_0_l, Z.div_0_l by lia. reflexivity.
Qed.

Lemma rn_spec_zero B : 0 < B -> rn_spec 0 B = (0, 0).
Proof.
  intros HB. unfold rn_spec, rn_exp. rewrite Z.div_0_l by lia.
  change (Z.max (Z.log2 0 + 1 - prec) 0) with 0.
  rewrite rne_zero by lia. reflexivity.
Qed.

(** The quotient of two integers is rounded once, whatever their size. *)
Theorem SFdiv_int_spec c m : 0 < m ->
  SFdiv prec emax (Z2SF c) (Z2SF m)
  = float_of_rn (c <? 0) (rn_spec (Z.abs c * 2 ^ (- emin64)) m).
Proof.
  intros Hm. destruct m as [|m|m]; try lia. destruct c as [|c|c].
  - cbn [Z.abs]. rewrite Z.mul_0_l, rn_spec_zero by lia. reflexivity.
  - exact (SFdiv_core_round false c m).
  - exact (SFdiv_core_round true c m).
Qed.

Lemma loc_exact N : loc_of N 1 = loc_Exact.
Proof. unfold loc_of. rewrite Z.mod_1_r. reflexivity. Qed.

(** ** Products and conversions

    Rounding an exact value [N * 2^e]. *)
Lemma binary_round_aux_exact s N e : 0 <= N ->
  e <= fexp prec emax (Zdigits2 N + e) ->
  binary_round_aux prec emax s N e loc_Exact
  = float_of_rn s (rn_spec (fst (scale N 1 e)) (snd (scale N 1 e))).
Proof.
  intros HN Hpre.
  rewrite <- (binary_round_aux_spec s N 1 e HN ltac:(lia)).
  - rewrite Z.div_1_r, loc_exact. reflexivity.
  - rewrite Z.div_1_r. assumption.
Qed.

Theorem SFmul_spec sx mx ex sy my ey : normal my ->
  SFmul prec emax (S754_finite sx mx ex) (S754_finite sy my ey)
  = float_of_rn (xorb sx sy)
      (rn_spec (fst (scale (Zpos mx * Zpos my) 1 (ex + ey)))
               (snd (scale (Zpos mx * Zpos my) 1 (ex + ey)))).
Proof.
  intros Hn. unfold SFmul. rewrite Pos2Z.inj_mul.
  apply binary_round_aux_exact; [lia|].
  rewrite fexp_eq. rewrite Zdigits2_pos by lia.
  assert (prec - 1 <= Z.log2 (Zpos mx * Zpos my)).
  { apply Z.log2_le_pow2; [lia|]. unfold normal in Hn. nia. }
  lia.
Qed.

Lemma pos_iter_xO p d : Zpos (Pos.iter xO p d) = Zpos p * 2 ^ Zpos d.
Proof.
  induction d as [|d IH] using Pos.peano_ind.
  - simpl. lia.
  - rewrite Pos.iter_succ, Pos2Z.inj_xO, IH, Pos2Z.inj_succ, Z.pow_succ_r by lia. ring.
Qed.

Theorem binary_normalize_int p :
  binary_normalize prec emax (Zpos p) 0 false
  = float_of_rn false (rn_spec (Zpos p * 2 ^ (- emin64)) 1).
Proof.
  unfold binary_normalize, binary_round, shl_align.
  rewrite Z.add_0_r, Z.sub_0_r.
  change (Zpos (digits2_pos p)) with (Zdigits2 (Zpos p)).
  pose proof (fexp_ge_emin (Zdigits2 (Zpos p))) as Hge.
  set (e := fexp prec emax (Zdigits2 (Zpos p))) in *.
  assert (Hd : Zdigits2 (Zpos p) = Z.log2 (Zpos p) + 1) by (apply Zdigits2_pos; lia).
  pose proof (Z.log2_nonneg (Zpos p)) as Hl.
  destruct e as [|q|q] eqn:Ee.
  - rewrite binary_round_aux_exact; [| lia |].
    + unfold scale. change (emin64 <=? 0) with true. cbn [fst snd]. reflexivity.
    + rewrite Z.add_0_r. fold e. lia.
  - rewrite binary_round_aux_exact; [| lia |].
    + unfold scale. change (emin64 <=? 0) with true. cbn [fst snd]. reflexivity.
    + rewrite Z.add_0_r. fold e. lia.
  - rewrite pos_iter_xO.
    assert (P2 : 0 < 2 ^ Zpos q) by pow_pos.
    rewrite binary_round_aux_exact; [| lia |].
    + unfold scale. destruct (Z.leb_spec emin64 (Zneg q)); [|lia]. cbn [fst snd].
      rewrite <- Z.mul_assoc, <- Z.pow_add_r by lia.
      replace (Zpos q + (Zneg q - emin64)) with (- emin64) by lia. reflexivity.
    + rewrite Zdigits2_pos by lia.
      rewrite Z.log2_mul_pow2 by lia.
      replace (Z.pos q + Z.log2 (Z.pos p) + 1 + Z.neg q) with (Zdigits2 (Zpos p)) by lia.
      fold e. lia.
Qed.

(** ** Overflow

    No overflow below the midpoint between the largest float and
    [2^emax]. *)
Lemma rn_spec_finite P B : 0 <= P -> 0 < B ->
  2 * P < (2 ^ (prec + 1) - 1) * 2 ^ (emax - prec - emin64) * B ->
  snd (rn_spec P B) + emin64 <= emax - prec.
Proof.
  intros HP HB H.
  destruct (Z_le_gt_dec (snd (rn_spec P B) + emin64) (emax - prec)) as [|G]; [assumption|exfalso].
  pose proof (rn_exp_nonneg P B) as HE.
  assert (Q : 0 < 2 ^ rn_exp P B) by pow_pos.
  assert (HD : 0 < B * 2 ^ rn_exp P B) by nia.
  assert (Big : rn_exp P B > emax - prec - emin64 ->
          (2 ^ (prec + 1) - 1) * 2 ^ (emax - prec - emin64) * B <= 2 * P).
  { intros HG.
    pose proof (rn_floor_ge P B HP HB ltac:(unfold emax, prec, emin64 in *; lia)) as L.
    assert (L' : 2 ^ (prec - 1) * (B * 2 ^ rn_exp P B) <= P).
    { pose proof (Z.div_mod P (B * 2 ^ rn_exp P B) ltac:(lia)).
      pose proof (Z.mod_pos_bound P (B * 2 ^ rn_exp P B) HD). nia. }
    assert (2 * 2 ^ (emax - prec - emin64) <= 2 ^ rn_exp P B).
    { rewrite <- Z.pow_succ_r by (unfold emax, prec, emin64; lia).
      apply Z.pow_le_mono_r; lia. }
    assert (0 < 2 ^ (emax - prec - emin64)) by (apply Z.pow_pos_nonneg; unfold emax, prec, emin64; lia).
    change (2 ^ (prec + 1) - 1) with (2 * 2 ^ (prec - 1) * 2 - 1).
    assert (0 < 2 ^ (prec - 1)) by (apply Z.pow_pos_nonneg; unfold prec; lia).
    nia. }
  unfold rn_spec in G.
  destruct (Z.eqb_spec (rne P (B * 2 ^ rn_exp P B)) (2 ^ prec)) as [E|E]; cbn [snd] in G.
  - destruct (Z.eq_dec (rn_exp P B) (emax - prec - emin64)) as [Ee|Ne].
    + pose proof (rne_ge P (B * 2 ^ rn_exp P B) (2 ^ prec - 1) HD ltac:(lia)) as R.
      rewrite Ee in R.
      replace (2 * (2 ^ prec - 1) + 1) with (2 ^ (prec + 1) - 1) in R
        by (unfold prec; simpl; lia).
      nia.
    + specialize (Big ltac:(lia)). lia.
  - specialize (Big ltac:(lia)). lia.
Qed.

Lemma float_of_rn_finite s me : 0 <= fst me -> snd me + emin64 <= emax - prec ->
  float_of_rn s me = S754_zero s \/
  exists p, fst me = Zpos p /\ float_of_rn s me = S754_finite s p (snd me + emin64).
Proof.
  intros Hm He. unfold float_of_rn. destruct (fst me) as [|p|p]; try lia.
  - left; reflexivity.
  - right. exists p. split; [reflexivity|].
    destruct (Z.leb_spec (snd me + emin64) (emax - prec)); [reflexivity|lia].
Qed.

Lemma scale_pos N D e : 0 <= N -> 0 < D ->
  0 <= fst (scale N D e) /\ 0 < snd (scale N D e).
Proof.
  intros HN HD. unfold scale.
  destruct (Z.leb_spec emin64 e); cbn [fst snd]; split; try assumption.
  - apply Z.mul_nonneg_nonneg; [assumption|]. apply Z.pow_nonneg; lia.
  - apply Z.mul_pos_pos; [assumption|]. apply Z.pow_pos_nonneg; lia.
Qed.

Lemma scale_rel N D e k : k <= e -> k <= emin64 ->
  exists b, 0 < b /\ snd (scale N D e) = D * b /\
            fst (scale N D e) * 2 ^ (emin64 - k) = N * b * 2 ^ (e - k).
Proof.
  intros H1 H2. unfold scale. destruct (Z.leb_spec emin64 e) as [He|He]; cbn [fst snd].
  - exists 1. repeat split; try lia.
    rewrite <- Z.mul_assoc, <- Z.pow_add_r by lia.
    replace (e - emin64 + (emin64 - k)) with (e - k) by lia. ring.
  - exists (2 ^ (emin64 - e)). repeat split.
    + apply Z.pow_pos_nonneg; lia.
    + rewrite <- Z.mul_assoc, <- Z.pow_add_r by lia.
      replace (emin64 - e + (e - k)) with (emin64 - k) by lia. reflexivity.
Qed.

Lemma scale_cross N1 D1 e1 N2 D2 e2 k :
  k <= e1 -> k <= e2 -> k <= emin64 ->
  N1 * D2 * 2 ^ (e1 - k) <= N2 * D1 * 2 ^ (e2 - k) ->
  fst (scale N1 D1 e1) * snd (scale N2 D2 e2)
  <= fst (scale N2 D2 e2) * snd (scale N1 D1 e1).
Proof.
  intros K1 K2 K3 H.
  destruct (scale_rel N1 D1 e1 k K1 K3) as (b1 & Hb1 & S1 & F1).
  destruct (scale_rel N2 D2 e2 k K2 K3) as (b2 & Hb2 & S2 & F2).
  assert (W : 0 < 2 ^ (emin64 - k)) by pow_pos.
  rewrite S1, S2.
  apply Z.mul_le_mono_pos_r with (p := 2 ^ (emin64 - k)); [assumption|].
  replace (fst (scale N1 D1 e1) * (D2 * b2) * 2 ^ (emin64 - k))
    with (fst (scale N1 D1 e1) * 2 ^ (emin64 - k) * (D2 * b2)) by ring.
  replace (fst (scale N2 D2 e2) * (D1 * b1) * 2 ^ (emin64 - k))
    with (fst (scale N2 D2 e2) * 2 ^ (emin64 - k) * (D1 * b1)) by ring.
  rewrite F1, F2.
  replace (N1 * b1 * 2 ^ (e1 - k) * (D2 * b2)) with ((N1 * D2 * 2 ^ (e1 - k)) * (b1 * b2)) by ring.
  replace (N2 * b2 * 2 ^ (e2 - k) * (D1 * b1)) with ((N2 * D1 * 2 ^ (e2 - k)) * (b1 * b2)) by ring.
  apply Z.mul_le_mono_nonneg_r; [nia|assumption].
Qed.

End RoundingFacts.

Import RoundingFacts.

(** * Facts about the Python arithmetic *)

Module PyFacts.

(** ** Shapes of rounded results *)

Lemma canon_zero me : canon me -> fst me = 0 -> snd me = 0.
Proof.
  intros (A & B & C) H0.
  destruct (Z.eq_dec (snd me) 0) as [|N]; [assumption|exfalso].
  specialize (C ltac:(lia)).
  assert (0 < 2 ^ (prec - 1)) by (apply Z.pow_pos_nonneg; unfold prec; lia). lia.
Qed.

Lemma float_of_rn_shape s me : canon me -> rn_shape s me (float_of_rn s me).
Proof.
  intros C. pose proof C as (A & B & _). unfold float_of_rn.
  destruct (fst me) as [|p|p] eqn:E; try lia.
  - apply shape_zero; [assumption|]. apply canon_zero; assumption.
  - destruct (Z.leb_spec (snd me + emin64) (emax - prec)).
    + apply shape_finite; assumption.
    + apply shape_inf; lia.
Qed.

Lemma value_nonneg me : canon me -> 0 <= value me.
Proof.
  intros (A & B & _). unfold value.
  apply Z.mul_nonneg_nonneg; [lia|]. apply Z.pow_nonneg; lia.
Qed.

(** ** Integer true division *)

Lemma quotient_rn_canon c m : 0 < m -> canon (quotient_rn c m).
Proof.
  intros Hm. apply rn_spec_canon; [|assumption].
  apply Z.mul_nonneg_nonneg; [lia|]. apply Z.pow_nonneg; lia.
Qed.

Lemma SFdiv_int_signed c m : 0 < m ->
  SFdiv prec emax (Z2SF c) (Z2SF m) = float_of_rn (c <? 0) (quotient_rn c m).
Proof. apply SFdiv_int_spec. Qed.

Lemma double_bound_eq : double_bound = (2 ^ (prec + 1) - 1) * 2 ^ 970.
Proof. reflexivity. Qed.

Lemma quotient_rn_finite c m : 0 < m -> Z.abs c < double_bound * m ->
  snd (quotient_rn c m) + emin64 <= emax - prec.
Proof.
  intros Hm H. apply rn_spec_finite; [|assumption|].
  - apply Z.mul_nonneg_nonneg; [lia|]. apply Z.pow_nonneg; lia.
  - rewrite double_bound_eq in H.
    change (emax - prec - emin64) with (970 + 1075).
    change (- emin64) with 1074.
    rewrite (Z.pow_add_r 2 970 1075) by lia.
    replace (2 * (Z.abs c * 2 ^ 1074)) with (Z.abs c * 2 ^ 1075)
      by (change 1075 with (Z.succ 1074); rewrite Z.pow_succ_r by lia; ring).
    assert (0 < 2 ^ 1075) by pow_pos.
    replace ((2 ^ (prec + 1) - 1) * (2 ^ 970 * 2 ^ 1075) * m)
      with ((2 ^ (prec + 1) - 1) * 2 ^ 970 * m * 2 ^ 1075) by ring.
    apply Z.mul_lt_mono_pos_r; lia.
Qed.

(** [int_truediv] returns exactly when the rounded quotient is finite. *)
Lemma int_truediv_Ok c m q : 0 < m -> int_truediv c m = Ok q ->
  q = float_of_rn (c <? 0) (quotient_rn c m) /\
  snd (quotient_rn c m) + emin64 <= emax - prec.
Proof.
  intros Hm. unfold int_truediv.
  destruct (Z.eqb_spec m 0); [lia|].
  rewrite SFdiv_int_signed by assumption.
  destruct (float_of_rn_shape (c <? 0) _ (quotient_rn_canon c m Hm)) as [H0 H1|p Hp He|Hp He];
    intros H; try discriminate; injection H as <-; split; try reflexivity;
    unfold emin64, emax, prec in *; lia.
Qed.

Lemma int_truediv_returns c m : 0 < m -> Z.abs c < double_bound * m ->
  int_truediv c m = Ok (float_of_rn (c <? 0) (quotient_rn c m)).
Proof.
  intros Hm H. unfold int_truediv.
  destruct (Z.eqb_spec m 0); [lia|].
  rewrite SFdiv_int_signed by assumption.
  pose proof (quotient_rn_finite c m Hm H) as F.
  destruct (float_of_rn_shape (c <? 0) _ (quotient_rn_canon c m Hm)) as [H0 H1|p Hp He|Hp He];
    try reflexivity; lia.
Qed.

Lemma quotient_value c m : value (quotient_rn c m) = rn_val (Z.abs c * 2 ^ (- emin64)) m.
Proof. unfold value, quotient_rn. apply rn_spec_val. Qed.

Lemma quotient_value_mono c1 c2 m : 0 < m -> Z.abs c1 <= Z.abs c2 ->
  value (quotient_rn c1 m) <= value (quotient_rn c2 m).
Proof.
  intros Hm H. rewrite !quotient_value.
  assert (0 < 2 ^ (- emin64)) by (apply Z.pow_pos_nonneg; unfold emin64; lia).
  apply rn_val_mono; try lia.
  apply Z.mul_le_mono_nonneg_r; [lia|]. apply Z.mul_le_mono_nonneg_r; lia.
Qed.

Lemma rn_val_bound : rn_val (double_bound * 2 ^ (- emin64)) 1 = 2 ^ (emax - emin64).
Proof. vm_compute. reflexivity. Qed.

(** From [double_bound] on, a quotient rounds beyond the largest float. *)
Lemma quotient_rn_infinite c m : 0 < m -> double_bound * m <= Z.abs c ->
  0 < fst (quotient_rn c m) /\ emax - prec < snd (quotient_rn c m) + emin64.
Proof.
  intros Hm H.
  pose proof (quotient_rn_canon c m Hm) as C.
  assert (Q : 0 < 2 ^ (- emin64)) by (apply Z.pow_pos_nonneg; unfold emin64; lia).
  assert (V : 2 ^ (emax - emin64) <= value (quotient_rn c m)).
  { rewrite quotient_value, <- rn_val_bound.
    apply rn_val_mono; try lia.
    - apply Z.mul_nonneg_nonneg; [|lia]. unfold double_bound. vm_compute. discriminate.
    - rewrite Z.mul_1_r.
      replace (double_bound * 2 ^ (- emin64) * m)
        with (double_bound * m * 2 ^ (- emin64)) by ring.
      apply Z.mul_le_mono_nonneg_r; lia. }
  destruct C as ((A & U) & B & _). unfold value in V.
  assert (P : 0 < 2 ^ (emax - emin64)) by (apply Z.pow_pos_nonneg; unfold emax, emin64; lia).
  assert (Q2 : 0 < 2 ^ snd (quotient_rn c m)) by pow_pos.
  split; [nia|].
  destruct (Z_lt_le_dec (emax - prec) (snd (quotient_rn c m) + emin64)) as [|L];
    [assumption|exfalso].
  assert (2 ^ snd (quotient_rn c m) <= 2 ^ (emax - prec - emin64))
    by (apply Z.pow_le_mono_r; lia).
  assert (E : 2 ^ (emax - emin64) = 2 ^ prec * 2 ^ (emax - prec - emin64)).
  { rewrite <- Z.pow_add_r by (unfold emax, prec, emin64; lia). reflexivity. }
  assert (0 < 2 ^ (emax - prec - emin64))
    by (apply Z.pow_pos_nonneg; unfold emax, prec, emin64; lia).
  nia.
Qed.

Lemma int_truediv_overflows c m : 0 < m -> double_bound * m <= Z.abs c ->
  int_truediv c m
  = Raise (OverflowError "integer division result too large for a float").
Proof.
  intros Hm H. unfold int_truediv.
  destruct (Z.eqb_spec m 0); [lia|].
  rewrite SFdiv_int_signed by assumption.
  destruct (quotient_rn_infinite c m Hm H) as [F E].
  destruct (float_of_rn_shape (c <? 0) _ (quotient_rn_canon c m Hm)); try lia.
  reflexivity.
Qed.

(** ** Products *)

Lemma float_of_int_100 : float_of_int 100 = Ok hundred.
Proof. reflexivity. Qed.

Lemma hundred_normal : normal 7036874417766400.
Proof. unfold normal, prec. simpl. lia. Qed.

Lemma xorb_false_r' s : xorb s false = s.
Proof. destruct s; reflexivity. Qed.

Lemma product_rn_canon me my ey : canon me -> canon (product_rn me my ey).
Proof.
  intros (A & _). unfold product_rn.
  destruct (scale_pos (fst me * Zpos my) 1 (snd me + emin64 + ey) ltac:(nia) ltac:(lia)).
  apply rn_spec_canon; assumption.
Qed.

Lemma float_mul_rn s me my ey : canon me -> snd me + emin64 <= emax - prec ->
  normal my ->
  float_mul (float_of_rn s me) (S754_finite false my ey)
  = float_of_rn s (product_rn me my ey).
Proof.
  intros C F Hn. unfold float_mul, product_rn.
  destruct (float_of_rn_shape s me C) as [H0 H1|p Hp He|Hp He]; [| |lia].
  - cbn [SFmul]. rewrite xorb_false_r', H0, Z.mul_0_l.
    assert (Hs : fst (scale 0 1 (snd me + emin64 + ey)) = 0).
    { unfold scale. destruct (emin64 <=? snd me + emin64 + ey); reflexivity. }
    rewrite Hs. destruct (scale_pos 0 1 (snd me + emin64 + ey) ltac:(lia) ltac:(lia)) as [_ HB].
    rewrite rn_spec_zero by assumption. reflexivity.
  - rewrite SFmul_spec by assumption. rewrite xorb_false_r', Hp. reflexivity.
Qed.

(** Multiplying by a positive float keeps the order of the values. *)
Lemma product_rn_mono me1 me2 my ey : canon me1 -> canon me2 -> ey <= 0 ->
  value me1 <= value me2 ->
  value (product_rn me1 my ey) <= value (product_rn me2 my ey).
Proof.
  intros C1 C2 Hey H. unfold value in *.
  pose proof C1 as (A1 & B1 & _). pose proof C2 as (A2 & B2 & _).
  unfold product_rn. rewrite !rn_spec_val.
  destruct (scale_pos (fst me1 * Zpos my) 1 (snd me1 + emin64 + ey) ltac:(nia) ltac:(lia)).
  destruct (scale_pos (fst me2 * Zpos my) 1 (snd me2 + emin64 + ey) ltac:(nia) ltac:(lia)).
  apply rn_val_mono; try assumption.
  apply (scale_cross _ _ _ _ _ _ (emin64 + ey)); try lia.
  replace (snd me1 + emin64 + ey - (emin64 + ey)) with (snd me1) by lia.
  replace (snd me2 + emin64 + ey - (emin64 + ey)) with (snd me2) by lia.
  nia.
Qed.

Lemma area_product_canon ma ea md ed : canon (area_product ma ea md ed).
Proof.
  unfold area_product.
  destruct (scale_pos (Zpos ma * Zpos md) 1 (ea + ed) ltac:(lia) ltac:(lia)).
  apply rn_spec_canon; assumption.
Qed.

Lemma float_mul_area ma ea md ed : normal md ->
  float_mul (S754_finite false ma ea) (S754_finite false md ed)
  = float_of_rn false (area_product ma ea md ed).
Proof. intros Hn. unfold float_mul. rewrite SFmul_spec by assumption. reflexivity. Qed.

Lemma area_product_finite ma ea md ed :
  Zpos ma < 2 ^ prec -> ea <= emax - prec -> ed <= 0 -> Zpos md <= 2 ^ (- ed) ->
  snd (area_product ma ea md ed) + emin64 <= emax - prec.
Proof.
  intros Hma Hea Hed Hmd. unfold area_product.
  destruct (scale_pos (Zpos ma * Zpos md) 1 (ea + ed) ltac:(lia) ltac:(lia)) as [HP HB].
  apply rn_spec_finite; try assumption.
  set (k := Z.min (ea + ed) emin64).
  destruct (scale_rel (Zpos ma * Zpos md) 1 (ea + ed) k ltac:(lia) ltac:(lia))
    as (b & Hb & SB & SF).
  rewrite SB. rewrite Z.mul_1_l.
  assert (W : 0 < 2 ^ (emin64 - k)) by pow_pos.
  apply Z.mul_lt_mono_pos_r with (p := 2 ^ (emin64 - k)); [assumption|].
  replace (2 * fst (scale (Zpos ma * Zpos md) 1 (ea + ed)) * 2 ^ (emin64 - k))
    with (2 * (fst (scale (Zpos ma * Zpos md) 1 (ea + ed)) * 2 ^ (emin64 - k))) by ring.
  rewrite SF.
  replace ((2 ^ (prec + 1) - 1) * 2 ^ (emax - prec - emin64) * b * 2 ^ (emin64 - k))
    with ((2 ^ (prec + 1) - 1) * (2 ^ (emax - prec - emin64) * 2 ^ (emin64 - k)) * b) by ring.
  rewrite <- Z.pow_add_r by (unfold emax, prec, emin64 in *; lia).
  replace (emax - prec - emin64 + (emin64 - k)) with (emax - prec - k) by lia.
  (* ma * md * 2^(ea+ed-k) <= (2^prec - 1) * 2^(emax-prec-k) *)
  assert (X : Zpos md * 2 ^ (ea + ed - k) <= 2 ^ (emax - prec - k)).
  { apply Z.le_trans with (2 ^ (- ed) * 2 ^ (ea + ed - k)).
    - apply Z.mul_le_mono_nonneg_r; [apply Z.pow_nonneg; lia|assumption].
    - rewrite <- Z.pow_add_r by lia. apply Z.pow_le_mono_r; lia. }
  assert (Y : 0 < 2 ^ (emax - prec - k)) by pow_pos.
  assert (Q : 0 <= 2 ^ (ea + ed - k)) by (apply Z.pow_nonneg; lia).
  change (2 ^ (prec + 1) - 1) with (2 * 2 ^ prec - 1).
  assert (Z1 : Zpos ma * (Zpos md * 2 ^ (ea + ed - k)) <= (2 ^ prec - 1) * 2 ^ (emax - prec - k)).
  { apply Z.mul_le_mono_nonneg; try lia; try (apply Z.mul_nonneg_nonneg; lia). }
  assert (0 < b * 2 ^ (emax - prec - k)) by nia.
  replace (2 * (Zpos ma * Zpos md * b * 2 ^ (ea + ed - k)))
    with (2 * b * (Zpos ma * (Zpos md * 2 ^ (ea + ed - k)))) by ring.
  nia.
Qed.

(** ** The order of rounded results *)

(** The order of two rounded results follows the order of their values. *)
Lemma float_of_rn_value_le me1 me2 : canon me1 -> canon me2 ->
  value me1 <= value me2 ->
  SFleb (float_of_rn false me1) (float_of_rn false me2) = true.
Proof.
  intros C1 C2 H. destruct me1 as [m1 E1], me2 as [m2 E2].
  apply float_of_rn_le; assumption.
Qed.

Lemma SFcompare_opp me1 me2 : canon me1 -> canon me2 ->
  SFcompare (float_of_rn true me1) (float_of_rn true me2)
  = SFcompare (float_of_rn false me2) (float_of_rn false me1).
Proof.
  intros C1 C2.
  destruct (float_of_rn_shape true me1 C1) as [?|p1 ? ?|? ?];
    destruct (float_of_rn_shape true me2 C2) as [?|p2 ? ?|? ?];
    destruct (float_of_rn_shape false me1 C1) as [?|q1 Hq1 ?|? ?]; try lia;
    destruct (float_of_rn_shape false me2 C2) as [?|q2 Hq2 ?|? ?]; try lia;
    try reflexivity.
  assert (q1 = p1) by congruence. assert (q2 = p2) by congruence. subst.
  cbn [SFcompare]. rewrite (Z.compare_antisym (snd me1 + emin64) (snd me2 + emin64)).
  destruct (snd me1 + emin64 ?= snd me2 + emin64); cbn [CompOpp]; try reflexivity.
  rewrite !Pos.compare_cont_spec. cbn [Pos.switch_Eq].
  rewrite (Pos.compare_antisym p2 p1). destruct (p2 ?= p1)%positive; reflexivity.
Qed.

Lemma float_of_rn_neg_pos me1 me2 : canon me1 -> canon me2 ->
  SFleb (float_of_rn true me1) (float_of_rn false me2) = true.
Proof.
  intros C1 C2.
  destruct (float_of_rn_shape true me1 C1); destruct (float_of_rn_shape false me2 C2);
    reflexivity.
Qed.

Lemma float_of_rn_signed_le s1 me1 s2 me2 : canon me1 -> canon me2 ->
  (s2 = true -> s1 = true) ->
  signed_value s1 me1 <= signed_value s2 me2 ->
  SFleb (float_of_rn s1 me1) (float_of_rn s2 me2) = true.
Proof.
  intros C1 C2 Hs H. unfold signed_value in H.
  destruct s1, s2.
  - unfold SFleb. rewrite SFcompare_opp by assumption.
    apply float_of_rn_value_le; try assumption. lia.
  - apply float_of_rn_neg_pos; assumption.
  - specialize (Hs eq_refl). discriminate.
  - apply float_of_rn_value_le; assumption.
Qed.

(** ** Conversions to integers *)

Lemma shift_trunc_nonneg p e : 0 <= shift_trunc p e.
Proof.
  unfold shift_trunc.
  destruct e as [|q|q];
    [ lia
    | apply Z.mul_nonneg_nonneg; [lia | apply Z.pow_nonneg; lia]
    | apply Z.div_pos; [lia | apply Z.pow_pos_nonneg; lia] ].
Qed.

Lemma shift_trunc_val p e : emin64 <= e ->
  shift_trunc p e = (Zpos p * 2 ^ (e - emin64)) / 2 ^ (- emin64).
Proof.
  intros He. unfold shift_trunc.
  assert (Q : 0 < 2 ^ (- emin64)) by (apply Z.pow_pos_nonneg; unfold emin64; lia).
  destruct e as [|q|q].
  - rewrite Z.sub_0_l. rewrite Z.div_mul by lia. reflexivity.
  - replace (Zpos q - emin64) with (Zpos q + - emin64) by lia.
    rewrite Z.pow_add_r by (unfold emin64; lia).
    rewrite Z.mul_assoc, Z.div_mul by lia. reflexivity.
  - replace (- emin64) with (Zpos q + (Zneg q - emin64)) at 1 by lia.
    rewrite Z.pow_add_r by lia.
    rewrite Z.div_mul_cancel_r; try reflexivity.
    + apply Z.pow_nonzero; lia.
    + apply Z.pow_nonzero; lia.
Qed.

Lemma float_le_int_kept f : float_le_int f 0 = false -> kept_float f.
Proof.
  destruct f as [s|s| |s m e]; cbn [float_le_int kept_float].
  - discriminate.
  - destruct s; [discriminate|trivial].
  - trivial.
  - destruct s; [|trivial]. intros H. apply Z.leb_gt in H.
    cbn [finite_ceil] in H. pose proof (shift_trunc_nonneg m e). lia.
Qed.

Lemma float_of_rn_unsigned me : canon me -> unsigned (float_of_rn false me).
Proof.
  intros C. destruct (float_of_rn_shape false me C); cbn; trivial.
Qed.

Lemma int_floor_unsigned x : unsigned x -> floor_of_float x = int_of_float x.
Proof.
  destruct x as [s|s| |s m e]; cbn; try reflexivity. intros ->. reflexivity.
Qed.

Lemma int_of_float_rn me v : canon me ->
  int_of_float (float_of_rn false me) = Ok v -> v = value me / 2 ^ (- emin64).
Proof.
  intros C. unfold value.
  destruct (float_of_rn_shape false me C) as [H0 H1|p Hp He|Hp He]; cbn [int_of_float];
    intros H; try discriminate; injection H as <-.
  - rewrite H0. rewrite Z.mul_0_l. symmetry. apply Z.div_0_l.
    apply Z.pow_nonzero; unfold emin64; lia.
  - cbn [finite_trunc]. destruct C as (_ & B & _).
    rewrite shift_trunc_val by lia. rewrite Hp.
    replace (snd me + emin64 - emin64) with (snd me) by lia. reflexivity.
Qed.

(** [float(z)] of a positive integer, when it returns. *)
Lemma float_of_int_kept z f : 0 < z -> float_of_int z = Ok f ->
  kept_float f \/ exists b, f = S754_zero b.
Proof.
  intros Hz. unfold float_of_int. destruct z as [|p|p]; try lia.
  rewrite binary_normalize_int.
  assert (C : canon (rn_spec (Zpos p * 2 ^ (- emin64)) 1)).
  { apply rn_spec_canon; [|lia]. apply Z.mul_nonneg_nonneg; [lia|]. apply Z.pow_nonneg.
    lia. }
  destruct (float_of_rn_shape false _ C); intros Hf; try discriminate; injection Hf as <-.
  - right. eexists; reflexivity.
  - left. exact I.
Qed.

Lemma float_of_int_returns z : 0 < z -> z < double_bound ->
  exists f, float_of_int z = Ok f /\ bounded_float f.
Proof.
  intros Hz Hb. unfold float_of_int. destruct z as [|p|p]; try lia.
  rewrite binary_normalize_int.
  change (rn_spec (Zpos p * 2 ^ (- emin64)) 1) with (quotient_rn (Zpos p) 1).
  pose proof (quotient_rn_canon (Zpos p) 1 ltac:(lia)) as C.
  pose proof (quotient_rn_finite (Zpos p) 1 ltac:(lia)
                ltac:(cbn [Z.abs]; rewrite Z.mul_1_r; exact Hb)) as F.
  destruct (float_of_rn_shape false _ C) as [H0 H1|q Hq He|Hq He]; try lia.
  - eexists; split; [reflexivity|exact I].
  - eexists; split; [reflexivity|]. cbn [bounded_float].
    destruct C as ((_ & U) & _). rewrite Hq in U. split; assumption.
Qed.

Lemma is_float_bounded f : is_float f = true -> is_finite f = true -> kept_float f ->
  bounded_float f.
Proof.
  unfold is_float.
  destruct f as [b|b| |b m e];
    cbn [valid_binary is_finite kept_float bounded_float]; try discriminate; try trivial.
  destruct b; [contradiction|]. intros V _ _.
  unfold bounded in V. apply andb_true_iff in V. destruct V as [Cm Ce].
  unfold canonical_mantissa in Cm. apply Z.eqb_eq in Cm. apply Z.leb_le in Ce.
  rewrite fexp_eq in Cm. rewrite digits2_pos_log2 in Cm.
  split; [|exact Ce].
  apply Z.log2_lt_pow2; [lia|]. unfold prec, emin64 in *. lia.
Qed.

Lemma float_of_int_overflows z : double_bound <= z ->
  float_of_int z = Raise (OverflowError "int too large to convert to float").
Proof.
  intros H. assert (Hz : 0 < z).
  { assert (0 < double_bound) by reflexivity. lia. }
  unfold float_of_int. destruct z as [|p|p]; try lia.
  rewrite binary_normalize_int.
  change (rn_spec (Zpos p * 2 ^ (- emin64)) 1) with (quotient_rn (Zpos p) 1).
  destruct (quotient_rn_infinite (Zpos p) 1 ltac:(lia)
              ltac:(cbn [Z.abs]; rewrite Z.mul_1_r; exact H)) as [F E].
  destruct (float_of_rn_shape false _ (quotient_rn_canon (Zpos p) 1 ltac:(lia))); try lia.
  reflexivity.
Qed.

(** ** Exact results on integers *)

(** A value with at most [prec] significant bits is its own rounding. *)
Lemma rn_val_exact n E : 0 <= n < 2 ^ prec -> 0 <= E ->
  rn_val (n * 2 ^ E) 1 = n * 2 ^ E.
Proof.
  intros Hn HE. unfold rn_val.
  destruct (Z.eq_dec n 0) as [->|Hn0].
  - replace (0 * 2 ^ E) with 0 by lia. rewrite rne_zero; [reflexivity|].
    rewrite Z.mul_1_l. apply Z.pow_pos_nonneg; [lia|apply rn_exp_nonneg].
  - pose proof (rn_exp_nonneg (n * 2 ^ E) 1) as H0.
    assert (HR : rn_exp (n * 2 ^ E) 1 <= E).
    { unfold rn_exp. rewrite Z.div_1_r. rewrite Z.log2_mul_pow2 by lia.
      assert (Z.log2 n < prec) by (apply Z.log2_lt_pow2; lia). lia. }
    set (R := rn_exp (n * 2 ^ E) 1) in *.
    assert (Q : 0 < 2 ^ R) by pow_pos.
    assert (Y : n * 2 ^ E = n * 2 ^ (E - R) * 2 ^ R).
    { rewrite <- Z.mul_assoc, <- Z.pow_add_r by lia. do 2 f_equal. lia. }
    rewrite Z.mul_1_l. unfold rne, loc_of.
    rewrite Y. rewrite Z.mod_mul, Z.div_mul by lia. reflexivity.
Qed.

(** [float(z)] is exact on the integers of at most [prec] bits. *)
Lemma float_of_int_exact z : 0 < z < 2 ^ prec ->
  float_of_int z = Ok (float_of_rn false (quotient_rn z 1)) /\
  value (quotient_rn z 1) = z * 2 ^ (- emin64) /\
  snd (quotient_rn z 1) + emin64 <= emax - prec.
Proof.
  intros Hz.
  assert (Hb : z < double_bound).
  { apply Z.lt_trans with (2 ^ prec); [lia|]. reflexivity. }
  assert (F : snd (quotient_rn z 1) + emin64 <= emax - prec).
  { apply quotient_rn_finite; [lia|]. rewrite Z.mul_1_r. lia. }
  split; [|split; [|exact F]].
  - unfold float_of_int. destruct z as [|p|p]; try lia.
    rewrite binary_normalize_int.
    change (rn_spec (Zpos p * 2 ^ (- emin64)) 1) with (quotient_rn (Zpos p) 1).
    destruct (float_of_rn_shape false _ (quotient_rn_canon (Zpos p) 1 ltac:(lia)));
      try reflexivity; lia.
  - rewrite quotient_value. replace (Z.abs z) with z by lia.
    apply rn_val_exact; [lia|]. unfold emin64; lia.
Qed.

(** Bounds on a rounded product by values of at most [prec] bits. *)
Lemma product_value_le me md ed n t : canon me -> ed <= 0 ->
  0 <= t <= - emin64 -> 0 <= n < 2 ^ prec ->
  value me * Zpos md * 2 ^ t <= n * 2 ^ (- emin64) * 2 ^ (- ed) ->
  value (product_rn me md ed) <= n * 2 ^ (- emin64 - t).
Proof.
  intros C Hed Ht Hn H. pose proof C as (A & B & _).
  rewrite <- (rn_val_exact n (- emin64 - t)) by lia.
  unfold value, product_rn. rewrite rn_spec_val.
  destruct (scale_pos (fst me * Zpos md) 1 (snd me + emin64 + ed)
              ltac:(nia) ltac:(lia)) as [HP HB].
  apply rn_val_mono; try lia.
  rewrite Z.mul_1_r.
  destruct (scale_rel (fst me * Zpos md) 1 (snd me + emin64 + ed) (emin64 + ed)
              ltac:(lia) ltac:(lia)) as (b & Hb & SB & SF).
  rewrite SB, Z.mul_1_l.
  replace (snd me + emin64 + ed - (emin64 + ed)) with (snd me) in SF by lia.
  replace (emin64 - (emin64 + ed)) with (- ed) in SF by lia.
  assert (W : 0 < 2 ^ (- ed)) by pow_pos.
  assert (T : 0 < 2 ^ t) by pow_pos.
  apply Z.mul_le_mono_pos_r with (p := 2 ^ (- ed) * 2 ^ t); [nia|].
  replace (fst (scale (fst me * Zpos md) 1 (snd me + emin64 + ed)) * (2 ^ (- ed) * 2 ^ t))
    with (fst (scale (fst me * Zpos md) 1 (snd me + emin64 + ed)) * 2 ^ (- ed) * 2 ^ t)
    by ring.
  rewrite SF.
  replace (n * 2 ^ (- emin64 - t) * b * (2 ^ (- ed) * 2 ^ t))
    with (n * (2 ^ (- emin64 - t) * 2 ^ t) * 2 ^ (- ed) * b) by ring.
  rewrite <- Z.pow_add_r by lia.
  replace (- emin64 - t + t) with (- emin64) by lia.
  unfold value in H.
  replace (fst me * Zpos md * b * 2 ^ snd me * 2 ^ t)
    with (fst me * 2 ^ snd me * Zpos md * 2 ^ t * b) by ring.
  apply Z.mul_le_mono_nonneg_r; lia.
Qed.

Lemma product_value_ge me md ed n : canon me -> ed <= 0 ->
  0 <= n < 2 ^ prec ->
  n * 2 ^ (- emin64) * 2 ^ (- ed) <= value me * Zpos md ->
  n * 2 ^ (- emin64) <= value (product_rn me md ed).
Proof.
  intros C Hed Hn H. pose proof C as (A & B & _).
  rewrite <- (rn_val_exact n (- emin64)) by (unfold emin64; lia).
  unfold value, product_rn. rewrite rn_spec_val.
  destruct (scale_pos (fst me * Zpos md) 1 (snd me + emin64 + ed)
              ltac:(nia) ltac:(lia)) as [HP HB].
  assert (M : 0 < 2 ^ (- emin64)) by (apply Z.pow_pos_nonneg; unfold emin64; lia).
  apply rn_val_mono; try lia; try nia.
  rewrite Z.mul_1_r.
  destruct (scale_rel (fst me * Zpos md) 1 (snd me + emin64 + ed) (emin64 + ed)
              ltac:(lia) ltac:(lia)) as (b & Hb & SB & SF).
  rewrite SB, Z.mul_1_l.
  replace (snd me + emin64 + ed - (emin64 + ed)) with (snd me) in SF by lia.
  replace (emin64 - (emin64 + ed)) with (- ed) in SF by lia.
  assert (W : 0 < 2 ^ (- ed)) by pow_pos.
  apply Z.mul_le_mono_pos_r with (p := 2 ^ (- ed)); [assumption|].
  rewrite SF. unfold value in H.
  replace (n * 2 ^ (- emin64) * b * 2 ^ (- ed))
    with (n * 2 ^ (- emin64) * 2 ^ (- ed) * b) by ring.
  replace (fst me * Zpos md * b * 2 ^ snd me)
    with (fst me * 2 ^ snd me * Zpos md * b) by ring.
  apply Z.mul_le_mono_nonneg_r; lia.
Qed.

(** The integer part of [z * d] for a float density [d = md * 2^ed]: it is
    [K] as soon as [K <= z * d <= K + 1 - 2^-t] holds in exact arithmetic,
    both bounds having at most [prec] bits. *)
Lemma int_of_product z md ed K t : 0 < z < 2 ^ prec -> normal md ->
  ed <= 0 -> 0 <= t <= - emin64 -> 0 <= K -> (K + 1) * 2 ^ t - 1 < 2 ^ prec ->
  K * 2 ^ (- ed) <= z * Zpos md ->
  z * Zpos md * 2 ^ t <= ((K + 1) * 2 ^ t - 1) * 2 ^ (- ed) ->
  exists f, float_of_int z = Ok f /\
            int_of_float (float_mul f (S754_finite false md ed)) = Ok K.
Proof.
  intros Hz Hn Hed Ht HK HK1 L U.
  destruct (float_of_int_exact z Hz) as (Ef & V & F).
  pose proof (quotient_rn_canon z 1 ltac:(lia)) as C.
  exists (float_of_rn false (quotient_rn z 1)). split; [exact Ef|].
  rewrite float_mul_rn by assumption.
  pose proof (product_rn_canon (quotient_rn z 1) md ed C) as CP.
  assert (T : 0 < 2 ^ t) by pow_pos.
  assert (M : 0 < 2 ^ (- emin64)) by (apply Z.pow_pos_nonneg; unfold emin64; lia).
  assert (W : 0 < 2 ^ (- ed)) by pow_pos.
  assert (HKp : K < 2 ^ prec) by nia.
  pose proof (product_value_ge (quotient_rn z 1) md ed K C Hed ltac:(lia)) as GE.
  pose proof (product_value_le (quotient_rn z 1) md ed ((K + 1) * 2 ^ t - 1) t
                C Hed Ht ltac:(nia)) as LE.
  rewrite V in GE, LE.
  specialize (GE ltac:(nia)). specialize (LE ltac:(nia)).
  set (pm := product_rn (quotient_rn z 1) md ed) in *.
  assert (Hv : value pm / 2 ^ (- emin64) = K).
  { symmetry. apply (Z.div_unique_pos _ _ K (value pm - K * 2 ^ (- emin64))); [|lia].
    split; [lia|].
    assert (((K + 1) * 2 ^ t - 1) * 2 ^ (- emin64 - t) < (K + 1) * 2 ^ (- emin64)).
    { replace (- emin64) with (t + (- emin64 - t)) at 2 by lia.
      rewrite Z.pow_add_r by lia.
      assert (0 < 2 ^ (- emin64 - t)) by pow_pos. nia. }
    lia. }
  (* the product is finite *)
  destruct (float_of_rn_shape false pm CP) as [H0 H1|p Hp He|Hp He].
  - cbn [int_of_float]. f_equal. rewrite <- Hv. unfold value. rewrite H0.
    rewrite Z.mul_0_l. symmetry. apply Z.div_0_l. lia.
  - cbn [int_of_float finite_trunc]. f_equal.
    destruct CP as (_ & B & _).
    rewrite shift_trunc_val by lia. rewrite <- Hv. unfold value. rewrite Hp.
    replace (snd pm + emin64 - emin64) with (snd pm) by lia. reflexivity.
  - exfalso. destruct CP as ((A & U') & B & N).
    specialize (N ltac:(unfold emax, prec, emin64 in *; lia)).
    assert (2 ^ (emax - prec - emin64) <= 2 ^ snd pm)
      by (apply Z.pow_le_mono_r; unfold emax, prec, emin64 in *; lia).
    assert (2 ^ (prec - 1) * 2 ^ (emax - prec - emin64) <= value pm).
    { unfold value.
      apply Z.mul_le_mono_nonneg; try lia; try (apply Z.pow_nonneg; lia). }
    assert ((K + 1) * 2 ^ (- emin64) <= 2 ^ prec * 2 ^ (- emin64)) by nia.
    assert (2 ^ prec * 2 ^ (- emin64) < 2 ^ (prec - 1) * 2 ^ (emax - prec - emin64)).
    { rewrite <- !Z.pow_add_r by (unfold emax, prec, emin64; lia).
      apply Z.pow_lt_mono_r; unfold emax, prec, emin64; lia. }
    assert (((K + 1) * 2 ^ t - 1) * 2 ^ (- emin64 - t) < (K + 1) * 2 ^ (- emin64)).
    { replace (- emin64) with (t + (- emin64 - t)) at 2 by lia.
      rewrite Z.pow_add_r by lia.
      assert (0 < 2 ^ (- emin64 - t)) by pow_pos. nia. }
    lia.
Qed.

End PyFacts.

Import PyFacts.

(** * Facts about [get_alert_status] *)

Module AlertFacts.

Lemma alert_percentage_nonpos c m : m <= 0 -> alert_percentage c m = Ok (PyInt 0).
Proof.
  intros H. unfold alert_percentage. destruct (Z.gtb_spec m 0); [lia|reflexivity].
Qed.

Lemma alert_percentage_pos c m : 0 < m ->
  alert_percentage c m
  = (q <- int_truediv c m ;; Ok (PyFloat (float_mul q hundred))).
Proof.
  intros H. unfold alert_percentage. destruct (Z.gtb_spec m 0); [|lia].
  destruct (int_truediv c m); reflexivity.
Qed.

Lemma get_alert_status_inv c s m r : get_alert_status c s m = Ok r ->
  alert_percentage c m = Ok (percentage r) /\ alert_case c s m r.
Proof.
  unfold get_alert_status. destruct (alert_percentage c m) as [p|e]; [|discriminate].
  cbn [bind].
  destruct (Z.geb_spec c m) as [H1|H1]; [|destruct (Z.geb_spec c s) as [H2|H2]];
    intros H; injection H as <-; (split; [reflexivity|]).
  - apply case_critical; [assumption|reflexivity].
  - apply case_warning; [assumption|assumption|reflexivity].
  - apply case_safe; [assumption|assumption|reflexivity].
Qed.

Lemma get_alert_status_returns c s m p : alert_percentage c m = Ok p ->
  exists r, get_alert_status c s m = Ok r /\ percentage r = p.
Proof.
  intros H. unfold get_alert_status. rewrite H. cbn [bind].
  destruct (c >=? m); [|destruct (c >=? s)]; eexists; split; reflexivity.
Qed.

Lemma alert_percentage_in_range c m : quotient_in_range c m ->
  exists p, alert_percentage c m = Ok p.
Proof.
  intros [H|H].
  - exists (PyInt 0). apply alert_percentage_nonpos; assumption.
  - assert (Hm : 0 < m).
    { destruct (Z_lt_le_dec 0 m) as [|Hle]; [assumption|exfalso].
      assert (0 < double_bound) by reflexivity. nia. }
    rewrite alert_percentage_pos, int_truediv_returns by assumption.
    eexists; reflexivity.
Qed.

Lemma get_alert_status_total c s m : quotient_in_range c m ->
  exists r, get_alert_status c s m = Ok r.
Proof.
  intros H. destruct (alert_percentage_in_range c m H) as [p Hp].
  destruct (get_alert_status_returns c s m p Hp) as (r & Hr & _). exists r; exact Hr.
Qed.

Lemma percentage_float_mono c1 c2 m q1 q2 : 0 < m -> c1 <= c2 ->
  int_truediv c1 m = Ok q1 -> int_truediv c2 m = Ok q2 ->
  float_le (float_mul q1 hundred) (float_mul q2 hundred) = true.
Proof.
  intros Hm Hc H1 H2.
  destruct (int_truediv_Ok c1 m q1 Hm H1) as [-> F1].
  destruct (int_truediv_Ok c2 m q2 Hm H2) as [-> F2].
  pose proof (quotient_rn_canon c1 m Hm) as C1.
  pose proof (quotient_rn_canon c2 m Hm) as C2.
  unfold hundred. rewrite !float_mul_rn by (try assumption; exact hundred_normal).
  unfold float_le. apply float_of_rn_signed_le.
  - apply product_rn_canon; assumption.
  - apply product_rn_canon; assumption.
  - intros E. apply Z.ltb_lt in E. apply Z.ltb_lt. lia.
  - unfold signed_value.
    pose proof (value_nonneg _ (product_rn_canon _ 7036874417766400 (-46) C1)).
    pose proof (value_nonneg _ (product_rn_canon _ 7036874417766400 (-46) C2)).
    destruct (Z.ltb_spec c1 0), (Z.ltb_spec c2 0); try lia.
    + apply Z.opp_le_mono. rewrite !Z.opp_involutive.
      apply product_rn_mono; try assumption; try lia.
      apply quotient_value_mono; [assumption|lia].
    + apply product_rn_mono; try assumption; try lia.
      apply quotient_value_mono; [assumption|lia].
Qed.

(** [get_alert_status] returns exactly on the range of the quotient. *)
Lemma get_alert_status_returns_iff c s m :
  (exists r, get_alert_status c s m = Ok r) <-> quotient_in_range c m.
Proof.
  split; [|apply get_alert_status_total].
  intros [r Hr]. unfold quotient_in_range.
  destruct (Z_lt_le_dec 0 m) as [Hm|Hm]; [|left; assumption]. right.
  destruct (Z_lt_le_dec (Z.abs c) (double_bound * m)) as [|L]; [assumption|exfalso].
  destruct (get_alert_status_inv c s m r Hr) as [Hp _].
  rewrite alert_percentage_pos, int_truediv_overflows in Hp by assumption.
  discriminate.
Qed.


End AlertFacts.

Import AlertFacts.

(** * Facts about [estimate_venue_capacity] *)

Module EstimateFacts.

Lemma safe_density_normal : normal 7205759403792794.
Proof. unfold normal, prec. simpl. lia. Qed.

Lemma max_density_normal : normal 6034823500676465.
Proof. unfold normal, prec. simpl. lia. Qed.

Lemma density_order ma ea :
  value (area_product ma ea 7205759403792794 (-54))
  <= value (area_product ma ea 6034823500676465 (-53)).
Proof.
  unfold value, area_product. rewrite !rn_spec_val.
  destruct (scale_pos (Zpos ma * 7205759403792794) 1 (ea + -54) ltac:(lia) ltac:(lia)).
  destruct (scale_pos (Zpos ma * 6034823500676465) 1 (ea + -53) ltac:(lia) ltac:(lia)).
  apply rn_val_mono; try assumption.
  apply (scale_cross _ _ _ _ _ _ (Z.min (ea + -54) emin64)); try lia.
  assert (Q : 0 < 2 ^ (ea + -54 - Z.min (ea + -54) emin64)) by pow_pos.
  replace (ea + -53 - Z.min (ea + -54) emin64)
    with (Z.succ (ea + -54 - Z.min (ea + -54) emin64)) by lia.
  rewrite Z.pow_succ_r by lia. nia.
Qed.

(** Multiplying by a density keeps an unsigned area unsigned. *)
Lemma float_mul_unsigned f md ed : normal md -> (kept_float f \/ exists s, f = S754_zero s) ->
  unsigned (float_mul f (S754_finite false md ed)).
Proof.
  intros Hn [K|[s ->]].
  - destruct f as [s|s| |s ma ea]; cbn in K; try contradiction; try exact I.
    destruct s; [contradiction|]. rewrite float_mul_area by assumption.
    apply float_of_rn_unsigned, area_product_canon.
  - exact I.
Qed.

Lemma capacity_order f s t : (kept_float f \/ exists b, f = S754_zero b) ->
  int_of_float (float_mul f SAFE_DENSITY) = Ok s ->
  int_of_float (float_mul f MAX_DENSITY) = Ok t ->
  0 <= s <= t.
Proof.
  intros [K|[b ->]].
  - destruct f as [b|b| |b ma ea]; cbn in K; try contradiction.
    + destruct b; [contradiction|]. cbn. discriminate.
    + cbn. discriminate.
    + destruct b; [contradiction|].
      unfold SAFE_DENSITY, MAX_DENSITY.
      rewrite (float_mul_area _ _ _ _ safe_density_normal).
      rewrite (float_mul_area _ _ _ _ max_density_normal).
      intros Hs Ht.
      apply int_of_float_rn in Hs; [|apply area_product_canon].
      apply int_of_float_rn in Ht; [|apply area_product_canon].
      subst s t.
      assert (Q : 0 < 2 ^ (- emin64)) by (apply Z.pow_pos_nonneg; unfold emin64; lia).
      split.
      * apply Z.div_pos; [|assumption]. apply value_nonneg, area_product_canon.
      * apply Z.div_le_mono; [assumption|]. apply density_order.
  - cbn. intros Hs Ht. injection Hs as <-. injection Ht as <-. lia.
Qed.

Lemma density_returns f md ed : bounded_float f -> normal md ->
  ed <= 0 -> Zpos md <= 2 ^ (- ed) ->
  exists n, int_of_float (float_mul f (S754_finite false md ed)) = Ok n.
Proof.
  intros Bf Hn Hed Hmd. destruct f as [b|b| |b ma ea]; cbn in Bf; try contradiction.
  - eexists; reflexivity.
  - destruct b; [contradiction|]. destruct Bf as [Hma Hea].
    rewrite float_mul_area by assumption.
    pose proof (area_product_finite ma ea md ed Hma Hea Hed Hmd) as F.
    destruct (float_of_rn_shape false _ (area_product_canon ma ea md ed)); try lia;
      eexists; reflexivity.
Qed.

Lemma py_mul_density a d :
  py_mul a (PyFloat d) = (f <- area_float a ;; Ok (PyFloat (float_mul f d))).
Proof. destruct a; reflexivity. Qed.

Lemma estimate_default : estimate_venue_capacity (PyInt 500) = Ok default_estimate.
Proof. vm_compute. reflexivity. Qed.

(** An absent or non-positive area is replaced by the default. *)
Lemma estimate_replaced a : (a = PyNone \/ py_le a (PyInt 0) = Ok true) ->
  estimate_venue_capacity a = Ok default_estimate.
Proof.
  intros [->|H]; [vm_compute; reflexivity|].
  unfold estimate_venue_capacity. destruct a as [|z|f]; [discriminate| |];
    rewrite H; cbn [bind]; vm_compute; reflexivity.
Qed.

Lemma kept_or_replaced a :
  kept_area a \/ (a = PyNone \/ py_le a (PyInt 0) = Ok true).
Proof.
  destruct a as [|z|f]; cbn [kept_area py_le].
  - right; left; reflexivity.
  - destruct (Z.leb_spec z 0); [right; right; reflexivity|left; lia].
  - destruct (float_le_int f 0); [right; right; reflexivity|left; reflexivity].
Qed.

(** A kept area goes through the two products as it is. *)
Lemma estimate_kept a : kept_area a ->
  estimate_venue_capacity a
  = (f <- area_float a ;;
     safe <- int_of_float (float_mul f SAFE_DENSITY) ;;
     max <- int_of_float (float_mul f MAX_DENSITY) ;;
     Ok (mkCapacityEstimate a safe max)).
Proof.
  intros K. unfold estimate_venue_capacity.
  assert (E : match a with PyNone => Ok true | _ => py_le a (PyInt 0) end = Ok false).
  { destruct a as [|z|f]; cbn in K |- *; [contradiction| |congruence].
    f_equal. apply Z.leb_gt. assumption. }
  rewrite E. cbn [bind]. rewrite !py_mul_density.
  destruct (area_float a) as [f|e]; reflexivity.
Qed.

Lemma spec_estimate_kept a : kept_area a ->
  spec_estimate_capacity a
  = (f <- area_float a ;;
     safe <- floor_of_float (float_mul f SAFE_DENSITY) ;;
     max <- floor_of_float (float_mul f MAX_DENSITY) ;;
     Ok (mkCapacityEstimate a safe max)).
Proof.
  intros K. unfold spec_estimate_capacity, spec_area.
  assert (E : py_le a (PyInt 0) = Ok false).
  { destruct a as [|z|f]; cbn in K |- *; [contradiction| |congruence].
    f_equal. apply Z.leb_gt. assumption. }
  change (float_literal 4 10) with SAFE_DENSITY.
  change (float_literal 67 100) with MAX_DENSITY.
  destruct a as [|z|f]; [contradiction| |]; rewrite E; cbn [bind];
    rewrite !py_mul_density; destruct (area_float _) as [g|e]; reflexivity.
Qed.

Lemma area_float_kept a f : kept_area a -> area_float a = Ok f ->
  kept_float f \/ exists b, f = S754_zero b.
Proof.
  destruct a as [|z|g]; cbn [kept_area area_float]; intros K H.
  - contradiction.
  - eapply float_of_int_kept; eassumption.
  - injection H as <-. left. apply float_le_int_kept. assumption.
Qed.

Lemma area_float_returns a : area_in_range a -> kept_area a ->
  exists f, area_float a = Ok f /\ bounded_float f.
Proof.
  destruct a as [|z|f]; cbn [area_in_range kept_area area_float]; intros R K.
  - contradiction.
  - apply float_of_int_returns; assumption.
  - exists f. split; [reflexivity|]. destruct R as [V Fi].
    apply is_float_bounded; try assumption. apply float_le_int_kept; assumption.
Qed.

Lemma estimate_refines a : estimate_venue_capacity a = spec_estimate_capacity a.
Proof.
  destruct (kept_or_replaced a) as [K|R].
  - rewrite estimate_kept, spec_estimate_kept by assumption.
    destruct (area_float a) as [f|e] eqn:Ef; [|reflexivity]. cbn [bind].
    pose proof (area_float_kept a f K Ef) as Hf.
    rewrite !int_floor_unsigned; [reflexivity| |].
    + apply float_mul_unsigned; [exact max_density_normal|assumption].
    + apply float_mul_unsigned; [exact safe_density_normal|assumption].
  - rewrite estimate_replaced by assumption.
    destruct R as [->|H]; [vm_compute; reflexivity|].
    unfold spec_estimate_capacity, spec_area.
    destruct a as [|z|f]; [discriminate| |]; rewrite H; vm_compute; reflexivity.
Qed.

Lemma estimate_ordered a r : estimate_venue_capacity a = Ok r ->
  0 <= safe_capacity r <= max_capacity r.
Proof.
  destruct (kept_or_replaced a) as [K|R].
  - rewrite estimate_kept by assumption.
    destruct (area_float a) as [f|e] eqn:Ef; [|discriminate]. cbn [bind].
    destruct (int_of_float (float_mul f SAFE_DENSITY)) as [s|] eqn:Es; [|discriminate].
    destruct (int_of_float (float_mul f MAX_DENSITY)) as [t|] eqn:Et; [|discriminate].
    cbn [bind]. intros H. injection H as <-. cbn [safe_capacity max_capacity].
    eapply capacity_order; try eassumption. eapply area_float_kept; eassumption.
  - rewrite estimate_replaced by assumption. intros H. injection H as <-.
    cbn. lia.
Qed.

Lemma estimate_returns a : area_in_range a ->
  exists r, estimate_venue_capacity a = Ok r.
Proof.
  intros R. destruct (kept_or_replaced a) as [K|D].
  - rewrite estimate_kept by assumption.
    destruct (area_float_returns a R K) as (f & -> & Bf). cbn [bind].
    destruct (density_returns f 7205759403792794 (-54) Bf safe_density_normal
                ltac:(lia) ltac:(vm_compute; discriminate)) as [s Hs].
    destruct (density_returns f 6034823500676465 (-53) Bf max_density_normal
                ltac:(lia) ltac:(vm_compute; discriminate)) as [t Ht].
    unfold SAFE_DENSITY, MAX_DENSITY. rewrite Hs, Ht. eexists; reflexivity.
  - rewrite estimate_replaced by assumption. eexists; reflexivity.
Qed.

(** On integers, [estimate_venue_capacity] returns exactly below
    [double_bound]. *)
Lemma estimate_int_returns_iff z :
  (exists r, estimate_venue_capacity (PyInt z) = Ok r) <-> z < double_bound.
Proof.
  split; [|apply (estimate_returns (PyInt z))].
  intros [r Hr].
  destruct (Z_lt_le_dec z double_bound) as [|L]; [assumption|exfalso].
  assert (Hz : 0 < z).
  { assert (0 < double_bound) by reflexivity. lia. }
  rewrite (estimate_kept (PyInt z) Hz) in Hr. cbn [area_float] in Hr.
  rewrite float_of_int_overflows in Hr by assumption. discriminate.
Qed.

(** From [double_bound] on, the conversion of the area to a float raises. *)
Lemma estimate_int_overflows z : double_bound <= z ->
  estimate_venue_capacity (PyInt z)
  = Raise (OverflowError "int too large to convert to float").
Proof.
  intros L. assert (Hz : 0 < z).
  { assert (0 < double_bound) by reflexivity. lia. }
  rewrite (estimate_kept (PyInt z) Hz). cbn [area_float].
  rewrite float_of_int_overflows by assumption. reflexivity.
Qed.

(** On an integer area of up to ten trillion square metres the two
    capacities are the exact floors of [area * 4/10] and [area * 67/100]. *)
Lemma estimate_int_exact z : 0 < z <= 10 ^ 13 ->
  estimate_venue_capacity (PyInt z)
  = Ok (mkCapacityEstimate (PyInt z) (4 * z / 10) (67 * z / 100)).
Proof.
  intros Hz. rewrite (estimate_kept (PyInt z)) by (cbn; lia). cbn [area_float].
  assert (Hp : 0 < z < 2 ^ prec) by (split; [lia|]; apply Z.le_lt_trans with (10 ^ 13); [lia|reflexivity]).
  pose proof (Z.div_mod (4 * z) 10 ltac:(lia)) as D1.
  pose proof (Z.mod_pos_bound (4 * z) 10 ltac:(lia)) as R1.
  pose proof (Z.div_mod (67 * z) 100 ltac:(lia)) as D2.
  pose proof (Z.mod_pos_bound (67 * z) 100 ltac:(lia)) as R2.
  assert (Z13 : 10 ^ 13 = 10000000000000) by reflexivity.
  destruct (int_of_product z 7205759403792794 (-54) (4 * z / 10) 3 Hp
              safe_density_normal ltac:(lia) ltac:(unfold emin64; lia))
    as (f & Ef & Es).
  - lia.
  - change (2 ^ 3) with 8. change (2 ^ prec) with 9007199254740992. lia.
  - change (2 ^ (- -54)) with 18014398509481984. lia.
  - change (2 ^ (- -54)) with 18014398509481984. change (2 ^ 3) with 8. lia.
  - destruct (int_of_product z 6034823500676465 (-53) (67 * z / 100) 7 Hp
                max_density_normal ltac:(lia) ltac:(unfold emin64; lia))
      as (f' & Ef' & Et).
    + lia.
    + change (2 ^ 7) with 128. change (2 ^ prec) with 9007199254740992. lia.
    + change (2 ^ (- -53)) with 9007199254740992. lia.
    + change (2 ^ (- -53)) with 9007199254740992. change (2 ^ 7) with 128. lia.
    + rewrite Ef in Ef'. injection Ef' as <-.
      rewrite Ef. cbn [bind]. unfold SAFE_DENSITY, MAX_DENSITY.
      rewrite Es, Et. reflexivity.
Qed.

End EstimateFacts.

Import EstimateFacts.

(** * Facts about the namespace and the object store *)

Module StoreFacts.











End StoreFacts.

Import StoreFacts.

(** * The worked examples of the specification *)

Module Examples.

Example estimate_500 :
  estimate_venue_capacity (PyInt 500)
  = Ok (mkCapacityEstimate (PyInt 500) 200 335).
Proof. vm_compute. reflexivity. Qed.

Example estimate_0 :
  estimate_venue_capacity (PyInt 0)
  = Ok (mkCapacityEstimate (PyInt 500) 200 335).
Proof. vm_compute. reflexivity. Qed.

Example estimate_minus_10 :
  estimate_venue_capacity (PyInt (-10))
  = Ok (mkCapacityEstimate (PyInt 500) 200 335).
Proof. vm_compute. reflexivity. Qed.

Example alert_100 : alert_is 100 200 335 "SAFE" 2985 2986 = true.
Proof. vm_compute. reflexivity. Qed.

Example alert_250 : alert_is 250 200 335 "WARNING" 7462 7463 = true.
Proof. vm_compute. reflexivity. Qed.

Example alert_335 : alert_is 335 200 335 "CRITICAL" 10000 10000 = true.
Proof. vm_compute. reflexivity. Qed.

Example alert_400 : alert_is 400 200 335 "CRITICAL" 11940 11941 = true.
Proof. vm_compute. reflexivity. Qed.

Example alert_0_0_0 :
  exists r, get_alert_status 0 0 0 = Ok r /\
            status r = "CRITICAL" /\ percentage r = PyInt 0.
Proof. eexists. split; [reflexivity|]. split; reflexivity. Qed.

End Examples.

(** * The claims *)

(** C1 (amended).  Whenever the quotient [current_count / max_capacity] is
    within the range of a float (every count below
    [(2^1024 - 2^970) * max_capacity] in absolute value, every count when
    [max_capacity <= 0]), [get_alert_status] returns a dictionary classified
    by the ladder: CRITICAL with "Overcrowding Detected" if
    [current_count >= max_capacity]; otherwise WARNING with "Approaching
    Capacity" if [current_count >= safe_capacity]; otherwise SAFE with
    "Normal Operations". *)
Theorem get_alert_status_ladder c s m : quotient_in_range c m ->
  exists r, get_alert_status c s m = Ok r /\
    (m <= c -> status r = "CRITICAL" /\ message r = "Overcrowding Detected") /\
    (c < m -> s <= c ->
     status r = "WARNING" /\ message r = "Approaching Capacity") /\
    (c < m -> c < s -> status r = "SAFE" /\ message r = "Normal Operations").
Proof.
  intros H. destruct (get_alert_status_total c s m H) as [r Hr].
  exists r. split; [assumption|].
  destruct (get_alert_status_inv c s m r Hr) as [_ [H1 E|H1 H2 E|H1 H2 E]];
    rewrite E; cbn [status message]; repeat split; intros; try reflexivity; lia.
Qed.

Lemma get_alert_status_ladder_witness :
  quotient_in_range 250 335 /\
  exists r, get_alert_status 250 200 335 = Ok r /\
    (335 <= 250 -> status r = "CRITICAL" /\ message r = "Overcrowding Detected") /\
    (250 < 335 -> 200 <= 250 ->
     status r = "WARNING" /\ message r = "Approaching Capacity") /\
    (250 < 335 -> 250 < 200 -> status r = "SAFE" /\ message r = "Normal Operations").
Proof.
  assert (H : quotient_in_range 250 335) by (right; vm_compute; reflexivity).
  split; [exact H|]. exact (get_alert_status_ladder 250 200 335 H).
Defined.

(** C1 as stated fails: the count [2^1024] with both capacities 1 is not
    classified CRITICAL, the division of the percentage raises first. *)
Lemma get_alert_status_ladder_overflow :
  get_alert_status (2 ^ 1024) 1 1
  = Raise (OverflowError "integer division result too large for a float").
Proof. vm_compute. reflexivity. Qed.

(** C2 (amended).  In every branch the returned percentage is
    [(current_count / max_capacity) * 100] in float arithmetic, the quotient
    rounded to a float first and its product with 100 rounded again, when
    [max_capacity > 0]; when [max_capacity <= 0] the function returns, with
    the integer 0 as percentage. *)
Theorem get_alert_status_percentage c s m :
  (m <= 0 -> exists r, get_alert_status c s m = Ok r /\ percentage r = PyInt 0) /\
  (forall r, get_alert_status c s m = Ok r -> 0 < m ->
     exists q, int_truediv c m = Ok q /\
               percentage r = PyFloat (float_mul q hundred)).
Proof.
  split.
  - intros Hm.
    destruct (get_alert_status_returns c s m (PyInt 0)
                (alert_percentage_nonpos c m Hm)) as (r & Hr & Hp).
    exists r. split; assumption.
  - intros r Hr Hm. destruct (get_alert_status_inv c s m r Hr) as [Hp _].
    rewrite alert_percentage_pos in Hp by assumption.
    destruct (int_truediv c m) as [q|e]; [|discriminate].
    exists q. split; [reflexivity|]. cbn [bind] in Hp. congruence.
Qed.

Lemma get_alert_status_percentage_witness :
  (0 <= 0 /\ exists r, get_alert_status 0 0 0 = Ok r /\ percentage r = PyInt 0) /\
  (exists r, get_alert_status 335 200 335 = Ok r /\ 0 < 335 /\
     exists q, int_truediv 335 335 = Ok q /\
               percentage r = PyFloat (float_mul q hundred)).
Proof.
  split.
  - split; [lia|].
    exact (proj1 (get_alert_status_percentage 0 0 0) ltac:(lia)).
  - destruct (get_alert_status 335 200 335) as [r|] eqn:E; [|discriminate E].
    exists r. split; [reflexivity|]. split; [lia|].
    exact (proj2 (get_alert_status_percentage 335 200 335) r E ltac:(lia)).
Defined.

(** C2 as stated fails: for 7 people at a maximum of 25 the code returns
    28.000000000000004, while [100 * 7 / 25] is 28.0. *)
Lemma percentage_rounds_twice :
  (exists r, get_alert_status 7 5 25 = Ok r /\
             percentage r = PyFloat (S754_finite false 7881299347898369 (-48))) /\
  spec_percentage 7 25 = Ok (PyFloat (S754_finite false 7881299347898368 (-48))) /\
  SFeqb (S754_finite false 7881299347898369 (-48))
        (S754_finite false 7881299347898368 (-48)) = false.
Proof.
  split; [|split].
  - eexists. split; vm_compute; reflexivity.
  - vm_compute. reflexivity.
  - reflexivity.
Qed.

(** C3 (amended).  [estimate_venue_capacity] computes what the specification
    writes, [floor(area * 0.4)] and [floor(area * 0.67)] in float arithmetic
    with the default area 500 in place of an absent or non-positive one, and
    it returns on every area that is absent, a finite float or an integer
    below [2^1024 - 2^970]; on an integer from there on it raises
    OverflowError.  On an integer area of at most [10^13] the two
    capacities are the floors of [area * 4/10] and [area * 67/100] in
    exact arithmetic; [estimate_venue_capacity(500)] returns 200 and 335. *)
Theorem estimate_venue_capacity_floor :
  (forall a, estimate_venue_capacity a = spec_estimate_capacity a) /\
  (forall a, area_in_range a -> exists r, estimate_venue_capacity a = Ok r) /\
  (forall z, (exists r, estimate_venue_capacity (PyInt z) = Ok r) <->
             z < double_bound) /\
  (forall z, 0 < z <= 10 ^ 13 ->
     estimate_venue_capacity (PyInt z)
     = Ok (mkCapacityEstimate (PyInt z) (4 * z / 10) (67 * z / 100))) /\
  (forall a, a = PyNone \/ py_le a (PyInt 0) = Ok true ->
     estimate_venue_capacity a = Ok (mkCapacityEstimate (PyInt 500) 200 335)) /\
  estimate_venue_capacity (PyInt 500)
  = Ok (mkCapacityEstimate (PyInt 500) 200 335) /\
  (forall z, double_bound <= z ->
     estimate_venue_capacity (PyInt z)
     = Raise (OverflowError "int too large to convert to float")).
Proof.
  split; [exact estimate_refines|]. split; [exact estimate_returns|].
  split; [exact estimate_int_returns_iff|]. split; [exact estimate_int_exact|].
  split; [exact estimate_replaced|].
  split; [exact estimate_default|exact estimate_int_overflows].
Qed.

Lemma estimate_venue_capacity_floor_witness :
  area_in_range (PyInt 750) /\
  (exists r, estimate_venue_capacity (PyInt 750) = Ok r) /\
  (py_le (PyInt (-10)) (PyInt 0) = Ok true /\
   estimate_venue_capacity (PyInt (-10))
   = Ok (mkCapacityEstimate (PyInt 500) 200 335)).
Proof.
  assert (H : area_in_range (PyInt 750)) by (vm_compute; reflexivity).
  split; [exact H|]. split.
  - exact (proj1 (proj2 estimate_venue_capacity_floor) (PyInt 750) H).
  - split; [reflexivity|].
    exact (proj1 (proj2 (proj2 (proj2 (proj2 estimate_venue_capacity_floor))))
             (PyInt (-10)) (or_intror eq_refl)).
Defined.

(** C3 as stated fails: the integer area [2^1024] is a real number, and the
    call on it raises instead of returning two capacities. *)
Lemma estimate_venue_capacity_overflow :
  estimate_venue_capacity (PyInt (2 ^ 1024))
  = Raise (OverflowError "int too large to convert to float").
Proof. vm_compute. reflexivity. Qed.

(** C4.  Every estimate [estimate_venue_capacity] returns, for any area,
    has [0 <= safe_capacity <= max_capacity], both integers; and an estimate
    is returned on every area in range (absent, an integer below
    [2^1024 - 2^970], a finite float). *)
Theorem capacities_ordered a :
  (area_in_range a -> exists r, estimate_venue_capacity a = Ok r) /\
  (forall r, estimate_venue_capacity a = Ok r ->
     0 <= safe_capacity r <= max_capacity r).
Proof.
  split; [apply estimate_returns|]. intros r. apply estimate_ordered.
Qed.

Lemma capacities_ordered_witness :
  area_in_range (PyFloat (float_literal 12345 10)) /\
  exists r, estimate_venue_capacity (PyFloat (float_literal 12345 10)) = Ok r /\
            0 <= safe_capacity r <= max_capacity r.
Proof.
  assert (H : area_in_range (PyFloat (float_literal 12345 10)))
    by (split; reflexivity).
  split; [exact H|].
  destruct (proj1 (capacities_ordered (PyFloat (float_literal 12345 10))) H)
    as [r Hr].
  exists r. split; [exact Hr|].
  exact (proj2 (capacities_ordered (PyFloat (float_literal 12345 10))) r Hr).
Defined.

(** C5.  With [safe_capacity = max_capacity = 0] every count [>= 0] is
    classified CRITICAL, with percentage 0; in particular
    [get_alert_status(0, 0, 0)]. *)
Theorem zero_capacity_critical c : 0 <= c ->
  exists r, get_alert_status c 0 0 = Ok r /\
            status r = "CRITICAL" /\ percentage r = PyInt 0.
Proof.
  intros H. unfold get_alert_status, alert_percentage.
  change (0 >? 0) with false. cbn [bind].
  destruct (Z.geb_spec c 0); [|lia].
  eexists. split; [reflexivity|]. split; reflexivity.
Qed.

Lemma zero_capacity_critical_witness :
  0 <= 0 /\
  exists r, get_alert_status 0 0 0 = Ok r /\
            status r = "CRITICAL" /\ percentage r = PyInt 0.
Proof. split; [lia|]. exact (zero_capacity_critical 0 ltac:(lia)). Defined.

(** C6.  With the two capacities fixed, [get_alert_status] is monotone in
    the count: of two calls that return, the one on the smaller count has
    the smaller or equal percentage, and the smaller or equal status in the
    order SAFE < WARNING < CRITICAL. *)
Theorem get_alert_status_monotone c1 c2 s m r1 r2 : c1 <= c2 ->
  get_alert_status c1 s m = Ok r1 -> get_alert_status c2 s m = Ok r2 ->
  py_le (percentage r1) (percentage r2) = Ok true /\
  status_le (status r1) (status r2).
Proof.
  intros Hc H1 H2.
  destruct (get_alert_status_inv c1 s m r1 H1) as [P1 K1].
  destruct (get_alert_status_inv c2 s m r2 H2) as [P2 K2].
  split.
  - destruct (Z_lt_le_dec 0 m) as [Hm|Hm].
    + rewrite alert_percentage_pos in P1, P2 by assumption.
      destruct (int_truediv c1 m) as [q1|] eqn:E1; [|discriminate].
      destruct (int_truediv c2 m) as [q2|] eqn:E2; [|discriminate].
      cbn [bind] in P1, P2. injection P1 as <-. injection P2 as <-.
      cbn [py_le]. f_equal. eapply percentage_float_mono; eassumption.
    + rewrite alert_percentage_nonpos in P1, P2 by assumption.
      injection P1 as <-. injection P2 as <-. reflexivity.
  - destruct K1 as [A1 E1|A1 B1 E1|A1 B1 E1];
      destruct K2 as [A2 E2|A2 B2 E2|A2 B2 E2];
      try lia; rewrite E1, E2; cbn [status]; vm_compute; lia.
Qed.

Lemma get_alert_status_monotone_witness :
  100 <= 250 /\
  exists r1 r2,
    get_alert_status 100 200 335 = Ok r1 /\
    get_alert_status 250 200 335 = Ok r2 /\
    py_le (percentage r1) (percentage r2) = Ok true /\
    status_le (status r1) (status r2).
Proof.
  split; [lia|].
  destruct (get_alert_status 100 200 335) as [r1|] eqn:E1; [|discriminate E1].
  destruct (get_alert_status 250 200 335) as [r2|] eqn:E2; [|discriminate E2].
  exists r1, r2. split; [reflexivity|]. split; [reflexivity|].
  exact (get_alert_status_monotone 100 250 200 335 r1 r2 ltac:(lia) E1 E2).
Defined.

(** C7.  The recommendations [get_alert_status] returns are a constant list
    fixed by the status alone: five given items for CRITICAL, five for
    WARNING, two for SAFE, and no other status is returned. *)
Theorem recommendations_by_status c s m r : get_alert_status c s m = Ok r ->
  recommendations r = recommendations_of (status r) /\
  (status r = "CRITICAL" ->
   recommendations r =
     [ "Stop all entries immediately"; "Activate emergency protocols";
       "Deploy security personnel"; "Open emergency exits";
       "Alert emergency services" ]) /\
  (status r = "WARNING" ->
   recommendations r =
     [ "Reduce entry rate"; "Increase monitoring"; "Prepare dispersal plan";
       "Alert security team"; "Monitor crowd flow" ]) /\
  (status r = "SAFE" ->
   recommendations r = [ "Continue monitoring"; "Maintain regular checks" ]) /\
  (status r = "CRITICAL" \/ status r = "WARNING" \/ status r = "SAFE").
Proof.
  intros H. destruct (get_alert_status_inv c s m r H) as [_ [A E|A B E|A B E]];
    rewrite E; cbn [status recommendations];
    (split; [reflexivity|]); repeat split;
    try (intros D; try discriminate D; reflexivity); auto.
Qed.

Lemma recommendations_by_status_witness :
  exists r, get_alert_status 400 200 335 = Ok r /\
            recommendations r = recommendations_of (status r) /\
            status r = "CRITICAL" /\
            List.length (recommendations r) = 5%nat.
Proof.
  destruct (get_alert_status 400 200 335) as [r|] eqn:E; [|discriminate E].
  exists r. split; [reflexivity|].
  pose proof (recommendations_by_status 400 200 335 r E) as (H & _).
  split; [exact H|].
  revert E. vm_compute. intros E. injection E as <-. split; reflexivity.
Defined.




(** * Facts about [count_people_in_frame]

    The collaborators are arbitrary: every statement below holds whatever
    the frame, OpenCV and the model do. *)
Section DetectionFacts.

Variable frame : Type.
Variable frame_shape : frame -> exc (Z * Z).
Variable cv2_resize : frame -> Z * Z -> exc frame.






End DetectionFacts.




(** C10 (amended).  With [safe_capacity > max_capacity], [get_alert_status]
    returns exactly when the quotient [current_count / max_capacity] is
    within the range of a float ([max_capacity <= 0], or a count below
    [(2^1024 - 2^970) * max_capacity] in absolute value), and then it
    returns a dictionary without validating the order: its status is
    CRITICAL from [max_capacity] on and SAFE below, never WARNING, with the
    message and recommendations of that status. *)
Theorem get_alert_status_unordered c s m : m < s ->
  ((exists r, get_alert_status c s m = Ok r) <-> quotient_in_range c m) /\
  (quotient_in_range c m ->
   exists r, get_alert_status c s m = Ok r /\
     (m <= c -> status r = "CRITICAL") /\
     (c < m -> status r = "SAFE") /\
     status r <> "WARNING" /\
     message r <> "" /\
     recommendations r = recommendations_of (status r)).
Proof.
  intros Hs. split; [apply get_alert_status_returns_iff|].
  intros H. destruct (get_alert_status_total c s m H) as [r Hr].
  exists r. split; [assumption|].
  destruct (get_alert_status_inv c s m r Hr) as [_ [A E|A B E|A B E]]; try lia;
    rewrite E; cbn [status message recommendations];
    repeat split; intros; try reflexivity; try lia; try discriminate.
Qed.

Lemma get_alert_status_unordered_witness :
  200 < 335 /\ quotient_in_range 250 200 /\
  exists r, get_alert_status 250 335 200 = Ok r /\
    (200 <= 250 -> status r = "CRITICAL") /\
    (250 < 200 -> status r = "SAFE") /\
    status r <> "WARNING" /\
    message r <> "" /\
    recommendations r = recommendations_of (status r).
Proof.
  assert (H : quotient_in_range 250 200) by (right; vm_compute; reflexivity).
  split; [lia|]. split; [exact H|].
  exact (proj2 (get_alert_status_unordered 250 335 200 ltac:(lia)) H).
Defined.

(** C10 as stated fails: with [safe_capacity = 2 > max_capacity = 1] the
    count [2^1024] is not classified, the call raises. *)
Lemma get_alert_status_unordered_overflow :
  get_alert_status (2 ^ 1024) 2 1
  = Raise (OverflowError "integer division result too large for a float").
Proof. vm_compute. reflexivity. Qed.


(** * Facts about the percentage and the status *)

Module PercentageFacts.

Lemma int_truediv_self m : 0 < m -> int_truediv m m = Ok one.
Proof.
  intros Hm.
  assert (Hb : Z.abs m < double_bound * m).
  { rewrite Z.abs_eq by lia. unfold double_bound.
    assert (2 <= 2 ^ 1024 - 2 ^ 970) by (vm_compute; discriminate). nia. }
  rewrite (int_truediv_returns m m Hm Hb).
  replace (m <? 0) with false by (symmetry; apply Z.ltb_ge; lia).
  f_equal. unfold quotient_rn. rewrite Z.abs_eq by lia.
  assert (Q : (m * 2 ^ (- emin64)) / m = 2 ^ (- emin64)).
  { rewrite Z.mul_comm. apply Z.div_mul. lia. }
  unfold rn_spec, rn_exp. rewrite Q.
  replace (Z.max (Z.log2 (2 ^ (- emin64)) + 1 - prec) 0) with 1022
    by (vm_compute; reflexivity).
  assert (D : 0 < m * 2 ^ 1022) by (assert (0 < 2 ^ 1022) by pow_pos; nia).
  assert (Y : m * 2 ^ (- emin64) = 2 ^ 52 * (m * 2 ^ 1022)).
  { change (- emin64) with (52 + 1022). rewrite Z.pow_add_r by lia. ring. }
  assert (R : rne (m * 2 ^ (- emin64)) (m * 2 ^ 1022) = 2 ^ 52).
  { unfold rne, loc_of. rewrite Y. rewrite Z.mod_mul, Z.div_mul by lia.
    reflexivity. }
  rewrite R. reflexivity.
Qed.

Lemma int_truediv_zero m : 0 < m -> int_truediv 0 m = Ok (S754_zero false).
Proof.
  intros Hm. unfold int_truediv. destruct m as [|p|p]; try lia. reflexivity.
Qed.

Lemma hundred_percent : float_mul one hundred = hundred.
Proof. vm_compute. reflexivity. Qed.

Lemma zero_percent : float_mul (S754_zero false) hundred = S754_zero false.
Proof. reflexivity. Qed.

(** The percentage of a call with a positive maximum. *)
Lemma percentage_pos_inv c s m r : 0 < m -> get_alert_status c s m = Ok r ->
  exists q, int_truediv c m = Ok q /\
            percentage r = PyFloat (float_mul q hundred).
Proof.
  intros Hm Hr. destruct (get_alert_status_inv c s m r Hr) as [Hp _].
  rewrite alert_percentage_pos in Hp by assumption.
  destruct (int_truediv c m) as [q|e]; [|discriminate].
  exists q. split; [reflexivity|]. cbn [bind] in Hp. congruence.
Qed.

Lemma percentage_above c m q : 0 < m -> m <= c -> int_truediv c m = Ok q ->
  float_le hundred (float_mul q hundred) = true.
Proof.
  intros Hm Hc Hq. rewrite <- hundred_percent at 1.
  apply (percentage_float_mono m c m); try assumption.
  apply int_truediv_self; assumption.
Qed.

Lemma percentage_below c m q : 0 < m -> c <= m -> int_truediv c m = Ok q ->
  float_le (float_mul q hundred) hundred = true.
Proof.
  intros Hm Hc Hq. rewrite <- hundred_percent at 2.
  apply (percentage_float_mono c m m); try assumption.
  apply int_truediv_self; assumption.
Qed.

Lemma percentage_nonneg c m q : 0 < m -> 0 <= c -> int_truediv c m = Ok q ->
  float_le (S754_zero false) (float_mul q hundred) = true.
Proof.
  intros Hm Hc Hq. rewrite <- zero_percent at 1.
  apply (percentage_float_mono 0 c m); try assumption.
  apply int_truediv_zero; assumption.
Qed.

(** The percentage of a count does not grow with the maximum. *)
Lemma percentage_max_antitone c m1 m2 q1 q2 : 0 <= c -> 0 < m1 <= m2 ->
  int_truediv c m1 = Ok q1 -> int_truediv c m2 = Ok q2 ->
  float_le (float_mul q2 hundred) (float_mul q1 hundred) = true.
Proof.
  intros Hc Hm H1 H2.
  destruct (int_truediv_Ok c m1 q1 ltac:(lia) H1) as [-> F1].
  destruct (int_truediv_Ok c m2 q2 ltac:(lia) H2) as [-> F2].
  pose proof (quotient_rn_canon c m1 ltac:(lia)) as C1.
  pose proof (quotient_rn_canon c m2 ltac:(lia)) as C2.
  replace (c <? 0) with false by (symmetry; apply Z.ltb_ge; lia).
  unfold hundred. rewrite !float_mul_rn by (try assumption; exact hundred_normal).
  unfold float_le. apply float_of_rn_value_le.
  - apply product_rn_canon; assumption.
  - apply product_rn_canon; assumption.
  - apply product_rn_mono; try assumption; try lia.
    rewrite !quotient_value. rewrite Z.abs_eq by lia.
    assert (Q : 0 < 2 ^ (- emin64)) by reflexivity.
    apply rn_val_mono; try lia. nia.
Qed.

Lemma status_cases c s m r : get_alert_status c s m = Ok r ->
  (m <= c /\ status r = "CRITICAL") \/
  (c < m /\ s <= c /\ status r = "WARNING") \/
  (c < m /\ c < s /\ status r = "SAFE").
Proof.
  intros H. destruct (get_alert_status_inv c s m r H) as [_ [A E|A B E|A B E]];
    rewrite E; cbn [status]; auto.
Qed.

(** Every key but the percentage depends on the status alone. *)
Lemma same_status_same_fields c1 s1 m1 c2 s2 m2 r1 r2 :
  get_alert_status c1 s1 m1 = Ok r1 -> get_alert_status c2 s2 m2 = Ok r2 ->
  status r1 = status r2 ->
  status_emoji r1 = status_emoji r2 /\ color r1 = color r2 /\
  color_bgr r1 = color_bgr r2 /\ message r1 = message r2 /\
  recommendations r1 = recommendations r2.
Proof.
  unfold get_alert_status.
  destruct (alert_percentage c1 m1) as [p1|]; [|discriminate].
  destruct (alert_percentage c2 m2) as [p2|]; [|discriminate].
  cbn [bind].
  destruct (c1 >=? m1); [|destruct (c1 >=? s1)];
    (destruct (c2 >=? m2); [|destruct (c2 >=? s2)]);
    intros H1 H2; injection H1 as <-; injection H2 as <-; cbn;
    intros E; try discriminate E; repeat split.
Qed.

End PercentageFacts.

Import PercentageFacts.


(** * Facts about the area and the capacities *)

Module AreaFacts.

(** An integer within range converts to the rounding of its value. *)
Lemma float_of_int_rn z : 0 < z -> z < double_bound ->
  float_of_int z = Ok (float_of_rn false (quotient_rn z 1)) /\
  snd (quotient_rn z 1) + emin64 <= emax - prec.
Proof.
  intros Hz Hb.
  assert (F : snd (quotient_rn z 1) + emin64 <= emax - prec).
  { apply quotient_rn_finite; [lia|]. rewrite Z.mul_1_r. lia. }
  split; [|exact F].
  unfold float_of_int. destruct z as [|p|p]; try lia.
  rewrite binary_normalize_int.
  change (rn_spec (Zpos p * 2 ^ (- emin64)) 1) with (quotient_rn (Zpos p) 1).
  destruct (float_of_rn_shape false _ (quotient_rn_canon (Zpos p) 1 ltac:(lia)));
    try reflexivity; lia.
Qed.

(** The capacity at one density, as a function of a rounded area. *)
Lemma capacity_of_rn me md ed v : canon me ->
  snd me + emin64 <= emax - prec -> normal md ->
  int_of_float (float_mul (float_of_rn false me) (S754_finite false md ed))
  = Ok v ->
  v = value (product_rn me md ed) / 2 ^ (- emin64).
Proof.
  intros C F N H. rewrite float_mul_rn in H by assumption.
  apply int_of_float_rn in H; [assumption|]. apply product_rn_canon; assumption.
Qed.

Lemma capacity_rn_mono me1 me2 md ed v1 v2 : canon me1 -> canon me2 ->
  snd me1 + emin64 <= emax - prec -> snd me2 + emin64 <= emax - prec ->
  normal md -> ed <= 0 -> value me1 <= value me2 ->
  int_of_float (float_mul (float_of_rn false me1) (S754_finite false md ed))
  = Ok v1 ->
  int_of_float (float_mul (float_of_rn false me2) (S754_finite false md ed))
  = Ok v2 ->
  v1 <= v2.
Proof.
  intros C1 C2 F1 F2 N E V H1 H2.
  apply capacity_of_rn in H1; try assumption.
  apply capacity_of_rn in H2; try assumption. subst.
  apply Z.div_le_mono; [unfold emin64; pow_pos|].
  apply product_rn_mono; assumption.
Qed.


Lemma finite_canon s m e : is_float (S754_finite s m e) = true ->
  canon (Zpos m, e - emin64) /\ e <= emax - prec /\
  float_of_rn s (Zpos m, e - emin64) = S754_finite s m e.
Proof.
  unfold is_float. cbn [valid_binary]. unfold bounded. intros V.
  apply andb_true_iff in V. destruct V as [Cm Ce].
  unfold canonical_mantissa in Cm. apply Z.eqb_eq in Cm. apply Z.leb_le in Ce.
  rewrite fexp_eq in Cm. rewrite digits2_pos_log2 in Cm.
  assert (L : Z.log2 (Zpos m) < prec) by (unfold prec, emin64 in *; lia).
  assert (U : Zpos m < 2 ^ prec) by (apply Z.log2_lt_pow2; lia).
  split; [|split; [exact Ce|]].
  - unfold canon; cbn [fst snd]. split; [lia|]. split; [lia|].
    intros G. assert (Z.log2 (Zpos m) = prec - 1) by (unfold prec, emin64 in *; lia).
    pose proof (Z.log2_spec (Zpos m) ltac:(lia)) as [Lo _].
    rewrite H in Lo. exact Lo.
  - unfold float_of_rn; cbn [fst snd].
    replace (e - emin64 + emin64) with e by lia.
    destruct (Z.leb_spec e (emax - prec)); [reflexivity|lia].
Qed.

(** A kept area within range enters the products as the float of
    [area_rn]. *)
Lemma area_float_rn a : area_in_range a -> kept_area a ->
  area_float a = Ok (float_of_rn false (area_rn a)) /\ canon (area_rn a) /\
  snd (area_rn a) + emin64 <= emax - prec.
Proof.
  destruct a as [|z|f]; cbn [area_in_range kept_area area_float area_rn];
    intros R K.
  - contradiction.
  - destruct (float_of_int_rn z K R) as [E F].
    split; [exact E|]. split; [apply quotient_rn_canon; lia|exact F].
  - destruct R as [V Fi]. pose proof (float_le_int_kept f K) as Kf.
    destruct f as [b|b| |b m e]; cbn [is_finite kept_float] in *;
      try discriminate.
    destruct b; [contradiction|].
    destruct (finite_canon false m e V) as (C & Ce & E).
    rewrite E. split; [reflexivity|]. split; [exact C|]. cbn [snd]. lia.
Qed.

Lemma finite_ceil_ge m e : emin64 <= e ->
  Zpos m * 2 ^ (e - emin64) <= finite_ceil false m e * 2 ^ (- emin64).
Proof.
  intros He. unfold finite_ceil, shift_exact, shift_trunc.
  destruct e as [|q|q].
  - rewrite Z.sub_0_l. lia.
  - replace (Zpos q - emin64) with (Zpos q + - emin64) by lia.
    rewrite Z.pow_add_r by (unfold emin64; lia). lia.
  - assert (Q : 0 < 2 ^ Zpos q) by pow_pos.
    assert (Q' : 0 < 2 ^ (Zneg q - emin64)) by pow_pos.
    replace (- emin64) with (Zpos q + (Zneg q - emin64)) by lia.
    rewrite Z.pow_add_r by lia.
    pose proof (Z.div_mod (Zpos m) (2 ^ Zpos q) ltac:(lia)) as D.
    pose proof (Z.mod_pos_bound (Zpos m) (2 ^ Zpos q) Q) as B.
    destruct (Z.eqb_spec (Zpos m mod 2 ^ Zpos q) 0) as [E0|E0]; nia.
Qed.

Lemma float_value_exact m e : canon (Zpos m, e - emin64) ->
  rn_val (Zpos m * 2 ^ (e - emin64)) 1 = Zpos m * 2 ^ (e - emin64).
Proof.
  intros (A & B & _); cbn [fst snd] in *. apply rn_val_exact; lia.
Qed.

Lemma int_value z : 0 < z ->
  value (area_rn (PyInt z)) = rn_val (z * 2 ^ (- emin64)) 1.
Proof.
  intros Hz. cbn [area_rn]. rewrite quotient_value. rewrite Z.abs_eq by lia.
  reflexivity.
Qed.

(** The order of two finite floats in canonical form is the order of their
    values. *)
Lemma SFleb_value m1 e1 m2 e2 :
  canon (Zpos m1, e1 - emin64) -> canon (Zpos m2, e2 - emin64) ->
  SFleb (S754_finite false m1 e1) (S754_finite false m2 e2) = true ->
  Zpos m1 * 2 ^ (e1 - emin64) <= Zpos m2 * 2 ^ (e2 - emin64).
Proof.
  intros (A1 & B1 & C1) (A2 & B2 & C2); cbn [fst snd] in *.
  unfold SFleb, SFcompare.
  destruct (Z.compare_spec e1 e2) as [E|E|E].
  - subst e2. rewrite Pos.compare_cont_spec. cbn [Pos.switch_Eq].
    destruct (Pos.compare_spec m1 m2) as [M|M|M];
      try discriminate; intros _; (apply Z.mul_le_mono_nonneg_r; [apply Z.pow_nonneg; lia|lia]).
  - intros _. specialize (C2 ltac:(lia)).
    assert (Q1 : 0 < 2 ^ (e1 - emin64)) by pow_pos.
    replace (e2 - emin64) with ((e2 - e1 - 1) + 1 + (e1 - emin64)) by lia.
    rewrite !Z.pow_add_r by lia.
    assert (Q2 : 0 < 2 ^ (e2 - e1 - 1)) by pow_pos.
    change (2 ^ prec) with (2 * 2 ^ (prec - 1)) in A1.
    change (2 ^ 1) with 2.
    set (x := 2 ^ (e1 - emin64)) in *. set (k := 2 ^ (e2 - e1 - 1)) in *.
    set (h := 2 ^ (prec - 1)) in *.
    apply Z.le_trans with (2 * h * x); [nia|].
    apply Z.le_trans with (2 * Zpos m2 * x); [nia|].
    assert (0 <= Zpos m2 * x) by nia.
    replace (Zpos m2 * (k * 2 * x)) with (k * (2 * (Zpos m2 * x))) by ring.
    nia.
  - discriminate.
Qed.

Lemma area_rn_le a1 a2 : area_in_range a1 -> area_in_range a2 ->
  kept_area a1 -> kept_area a2 -> py_le a1 a2 = Ok true ->
  value (area_rn a1) <= value (area_rn a2).
Proof.
  intros R1 R2 K1 K2 L.
  destruct (area_float_rn a1 R1 K1) as (_ & C1 & _).
  destruct (area_float_rn a2 R2 K2) as (_ & C2 & _).
  assert (Q : 0 < 2 ^ (- emin64)) by (unfold emin64; pow_pos).
  destruct a1 as [|z1|f1], a2 as [|z2|f2]; try contradiction;
    cbn [py_le kept_area area_in_range] in *.
  - injection L as L. apply Z.leb_le in L.
    cbn [area_rn]. apply quotient_value_mono; lia.
  - injection L as L. destruct R2 as [V2 F2].
    pose proof (float_le_int_kept f2 K2) as Kf.
    destruct f2 as [b|b| |b m e]; cbn [is_finite kept_float] in *;
      try discriminate.
    destruct b; [contradiction|].
    cbn [int_le_float finite_floor] in L. apply Z.leb_le in L.
    rewrite int_value by assumption. unfold value. cbn [area_rn fst snd] in *.
    rewrite <- (float_value_exact m e C2).
    assert (He : emin64 <= e) by (destruct C2 as (_ & B & _); cbn in B; lia).
    rewrite (shift_trunc_val m e He) in L.
    apply rn_val_mono; try lia.
    pose proof (Z.mul_div_le (Zpos m * 2 ^ (e - emin64)) (2 ^ (- emin64)) Q).
    nia.
  - injection L as L. destruct R1 as [V1 F1].
    pose proof (float_le_int_kept f1 K1) as Kf.
    destruct f1 as [b|b| |b m e]; cbn [is_finite kept_float] in *;
      try discriminate.
    destruct b; [contradiction|].
    cbn [float_le_int] in L. apply Z.leb_le in L.
    rewrite int_value by assumption. unfold value. cbn [area_rn fst snd] in *.
    rewrite <- (float_value_exact m e C1).
    assert (He : emin64 <= e) by (destruct C1 as (_ & B & _); cbn in B; lia).
    pose proof (finite_ceil_ge m e He).
    assert (0 < 2 ^ (e - emin64)) by pow_pos.
    apply rn_val_mono; try lia. rewrite !Z.mul_1_r.
    apply Z.le_trans with (finite_ceil false m e * 2 ^ (- emin64)); [exact H|].
    apply Z.mul_le_mono_nonneg_r; lia.
  - injection L as L. destruct R1 as [V1 F1], R2 as [V2 F2].
    pose proof (float_le_int_kept f1 K1) as Kf1.
    pose proof (float_le_int_kept f2 K2) as Kf2.
    destruct f1 as [b1|b1| |b1 m1 e1]; cbn [is_finite kept_float] in *;
      try discriminate.
    destruct f2 as [b2|b2| |b2 m2 e2]; cbn [is_finite kept_float] in *;
      try discriminate.
    destruct b1; [contradiction|]. destruct b2; [contradiction|].
    unfold value; cbn [area_rn fst snd] in *.
    apply SFleb_value; assumption.
Qed.


Lemma finite_ceil_pos m e : 0 < finite_ceil false m e.
Proof.
  unfold finite_ceil, shift_exact, shift_trunc.
  destruct e as [|q|q]; cbv beta iota; try lia.
  assert (Q : 0 < 2 ^ Zpos q) by pow_pos.
  pose proof (Z.div_mod (Zpos m) (2 ^ Zpos q) ltac:(lia)) as D.
  pose proof (Z.mod_pos_bound (Zpos m) (2 ^ Zpos q) Q) as B.
  pose proof (Z.div_pos (Zpos m) (2 ^ Zpos q) ltac:(lia) Q).
  destruct (Z.eqb_spec (Zpos m mod 2 ^ Zpos q) 0) as [E0|E0]; nia.
Qed.

Lemma finite_floor_neg m e : finite_floor true m e <= 0.
Proof.
  unfold finite_floor. pose proof (shift_trunc_nonneg m e).
  destruct (shift_exact m e); lia.
Qed.

Lemma kept_area_iff a : kept_area a <-> py_le a (PyInt 0) = Ok false.
Proof.
  destruct a as [|z|f]; cbn [kept_area py_le].
  - split; [contradiction|discriminate].
  - split.
    + intros H. f_equal. apply Z.leb_gt. assumption.
    + intros H. injection H as H. apply Z.leb_gt. assumption.
  - split; [intros ->; reflexivity|congruence].
Qed.

(** What is at least a positive area is positive. *)
Lemma kept_area_le a1 a2 : area_in_range a1 -> area_in_range a2 ->
  kept_area a1 -> py_le a1 a2 = Ok true -> kept_area a2.
Proof.
  intros R1 R2 K1 L.
  destruct a1 as [|z1|f1], a2 as [|z2|f2]; try contradiction; try discriminate;
    cbn [py_le kept_area area_in_range] in *; injection L as L.
  - apply Z.leb_le in L. lia.
  - destruct R2 as [_ F2].
    destruct f2 as [b|b| |b m e]; cbn [is_finite] in F2; try discriminate;
      cbn [int_le_float float_le_int] in *; apply Z.leb_le in L; [lia|].
    destruct b.
    + pose proof (finite_floor_neg m e). lia.
    + apply Z.leb_gt. apply finite_ceil_pos.
  - destruct R1 as [_ F1].
    destruct f1 as [b|b| |b m e]; cbn [is_finite] in F1; try discriminate;
      cbn [float_le_int] in *;
      apply Z.leb_le in L; apply Z.leb_gt in K1; lia.
  - destruct R1 as [_ F1], R2 as [_ F2].
    pose proof (float_le_int_kept f1 K1) as Kf1.
    destruct f1 as [b1|b1| |b1 m1 e1]; cbn [is_finite kept_float] in *;
      try discriminate.
    destruct b1; [contradiction|].
    destruct f2 as [b2|b2| |b2 m2 e2]; cbn [is_finite] in F2;
      try discriminate.
    destruct b2; [discriminate|].
    cbn [float_le_int]. apply Z.leb_gt. apply finite_ceil_pos.
Qed.

(** The capacities grow with the area. *)
Lemma estimate_mono a1 a2 : area_in_range a1 -> area_in_range a2 ->
  kept_area a1 -> py_le a1 a2 = Ok true ->
  exists r1 r2, estimate_venue_capacity a1 = Ok r1 /\
    estimate_venue_capacity a2 = Ok r2 /\
    safe_capacity r1 <= safe_capacity r2 /\ max_capacity r1 <= max_capacity r2.
Proof.
  intros R1 R2 K1 L.
  pose proof (kept_area_le a1 a2 R1 R2 K1 L) as K2.
  pose proof (area_rn_le a1 a2 R1 R2 K1 K2 L) as V.
  destruct (estimate_returns a1 R1) as [r1 H1].
  destruct (estimate_returns a2 R2) as [r2 H2].
  exists r1, r2. split; [exact H1|]. split; [exact H2|].
  rewrite estimate_kept in H1, H2 by assumption.
  destruct (area_float_rn a1 R1 K1) as (E1 & C1 & F1).
  destruct (area_float_rn a2 R2 K2) as (E2 & C2 & F2).
  rewrite E1 in H1. rewrite E2 in H2. cbn [bind] in H1, H2.
  destruct (int_of_float (float_mul (float_of_rn false (area_rn a1)) SAFE_DENSITY))
    as [s1|] eqn:S1; [|discriminate].
  destruct (int_of_float (float_mul (float_of_rn false (area_rn a1)) MAX_DENSITY))
    as [t1|] eqn:T1; [|discriminate].
  destruct (int_of_float (float_mul (float_of_rn false (area_rn a2)) SAFE_DENSITY))
    as [s2|] eqn:S2; [|discriminate].
  destruct (int_of_float (float_mul (float_of_rn false (area_rn a2)) MAX_DENSITY))
    as [t2|] eqn:T2; [|discriminate].
  cbn [bind] in H1, H2. injection H1 as <-. injection H2 as <-.
  cbn [safe_capacity max_capacity]. split.
  - apply (capacity_rn_mono (area_rn a1) (area_rn a2) 7205759403792794 (-54));
      try assumption; [exact safe_density_normal|lia].
  - apply (capacity_rn_mono (area_rn a1) (area_rn a2) 6034823500676465 (-53));
      try assumption; [exact max_density_normal|lia].
Qed.

(** Estimating again from the area of a result gives the result. *)
Lemma estimate_area_fixed a r : estimate_venue_capacity a = Ok r ->
  estimate_venue_capacity (area r) = Ok r /\ kept_area (area r).
Proof.
  intros H. destruct (kept_or_replaced a) as [K|R].
  - pose proof H as H'. rewrite estimate_kept in H' by assumption.
    destruct (area_float a) as [f|]; [|discriminate]. cbn [bind] in H'.
    destruct (int_of_float (float_mul f SAFE_DENSITY)); [|discriminate].
    destruct (int_of_float (float_mul f MAX_DENSITY)); [|discriminate].
    cbn [bind] in H'. injection H' as <-. cbn [area]. split; assumption.
  - rewrite estimate_replaced in H by assumption. injection H as <-.
    split; [exact estimate_default|]. cbn. lia.
Qed.

(** A float area: NaN and plus infinity raise, everything else returns. *)
Lemma estimate_nan :
  estimate_venue_capacity (PyFloat S754_nan)
  = Raise (ValueError "cannot convert float NaN to integer").
Proof. reflexivity. Qed.

Lemma estimate_inf :
  estimate_venue_capacity (PyFloat (S754_infinity false))
  = Raise (OverflowError "cannot convert float infinity to integer").
Proof. reflexivity. Qed.

Lemma estimate_float_returns f : is_float f = true ->
  f <> S754_nan -> f <> S754_infinity false ->
  exists r, estimate_venue_capacity (PyFloat f) = Ok r.
Proof.
  intros V N I. destruct f as [b|b| |b m e].
  - apply estimate_returns. split; [assumption|reflexivity].
  - destruct b; [|congruence]. exists default_estimate.
    apply estimate_replaced. right. reflexivity.
  - congruence.
  - apply estimate_returns. split; [assumption|reflexivity].
Qed.

(** Integer areas up to [10^13]: the capacities against the area. *)
Lemma estimate_int_bounds z r : 3 <= z <= 10 ^ 13 ->
  estimate_venue_capacity (PyInt z) = Ok r ->
  1 <= safe_capacity r /\ safe_capacity r < max_capacity r /\
  max_capacity r < z.
Proof.
  intros Hz H. rewrite estimate_int_exact in H by lia.
  assert (E : r = mkCapacityEstimate (PyInt z) (4 * z / 10) (67 * z / 100))
    by congruence.
  rewrite E. cbn [safe_capacity max_capacity]. clear E H.
  destruct (Z.eq_dec z 3) as [->|H3]; [repeat split; reflexivity|].
  assert (H4 : 4 <= z) by lia. clear Hz H3.
  Z.to_euclidean_division_equations. lia.
Qed.

End AreaFacts.

Import AreaFacts.


(** * Facts about the estimate used as thresholds *)

Module PipelineFacts.

(** The thresholds of an estimate split the counts into three ranges. *)
Lemma estimate_then_alert a n r al : estimate_venue_capacity a = Ok r ->
  get_alert_status n (safe_capacity r) (max_capacity r) = Ok al ->
  (status al = "SAFE" <-> n < safe_capacity r) /\
  (status al = "WARNING" <-> safe_capacity r <= n < max_capacity r) /\
  (status al = "CRITICAL" <-> max_capacity r <= n).
Proof.
  intros Hr Hal. pose proof (estimate_ordered a r Hr) as O.
  destruct (status_cases _ _ _ _ Hal) as [[A E]|[(A & B & E)|(A & B & E)]];
    rewrite E; repeat split; intros; try discriminate; try reflexivity; lia.
Qed.

Lemma estimate_50 :
  estimate_venue_capacity (PyInt 50) = Ok (mkCapacityEstimate (PyInt 50) 20 33).
Proof. vm_compute. reflexivity. Qed.

(** From the smallest area the venue form accepts on, the capacities are
    positive and every count is classified. *)
Lemma monitored_venue z n : 50 <= z < double_bound -> 0 <= n < double_bound ->
  exists r al p, estimate_venue_capacity (PyInt z) = Ok r /\
    20 <= safe_capacity r /\ 33 <= max_capacity r /\
    get_alert_status n (safe_capacity r) (max_capacity r) = Ok al /\
    percentage al = PyFloat p.
Proof.
  intros Hz Hn.
  destruct (estimate_mono (PyInt 50) (PyInt z)) as (r1 & r & H1 & H & S & M).
  - reflexivity.
  - exact (proj2 Hz).
  - reflexivity.
  - cbn [py_le]. f_equal. apply Z.leb_le. lia.
  - rewrite estimate_50 in H1. injection H1 as <-.
    cbn [safe_capacity max_capacity] in S, M.
    assert (Q : quotient_in_range n (max_capacity r)).
    { right. rewrite Z.abs_eq by lia.
      apply Z.lt_le_trans with (double_bound * 1);
        [rewrite Z.mul_1_r; exact (proj2 Hn)|].
      apply Z.mul_le_mono_nonneg_l; [|lia].
      apply Z.lt_le_incl. reflexivity. }
    destruct (get_alert_status_total n (safe_capacity r) (max_capacity r) Q)
      as [al Hal].
    assert (Hm : 0 < max_capacity r) by lia.
    destruct (percentage_pos_inv _ _ _ _ Hm Hal) as (q & _ & Hp).
    exists r, al, (float_mul q hundred). repeat split; assumption.
Qed.

(** Larger capacities never make a count more severe. *)
Lemma status_antitone c s1 m1 s2 m2 r1 r2 : s1 <= s2 -> m1 <= m2 ->
  get_alert_status c s1 m1 = Ok r1 -> get_alert_status c s2 m2 = Ok r2 ->
  status_le (status r2) (status r1).
Proof.
  intros Hs Hm H1 H2.
  destruct (status_cases _ _ _ _ H1) as [[A1 E1]|[(A1 & B1 & E1)|(A1 & B1 & E1)]];
    destruct (status_cases _ _ _ _ H2) as [[A2 E2]|[(A2 & B2 & E2)|(A2 & B2 & E2)]];
    try lia; rewrite E1, E2; vm_compute; lia.
Qed.

End PipelineFacts.

Import PipelineFacts.


(** * Facts about the counting loops *)

Module CountingFacts.

Lemma count_boxes_spec bs n : readable bs ->
  count_boxes bs n = Ok (n + Z.of_nat (List.length (filter is_person bs))).
Proof.
  revert n. induction bs as [|b rest IH]; intros n R; cbn [count_boxes filter].
  - cbn. f_equal. lia.
  - destruct (R b (or_introl eq_refl)) as [id Hid].
    assert (Hp : is_person b = (id =? PERSON_CLASS_ID))
      by (unfold is_person; rewrite Hid; reflexivity).
    rewrite Hid, Hp. cbn [bind].
    rewrite IH by (intros b' Hb'; apply R; right; exact Hb').
    f_equal. destruct (id =? PERSON_CLASS_ID); cbn [List.length]; lia.
Qed.

Lemma count_boxes_raises bs n : ~ readable bs ->
  exists e, count_boxes bs n = Raise e.
Proof.
  revert n. induction bs as [|b rest IH]; intros n R.
  - exfalso. apply R. intros b [].
  - cbn [count_boxes]. destruct (box_class_id b) as [id|e] eqn:Hid.
    + cbn [bind]. apply IH. intros R'. apply R.
      intros b' [<-|Hb']; [exists id; exact Hid|apply R'; exact Hb'].
    + exists e. reflexivity.
Qed.

Lemma readable_app bs1 bs2 :
  readable (bs1 ++ bs2)%list <-> readable bs1 /\ readable bs2.
Proof.
  unfold readable. split.
  - intros R. split; intros b Hb; apply R; apply in_or_app; auto.
  - intros [R1 R2] b Hb. apply in_app_or in Hb. destruct Hb; auto.
Qed.

(** One round of the outer loop: the test on [len(result.boxes)] changes
    nothing, an empty list adds nothing either way. *)
Lemma count_result_step r n :
  match boxes r with
  | Some bs =>
      if Z.of_nat (List.length bs) >? 0 then count_boxes bs n else Ok n
  | None => Ok n
  end = count_boxes (result_boxes r) n.
Proof.
  unfold result_boxes. destruct (boxes r) as [bs|]; [|reflexivity].
  destruct bs as [|b rest]; [reflexivity|].
  replace (Z.of_nat (List.length (b :: rest)) >? 0) with true; [reflexivity|].
  symmetry. apply Z.gtb_lt. cbn [List.length]. lia.
Qed.

Lemma count_results_flat rs n :
  count_results rs n = count_boxes (flat_map result_boxes rs) n.
Proof.
  revert n. induction rs as [|r rest IH]; intros n; cbn [count_results flat_map].
  - reflexivity.
  - rewrite count_result_step.
    assert (A : forall bs1 bs2 k,
               count_boxes (bs1 ++ bs2)%list k
               = (k' <- count_boxes bs1 k ;; count_boxes bs2 k')).
    { induction bs1 as [|b1 bs1 IH1]; intros bs2 k; cbn [count_boxes app].
      - reflexivity.
      - destruct (box_class_id b1); [|reflexivity]. cbn [bind]. apply IH1. }
    rewrite A. destruct (count_boxes (result_boxes r) n); [|reflexivity].
    cbn [bind]. apply IH.
Qed.

Lemma count_results_spec rs : readable (flat_map result_boxes rs) ->
  count_results rs 0 = Ok (Z.of_nat (List.length (person_boxes rs))).
Proof.
  intros R. rewrite count_results_flat, count_boxes_spec by assumption.
  reflexivity.
Qed.

Lemma count_results_raises rs n : ~ readable (flat_map result_boxes rs) ->
  exists e, count_results rs n = Raise e.
Proof. intros R. rewrite count_results_flat. apply count_boxes_raises, R. Qed.

Lemma count_results_inv rs k : count_results rs 0 = Ok k ->
  readable (flat_map result_boxes rs) /\
  k = Z.of_nat (List.length (person_boxes rs)).
Proof.
  intros H.
  assert (R : readable (flat_map result_boxes rs)).
  { intros b Hb. destruct (box_class_id b) as [id|e] eqn:E; [exists id; reflexivity|].
    exfalso. rewrite count_results_flat in H. clear - H Hb E.
    revert H. generalize 0. induction (flat_map result_boxes rs) as [|b' bs IH];
      [destruct Hb|]. intros n. cbn [count_boxes].
    destruct Hb as [->|Hb].
    - rewrite E. discriminate.
    - destruct (box_class_id b'); [|discriminate]. cbn [bind]. apply IH, Hb. }
  split; [exact R|]. rewrite count_results_spec in H by assumption. congruence.
Qed.

Lemma person_boxes_le rs :
  (List.length (person_boxes rs) <= List.length (flat_map result_boxes rs))%nat.
Proof. apply filter_length_le. Qed.

End CountingFacts.

Import CountingFacts.


(** * Facts about the resizing of a wide frame *)

Module ResizeFacts.

Lemma float_mul_comm x y : float_mul x y = float_mul y x.
Proof.
  unfold float_mul, SFmul.
  destruct x as [sx|sx| |sx mx ex], y as [sy|sy| |sy my ey];
    try reflexivity; try (rewrite xorb_comm; reflexivity).
  rewrite xorb_comm, Pos.mul_comm, Z.add_comm. reflexivity.
Qed.

(** A rounded value of at most [2^prec] is finite. *)
Lemma small_value_finite me : canon me ->
  value me <= 2 ^ prec * 2 ^ (- emin64) ->
  snd me + emin64 <= emax - prec.
Proof.
  intros (A & B & C) V. unfold value in V.
  destruct (Z.eq_dec (snd me) 0) as [E|E]; [rewrite E; vm_compute; discriminate|].
  specialize (C ltac:(lia)).
  assert (S : snd me < 1076).
  { apply (Z.pow_lt_mono_r_iff 2); [lia|lia|].
    assert (Q : 0 < 2 ^ snd me) by pow_pos.
    assert (2 ^ (prec - 1) * 2 ^ snd me <= 2 ^ prec * 2 ^ (- emin64)) by nia.
    change (2 ^ prec) with (2 * 2 ^ (prec - 1)) in H.
    assert (0 < 2 ^ (prec - 1)) by reflexivity.
    change (2 ^ 1076) with (4 * 2 ^ (- emin64)).
    assert (0 < 2 ^ (- emin64)) by reflexivity. nia. }
  unfold emin64, emax, prec. lia.
Qed.

Lemma int_of_rn_returns me : canon me -> snd me + emin64 <= emax - prec ->
  int_of_float (float_of_rn false me) = Ok (value me / 2 ^ (- emin64)).
Proof.
  intros C F.
  destruct (float_of_rn_finite false me (proj1 (proj1 C)) F) as [E|(p & Hp & E)].
  - pose proof (int_of_float_rn me 0 C) as H. rewrite E in H.
    rewrite E. cbn [int_of_float]. f_equal. apply H. reflexivity.
  - pose proof (int_of_float_rn me (finite_trunc false p (snd me + emin64)) C) as H.
    rewrite E in H. rewrite E. cbn [int_of_float]. f_equal. apply H. reflexivity.
Qed.

(** The scale of a wide frame is at most one. *)
Lemma scale_le_one w : 1280 < w ->
  int_truediv 1280 w = Ok (float_of_rn false (quotient_rn 1280 w)) /\
  canon (quotient_rn 1280 w) /\
  snd (quotient_rn 1280 w) + emin64 <= emax - prec /\
  value (quotient_rn 1280 w) <= 2 ^ (- emin64).
Proof.
  intros Hw.
  assert (Hb : Z.abs 1280 < double_bound * w).
  { apply Z.lt_le_trans with (double_bound * 1); [reflexivity|].
    apply Z.mul_le_mono_nonneg_l; [|lia]. apply Z.lt_le_incl. reflexivity. }
  split; [|split; [|split]].
  - rewrite (int_truediv_returns 1280 w) by (assumption || lia). reflexivity.
  - apply quotient_rn_canon. lia.
  - apply quotient_rn_finite; [lia|assumption].
  - rewrite quotient_value. cbn [Z.abs].
    assert (X : rn_val (1 * 2 ^ (- emin64)) 1 = 1 * 2 ^ (- emin64)).
    { apply rn_val_exact; [split; [lia|reflexivity]|unfold emin64; lia]. }
    rewrite Z.mul_1_l in X. rewrite <- X at 2.
    assert (Q : 0 < 2 ^ (- emin64)) by reflexivity.
    apply rn_val_mono; try lia. nia.
Qed.

(** [int(height * scale)] of a wide frame: never above the height. *)
Lemma new_height_le h w scale : 1280 < w -> 0 <= h < 2 ^ prec ->
  int_truediv 1280 w = Ok scale ->
  exists new_height,
    (x <- py_mul (PyInt h) (PyFloat scale) ;; py_int x) = Ok new_height /\
    0 <= new_height <= h.
Proof.
  intros Hw Hh Hs.
  destruct (scale_le_one w Hw) as (E & C & F & V).
  rewrite E in Hs. injection Hs as <-.
  assert (Q : 0 < 2 ^ (- emin64)) by reflexivity.
  cbn [py_mul].
  destruct (Z.eq_dec h 0) as [->|Hh0].
  - exists 0. split; [|lia].
    change (float_of_int 0) with (Ok (S754_zero false)). cbn [bind].
    destruct (float_of_rn_finite false _ (proj1 (proj1 C)) F) as [Z|(p & Hp & Z)];
      rewrite Z; reflexivity.
  - destruct (float_of_int_exact h ltac:(lia)) as (Ef & Vf & Ff).
    rewrite Ef. cbn [bind py_int].
    pose proof (quotient_rn_canon h 1 ltac:(lia)) as Cf.
    set (mf := quotient_rn h 1) in *.
    assert (Sf : 0 < snd mf <= - emin64).
    { destruct Cf as ((A1 & A2) & B & D). unfold value in Vf.
      assert (Q1 : 0 < 2 ^ snd mf) by pow_pos.
      split.
      - destruct (Z.eq_dec (snd mf) 0) as [Z|Z]; [|lia].
        exfalso. rewrite Z in Vf. change (2 ^ 0) with 1 in Vf.
        assert (2 ^ prec <= 2 ^ (- emin64)) by (vm_compute; discriminate).
        assert (1 * 2 ^ (- emin64) <= h * 2 ^ (- emin64))
          by (apply Z.mul_le_mono_nonneg_r; lia).
        lia.
      - destruct (Z_le_gt_dec (snd mf) (- emin64)) as [L|G]; [assumption|].
        assert (P0 : 0 <= - emin64) by (unfold emin64; lia).
        specialize (D ltac:(lia)).
        assert (2 ^ (- emin64 + 1) <= 2 ^ snd mf)
          by (apply Z.pow_le_mono_r; lia).
        change (2 ^ (- emin64 + 1)) with (2 * 2 ^ (- emin64)) in H.
        change (2 ^ prec) with (2 * 2 ^ (prec - 1)) in *.
        assert (0 < 2 ^ (prec - 1)) by reflexivity. nia. }
    assert (Nf : 2 ^ (prec - 1) <= fst mf) by (apply Cf; lia).
    destruct (fst mf) as [|p|p] eqn:Hp; try (assert (0 < 2 ^ (prec - 1)) by reflexivity; lia).
    assert (Sh : float_of_rn false mf = S754_finite false p (snd mf + emin64)).
    { unfold float_of_rn. rewrite Hp.
      destruct (Z.leb_spec (snd mf + emin64) (emax - prec)); [reflexivity|lia]. }
    rewrite Sh. rewrite float_mul_comm.
    rewrite float_mul_rn by assumption.
    set (pr := product_rn (quotient_rn 1280 w) p (snd mf + emin64)).
    assert (Cp : canon pr) by (apply product_rn_canon; assumption).
    assert (Vp : value pr <= h * 2 ^ (- emin64 - 0)).
    { apply product_value_le; try assumption; try lia.
      rewrite Z.pow_0_r, Z.mul_1_r.
      unfold value in Vf. rewrite Hp in Vf.
      replace (- (snd mf + emin64)) with (- emin64 - snd mf) by lia.
      assert (Q2 : 0 < 2 ^ (- emin64 - snd mf)) by pow_pos.
      assert (Q3 : 0 < 2 ^ snd mf) by pow_pos.
      assert (X : 2 ^ (- emin64) = 2 ^ snd mf * 2 ^ (- emin64 - snd mf)).
      { rewrite <- Z.pow_add_r by lia. f_equal. lia. }
      assert (Y : Zpos p = h * 2 ^ (- emin64 - snd mf)).
      { apply (Z.mul_reg_r _ _ (2 ^ snd mf)); [lia|].
        rewrite Vf, X. ring. }
      rewrite Y.
      apply Z.le_trans with (2 ^ (- emin64) * (h * 2 ^ (- emin64 - snd mf)));
        [apply Z.mul_le_mono_nonneg_r; [nia|assumption]|].
      apply Z.eq_le_incl. ring. }
    rewrite Z.sub_0_r in Vp.
    assert (Fp : snd pr + emin64 <= emax - prec).
    { apply small_value_finite; [assumption|].
      apply Z.le_trans with (h * 2 ^ (- emin64)); [assumption|].
      apply Z.mul_le_mono_nonneg_r; lia. }
    rewrite (int_of_rn_returns pr Cp Fp).
    eexists. split; [reflexivity|]. split.
    + apply Z.div_pos; [apply value_nonneg; assumption|lia].
    + apply Z.le_trans with (h * 2 ^ (- emin64) / 2 ^ (- emin64)).
      * apply Z.div_le_mono; assumption.
      * rewrite Z.div_mul by lia. lia.
Qed.

End ResizeFacts.

Import ResizeFacts.


(** * Facts about [count_people_in_frame], continued *)

Section CountPeopleFacts.

Variable frame : Type.
Variable frame_shape : frame -> exc (Z * Z).
Variable cv2_resize : frame -> Z * Z -> exc frame.


(** A frame of width up to 1280 goes to the model as it is. *)
Lemma count_people_body_narrow (model : detector frame) frm height width :
  frame_shape frm = Ok (height, width) -> width <= 1280 ->
  count_people_body frame frame_shape cv2_resize model frm
  = (results <- model frm (float_literal 25 100) (float_literal 5 10) ;;
     count_results results 0).
Proof.
  intros Hs Hw. unfold count_people_body. rewrite Hs. cbn [bind].
  destruct (Z.gtb_spec width 1280) as [G|G]; [lia|].
  reflexivity.
Qed.

(** A wider frame is resized to width 1280 and to the height
    [int(height * (1280 / width))], which is not above its own. *)
Lemma count_people_body_wide (model : detector frame) frm height width :
  frame_shape frm = Ok (height, width) -> 1280 < width ->
  0 <= height < 2 ^ prec ->
  exists scale new_height,
    int_truediv 1280 width = Ok scale /\
    (x <- py_mul (PyInt height) (PyFloat scale) ;; py_int x)
    = Ok new_height /\
    0 <= new_height <= height /\
    count_people_body frame frame_shape cv2_resize model frm
    = (resized <- cv2_resize frm (1280, new_height) ;;
       results <- model resized (float_literal 25 100) (float_literal 5 10) ;;
       count_results results 0).
Proof.
  intros Hs Hw Hh. unfold count_people_body. rewrite Hs. cbn [bind].
  destruct (Z.gtb_spec width 1280) as [G|G]; [|lia].
  destruct (scale_le_one width Hw) as (E & _).
  destruct (new_height_le height width _ Hw Hh E) as (nh & Hn & B).
  exists (float_of_rn false (quotient_rn 1280 width)), nh.
  split; [exact E|]. split; [exact Hn|]. split; [exact B|].
  rewrite E. cbn [bind]. rewrite Hn. reflexivity.
Qed.

(** The frame the model is given. *)
Lemma count_people_body_inv (model : detector frame) frm k :
  count_people_body frame frame_shape cv2_resize model frm = Ok k ->
  exists resized results,
    model resized (float_literal 25 100) (float_literal 5 10) = Ok results /\
    count_results results 0 = Ok k.
Proof.
  unfold count_people_body.
  destruct (frame_shape frm) as [[height width]|e]; [|discriminate]. cbn [bind].
  match goal with |- bind ?c _ = _ -> _ => destruct c as [frm'|e]; [|discriminate] end.
  cbn [bind].
  destruct (model frm' _ _) as [rs|e] eqn:M; [|discriminate]. cbn [bind].
  intros H. exists frm', rs. split; [exact M|exact H].
Qed.

(** What is counted: the boxes of the person class. *)
Lemma count_people_counts (model : detector frame) frm :
  snd (count_people_in_frame frame frame_shape cv2_resize model frm) = [] ->
  exists resized results,
    model resized (float_literal 25 100) (float_literal 5 10) = Ok results /\
    readable (flat_map result_boxes results) /\
    fst (count_people_in_frame frame frame_shape cv2_resize model frm)
    = Ok (Z.of_nat (List.length (person_boxes results))) /\
    (List.length (person_boxes results)
     <= List.length (flat_map result_boxes results))%nat.
Proof.
  unfold count_people_in_frame.
  destruct (count_people_body frame frame_shape cv2_resize model frm)
    as [k|e] eqn:E; cbn [fst snd];
    [|discriminate].
  intros _. destruct (count_people_body_inv model frm k E) as (frm' & rs & M & C).
  destruct (count_results_inv rs k C) as [R ->].
  exists frm', rs. repeat split; try assumption. apply person_boxes_le.
Qed.

(** One class id that cannot be read voids the whole count. *)
Lemma count_people_unreadable (model : detector frame) frm :
  (forall f conf iou results, model f conf iou = Ok results ->
     ~ readable (flat_map result_boxes results)) ->
  fst (count_people_in_frame frame frame_shape cv2_resize model frm) = Ok 0 /\
  exists line,
    snd (count_people_in_frame frame frame_shape cv2_resize model frm)
    = [line].
Proof.
  intros U. unfold count_people_in_frame.
  destruct (count_people_body frame frame_shape cv2_resize model frm)
    as [k|e] eqn:E; cbn [fst snd].
  - exfalso. destruct (count_people_body_inv model frm k E) as (frm' & rs & M & C).
    apply (U _ _ _ _ M). apply (count_results_inv rs k C).
  - split; [reflexivity|]. eexists. reflexivity.
Qed.

End CountPeopleFacts.


(** * Facts about [draw_detections] *)

Section DrawingFacts.

Variable frame : Type.
Variable frame_shape : frame -> exc (Z * Z).
Variable frame_copy : frame -> exc frame.
Variable cv2_resize : frame -> Z * Z -> exc frame.
Variable cv2_rectangle :
  frame -> Z * Z -> Z * Z -> Z * Z * Z -> Z -> exc frame.
Variable cv2_putText :
  frame -> string -> Z * Z -> pyval -> Z * Z * Z -> Z -> exc frame.
Variable cv2_addWeighted :
  frame -> float -> frame -> float -> Z -> exc frame.

Lemma draw_boxes_count bs annotated n annotated' k :
  draw_boxes frame cv2_rectangle cv2_putText bs annotated n
  = Ok (annotated', k) ->
  count_boxes (map seen bs) n = Ok k.
Proof.
  revert annotated n. induction bs as [|b rest IH]; intros annotated n;
    cbn [draw_boxes count_boxes map].
  - intros H. injection H as _ <-. reflexivity.
  - destruct (box_class_id (seen b)) as [id|e]; [|discriminate]. cbn [bind].
    destruct (id =? PERSON_CLASS_ID); [|apply IH].
    destruct (box_corners b) as [[[[x1 y1] x2] y2]|e]; [|discriminate].
    cbn [bind]. destruct (box_confidence b) as [c|e]; [|discriminate].
    cbn [bind]. destruct (cv2_rectangle _ _ _ _ _) as [a1|e]; [|discriminate].
    cbn [bind]. destruct (cv2_putText _ _ _ _ _ _) as [a2|e]; [|discriminate].
    cbn [bind]. apply IH.
Qed.

Lemma as_result_boxes r :
  result_boxes (as_result r)
  = map seen (match drawn_boxes r with Some bs => bs | None => [] end).
Proof. unfold result_boxes, as_result. destruct (drawn_boxes r); reflexivity. Qed.

Lemma draw_results_count results annotated n annotated' k :
  draw_results frame cv2_rectangle cv2_putText results annotated n
  = Ok (annotated', k) ->
  count_results (map as_result results) n = Ok k.
Proof.
  revert annotated n. induction results as [|r rest IH]; intros annotated n;
    cbn [draw_results count_results map].
  - intros H. injection H as _ <-. reflexivity.
  - rewrite count_result_step, as_result_boxes.
    destruct (drawn_boxes r) as [bs|].
    + destruct (draw_boxes _ _ _ bs annotated n) as [[a k']|e] eqn:D;
        [|discriminate].
      cbn [bind]. rewrite (draw_boxes_count _ _ _ _ _ D). cbn [bind]. apply IH.
    + cbn [bind count_boxes map]. apply IH.
Qed.

(** The number [draw_detections] writes on the frame is the number
    [count_people_in_frame] computes from the same results. *)
Lemma draw_detections_count frm (model : drawing_detector frame) out :
  draw_detections_body frame frame_shape frame_copy cv2_resize cv2_rectangle
    cv2_putText frm model = Ok out ->
  exists resized results k boxed written,
    model resized (float_literal 25 100) (float_literal 5 10) = Ok results /\
    count_results (map as_result results) 0 = Ok k /\
    k = Z.of_nat (List.length (person_boxes (map as_result results))) /\
    cv2_putText boxed ("Detected: " ++ str_int k) (20, 45) (PyInt 1)
      (0, 255, 0) 2 = Ok written /\
    (out = written \/
     exists height width, cv2_resize written (width, height) = Ok out).
Proof.
  unfold draw_detections_body.
  destruct (frame_shape frm) as [[height width]|e]; [|discriminate]. cbn [bind].
  match goal with |- bind ?c _ = _ -> _ => destruct c as [resized|e]; [|discriminate] end.
  cbn [bind].
  destruct (model resized _ _) as [rs|e] eqn:M; [|discriminate]. cbn [bind].
  destruct (frame_copy resized) as [a0|e]; [|discriminate]. cbn [bind].
  destruct (draw_results _ _ _ rs a0 0) as [[a1 k]|e] eqn:D; [|discriminate].
  cbn [bind].
  destruct (cv2_rectangle a1 _ _ _ _) as [a2|e]; [|discriminate]. cbn [bind].
  destruct (cv2_putText a2 _ _ _ _ _) as [a3|e] eqn:T; [|discriminate].
  cbn [bind]. intros H.
  pose proof (draw_results_count _ _ _ _ _ D) as C.
  exists resized, rs, k, a2, a3. split; [exact M|]. split; [exact C|].
  split; [apply (count_results_inv _ _ C)|]. split; [exact T|].
  destruct (width >? 1280).
  - right. exists height, width. exact H.
  - left. injection H as <-. reflexivity.
Qed.

End DrawingFacts.


(** * Facts about the progress bar *)

Module ProgressFacts.

Lemma progress_zero_frames frame_count :
  progress_value frame_count 0
  = Raise (ZeroDivisionError "division by zero").
Proof. reflexivity. Qed.

Lemma progress_quotient_le fc total : 0 < total -> 0 <= fc < 2 ^ 46 ->
  value (quotient_rn fc total) <= 2 ^ 46 * 2 ^ (- emin64).
Proof.
  intros Ht Hf. rewrite quotient_value. rewrite Z.abs_eq by lia.
  rewrite <- (rn_val_exact (2 ^ 46) (- emin64));
    [|split; [lia|reflexivity]|unfold emin64; lia].
  assert (Q : 0 < 2 ^ (- emin64)) by reflexivity.
  apply rn_val_mono; try lia.
  rewrite Z.mul_1_r.
  apply Z.le_trans with (2 ^ 46 * 2 ^ (- emin64) * 1); [nia|].
  apply Z.mul_le_mono_nonneg_l; [|lia]. apply Z.lt_le_incl. reflexivity.
Qed.

Lemma progress_rn_small fc total : 0 < total -> 0 <= fc < 2 ^ 46 ->
  value (progress_rn fc total) <= 7036874417766400 * 2 ^ (- emin64).
Proof.
  intros Ht Hf. unfold progress_rn.
  pose proof (quotient_rn_canon fc total Ht) as C.
  pose proof (progress_quotient_le fc total Ht Hf) as V.
  replace (- emin64) with (- emin64 - 0) by lia.
  apply product_value_le; try assumption; try lia;
    try (unfold emin64; lia); try (split; [lia|reflexivity]).
Qed.

Lemma progress_rn_returns fc total : 0 < total -> 0 <= fc < 2 ^ 46 ->
  progress_value fc total
  = Ok (Z.min (value (progress_rn fc total) / 2 ^ (- emin64)) 100).
Proof.
  intros Ht Hf. unfold progress_value.
  assert (Hb : Z.abs fc < double_bound * total).
  { rewrite Z.abs_eq by lia.
    apply Z.lt_le_trans with (double_bound * 1).
    - rewrite Z.mul_1_r. apply Z.lt_trans with (2 ^ 46); [lia|reflexivity].
    - apply Z.mul_le_mono_nonneg_l; [|lia]. apply Z.lt_le_incl. reflexivity. }
  rewrite (int_truediv_returns fc total Ht Hb).
  replace (fc <? 0) with false by (symmetry; apply Z.ltb_ge; lia).
  cbn [bind py_mul]. rewrite float_of_int_100. cbn [bind py_int].
  pose proof (quotient_rn_canon fc total Ht) as C.
  pose proof (quotient_rn_finite fc total Ht Hb) as F.
  unfold hundred.
  rewrite float_mul_rn by (try assumption; exact hundred_normal).
  fold (progress_rn fc total).
  assert (Cp : canon (progress_rn fc total))
    by (apply product_rn_canon; assumption).
  rewrite int_of_rn_returns; [reflexivity|assumption|].
  apply small_value_finite; [assumption|].
  apply Z.le_trans with (7036874417766400 * 2 ^ (- emin64)).
  - apply progress_rn_small; assumption.
  - apply Z.mul_le_mono_nonneg_r; [|vm_compute; discriminate].
    apply Z.lt_le_incl. reflexivity.
Qed.

Lemma progress_rn_mono fc1 fc2 total : 0 < total -> 0 <= fc1 <= fc2 ->
  value (progress_rn fc1 total) <= value (progress_rn fc2 total).
Proof.
  intros Ht Hf. unfold progress_rn.
  apply product_rn_mono; try (apply quotient_rn_canon; assumption); try lia.
  apply quotient_value_mono; [assumption|lia].
Qed.

Lemma progress_rn_full fc total : 0 < total -> total <= fc ->
  100 * 2 ^ (- emin64) <= value (progress_rn fc total).
Proof.
  intros Ht Hf. unfold progress_rn.
  pose proof (quotient_rn_canon fc total Ht) as C.
  apply product_value_ge; try assumption; try lia;
    try (split; [lia|reflexivity]).
  - change (- -46) with 46.
    change (Z.pos 7036874417766400) with (100 * 2 ^ 46).
    assert (V : 2 ^ (- emin64) <= value (quotient_rn fc total)).
    { rewrite quotient_value. rewrite Z.abs_eq by lia.
      assert (X : rn_val (1 * 2 ^ (- emin64)) 1 = 1 * 2 ^ (- emin64)).
      { apply rn_val_exact; [split; [lia|reflexivity]|unfold emin64; lia]. }
      rewrite Z.mul_1_l in X. rewrite <- X at 1.
      assert (Q : 0 < 2 ^ (- emin64)) by reflexivity.
      apply rn_val_mono; try lia. nia. }
    nia.
Qed.

(** The progress bar of a video whose frame count is known. *)
Lemma progress_in_range fc total : 0 < total -> 0 <= fc < 2 ^ 46 ->
  exists v, progress_value fc total = Ok v /\ 0 <= v <= 100 /\
            (total <= fc -> v = 100).
Proof.
  intros Ht Hf. rewrite progress_rn_returns by assumption.
  eexists. split; [reflexivity|].
  assert (Q : 0 < 2 ^ (- emin64)) by reflexivity.
  assert (C : canon (progress_rn fc total))
    by (apply product_rn_canon, quotient_rn_canon; assumption).
  pose proof (Z.div_pos _ _ (value_nonneg _ C) Q) as P.
  split; [lia|]. intros Hfull.
  pose proof (progress_rn_full fc total Ht Hfull) as V.
  assert (100 <= value (progress_rn fc total) / 2 ^ (- emin64)).
  { apply Z.div_le_lower_bound; lia. }
  lia.
Qed.

Lemma progress_monotone fc1 fc2 total v1 v2 : 0 < total ->
  0 <= fc1 <= fc2 -> fc2 < 2 ^ 46 ->
  progress_value fc1 total = Ok v1 -> progress_value fc2 total = Ok v2 ->
  v1 <= v2.
Proof.
  intros Ht Hf Hb. rewrite !progress_rn_returns by (assumption || lia).
  intros H1 H2. injection H1 as <-. injection H2 as <-.
  apply Z.min_le_compat_r. apply Z.div_le_mono; [reflexivity|].
  apply progress_rn_mono; assumption.
Qed.

End ProgressFacts.

Import ProgressFacts.


(** * Facts about the monitoring loop *)

Section MonitoringFacts.

Variable frame : Type.
Variable frame_shape : frame -> exc (Z * Z).
Variable frame_copy : frame -> exc frame.
Variable cv2_resize : frame -> Z * Z -> exc frame.
Variable cv2_rectangle :
  frame -> Z * Z -> Z * Z -> Z * Z * Z -> Z -> exc frame.
Variable cv2_putText :
  frame -> string -> Z * Z -> pyval -> Z * Z * Z -> Z -> exc frame.
Variable cv2_addWeighted :
  frame -> float -> frame -> float -> Z -> exc frame.
Variable cv2_cvtColor : frame -> exc frame.

Variable model : drawing_detector frame.
Variable show_boxes : bool.
Variables safe max_cap total_frames : Z.

Lemma summary_then {A} (c : run frame A) (k : A -> run frame unit) :
  summary frame (then_ frame c k)
  = match snd c with
    | Ok a =>
        let '(n, ps, r) := summary frame (k a) in
        ((frames_shown frame (fst c) + n)%nat,
         (progress_values frame (fst c) ++ ps)%list, r)
    | Raise e =>
        (frames_shown frame (fst c), progress_values frame (fst c), Raise e)
    end.
Proof.
  destruct c as [t [a|e]]; cbn [then_ fst snd]; [|reflexivity].
  unfold summary. destruct (k a) as [t' r]. cbn [fst snd].
  unfold frames_shown. rewrite filter_app, length_app. f_equal. f_equal.
  clear. induction t as [|ev t IH]; [reflexivity|].
  destruct ev; cbn [progress_values app]; rewrite ?IH; reflexivity.
Qed.

Lemma printed_quiet (lines : list string) :
  frames_shown frame (map (Printed frame) lines) = 0%nat /\
  progress_values frame (map (Printed frame) lines) = [].
Proof. induction lines as [|l rest [A B]]; split; auto. Qed.

Ltac step0 := rewrite summary_then; cbn [snd fst emit lift pure].

Ltac step :=
  rewrite summary_then; cbn [snd fst emit lift pure frames_shown filter
    is_sleep progress_values List.length app Nat.add].

(** A frame is shown to the end, its progress value included, or the run
    stops before the progress bar is set. *)
Lemma show_frame_summary frame_count frm :
  (exists v, progress_value frame_count total_frames = Ok v /\
     summary frame (show_frame frame frame_shape frame_copy cv2_resize
                cv2_rectangle cv2_putText cv2_addWeighted cv2_cvtColor
                model show_boxes safe max_cap total_frames frame_count frm)
     = (1%nat, [v], Ok tt)) \/
  (exists e,
     summary frame (show_frame frame frame_shape frame_copy cv2_resize
                cv2_rectangle cv2_putText cv2_addWeighted cv2_cvtColor
                model show_boxes safe max_cap total_frames frame_count frm)
     = (0%nat, [], Raise e)).
Proof.
  unfold show_frame.
  destruct (count_people_in_frame _ _ _ _ frm) as [count printed].
  destruct (printed_quiet printed) as [Q1 Q2].
  step0. rewrite Q1, Q2. cbn [Nat.add app].
  step. destruct count as [count|e]; [|right; exists e; reflexivity].
  step. destruct (get_alert_status count safe max_cap) as [alert|e];
    [|right; exists e; reflexivity].
  step0.
  match goal with
  | |- context [snd ?c] =>
      assert (A : exists t r, c = (map (Printed frame) t, r))
  end.
  { destruct show_boxes.
    - destruct (draw_detections _ _ _ _ _ _ frm model) as [a t].
      exists t, (Ok a). reflexivity.
    - exists [], (annotate_frame frame frame_copy cv2_rectangle cv2_putText
                    cv2_addWeighted frm count alert). reflexivity. }
  destruct A as (t & r & ->). destruct (printed_quiet t) as [T1 T2].
  cbn [fst snd]. rewrite T1, T2. cbn [Nat.add app].
  destruct r as [annotated|e]; [|right; exists e; reflexivity].
  repeat step.
  destruct (py_format_f 0 (percentage alert)) as [pct|e];
    [|right; exists e; reflexivity].
  repeat step.
  destruct (cv2_cvtColor annotated) as [image|e];
    [|right; exists e; reflexivity].
  repeat step.
  assert (B : forall ev, ev = alert_box frame alert \/ ev = rec_box frame alert ->
                is_sleep frame ev = false /\
                progress_values frame [ev] = []).
  { unfold alert_box, rec_box. intros ev [->| ->];
      repeat match goal with |- context [if ?b then _ else _] => destruct b end;
      split; reflexivity. }
  destruct (B _ (or_introl eq_refl)) as [B1 B2].
  destruct (B _ (or_intror eq_refl)) as [B3 B4].
  rewrite B1, B3. cbn [progress_values] in B2, B4.
  destruct (alert_box frame alert) eqn:Ea; try discriminate B2;
    destruct (rec_box frame alert) eqn:Er; try discriminate B4;
    cbn [progress_values List.length Nat.add app];
    (destruct (progress_value frame_count total_frames) as [v|e];
     [left; exists v; split; [reflexivity|]; repeat step; reflexivity
     |right; exists e; reflexivity]).
Qed.

(** The loop from any frame count on: how many frames it shows, and where
    the progress values come from. *)
Lemma monitor_loop_summary frames frame_count :
  forall n ps r,
  summary frame
    (monitor_loop frame frame_shape frame_copy cv2_resize cv2_rectangle
             cv2_putText cv2_addWeighted cv2_cvtColor model show_boxes safe
             max_cap total_frames frames frame_count) = (n, ps, r) ->
  let all := frame_count + Z.of_nat (List.length frames) in
  Z.of_nat n <= all / 2 - frame_count / 2 /\
  (r = Ok tt -> Z.of_nat n = all / 2 - frame_count / 2) /\
  List.length ps = n /\
  Forall (fun v => exists k, frame_count < k <= all /\
                     progress_value k total_frames = Ok v) ps.
Proof.
  revert frame_count. induction frames as [|frm rest IH]; intros fc n ps r;
    cbn [monitor_loop List.length].
  - unfold summary. cbn. intros H. injection H as <- <- <-.
    rewrite Z.add_0_r. repeat split; try lia. constructor.
  - rewrite Nat2Z.inj_succ.
    replace (fc + Z.succ (Z.of_nat (List.length rest)))
      with (fc + 1 + Z.of_nat (List.length rest)) by lia.
    destruct (Z.eqb_spec ((fc + 1) mod 2) 0) as [E|E]; cbn [negb].
    + rewrite summary_then.
      destruct (show_frame_summary (fc + 1) frm) as [(v & Hv & S)|(e & S)].
      * unfold summary in S. injection S as S1 S2 S3. rewrite S3, S1, S2.
        destruct (summary frame (monitor_loop _ _ _ _ _ _ _ _ _ _ _ _ _ rest (fc + 1)))
          as [[n' ps'] r'] eqn:L.
        intros H. injection H as <- <- <-.
        destruct (IH (fc + 1) n' ps' r' L) as (A & B & C & D).
        cbn [List.length app Nat.add].
        repeat split.
        -- Z.to_euclidean_division_equations. lia.
        -- intros R. specialize (B R).
           Z.to_euclidean_division_equations. lia.
        -- lia.
        -- constructor.
           ++ exists (fc + 1). split; [lia|exact Hv].
           ++ eapply Forall_impl; [|exact D].
              intros x (k & Hk & Hx). exists k. split; [lia|exact Hx].
      * unfold summary in S. injection S as S1 S2 S3. rewrite S3, S1, S2.
        intros H. injection H as <- <- <-.
        repeat split; try discriminate; try constructor.
        cbn. Z.to_euclidean_division_equations. lia.
    + intros L. destruct (IH (fc + 1) n ps r L) as (A & B & C & D).
      repeat split.
      * Z.to_euclidean_division_equations. lia.
      * intros R. specialize (B R). Z.to_euclidean_division_equations. lia.
      * exact C.
      * eapply Forall_impl; [|exact D].
        intros x (k & Hk & Hx). exists k. split; [lia|exact Hx].
Qed.

End MonitoringFacts.

Section MonitorFacts.

Variable frame : Type.
Variable frame_shape : frame -> exc (Z * Z).
Variable frame_copy : frame -> exc frame.
Variable cv2_resize : frame -> Z * Z -> exc frame.
Variable cv2_rectangle :
  frame -> Z * Z -> Z * Z -> Z * Z * Z -> Z -> exc frame.
Variable cv2_putText :
  frame -> string -> Z * Z -> pyval -> Z * Z * Z -> Z -> exc frame.
Variable cv2_addWeighted :
  frame -> float -> frame -> float -> Z -> exc frame.
Variable cv2_cvtColor : frame -> exc frame.

Variable model : drawing_detector frame.
Variable show_boxes : bool.
Variable capacity : CapacityEstimate.

Lemma monitor_summary cap_is_opened cap_frame_count frames :
  summary frame
    (monitor frame frame_shape frame_copy cv2_resize cv2_rectangle cv2_putText
       cv2_addWeighted cv2_cvtColor model show_boxes capacity cap_is_opened
       cap_frame_count frames)
  = match int_of_float cap_frame_count with
    | Ok total_frames =>
        if cap_is_opened then
          summary frame
            (monitor_loop frame frame_shape frame_copy cv2_resize
               cv2_rectangle cv2_putText cv2_addWeighted cv2_cvtColor model
               show_boxes (safe_capacity capacity) (max_capacity capacity)
               total_frames frames 0)
        else (0%nat, [], Ok tt)
    | Raise e => (0%nat, [], Raise e)
    end.
Proof.
  unfold monitor. rewrite summary_then. cbn [lift fst snd].
  destruct (int_of_float cap_frame_count) as [total|e]; [|reflexivity].
  rewrite summary_then.
  assert (T : summary frame
               (then_ frame (emit frame (Release frame))
                  (fun _ => then_ frame (emit frame (ProgressEmpty frame))
                     (fun _ => emit frame
                                 (Success frame "✅ Video processing complete!"))))
             = (0%nat, [], Ok tt)) by reflexivity.
  destruct cap_is_opened.
  - destruct (monitor_loop _ _ _ _ _ _ _ _ _ _ _ _ _ frames 0) as [t [[]|e]];
      cbn [fst snd]; [|reflexivity].
    cbv beta. rewrite T. unfold summary. cbn [fst snd].
    rewrite Nat.add_0_r, app_nil_r. reflexivity.
  - cbn [pure fst snd]. cbv beta. rewrite T. reflexivity.
Qed.

(** Every second frame is shown, at most. *)
Lemma monitor_shows_even_frames cap_is_opened cap_frame_count frames n ps r :
  summary frame
    (monitor frame frame_shape frame_copy cv2_resize cv2_rectangle cv2_putText
       cv2_addWeighted cv2_cvtColor model show_boxes capacity cap_is_opened
       cap_frame_count frames) = (n, ps, r) ->
  (n <= List.length frames / 2)%nat /\
  (r = Ok tt -> cap_is_opened = true -> n = (List.length frames / 2)%nat) /\
  List.length ps = n.
Proof.
  rewrite monitor_summary.
  destruct (int_of_float cap_frame_count) as [total|e].
  - destruct cap_is_opened.
    + intros H.
      destruct (monitor_loop_summary frame frame_shape frame_copy cv2_resize
                  cv2_rectangle cv2_putText cv2_addWeighted cv2_cvtColor model
                  show_boxes _ _ total frames 0 n ps r H) as (A & B & C & _).
      cbn zeta in A, B. rewrite Z.add_0_l in A, B.
      change (0 / 2) with 0 in A, B. rewrite Z.sub_0_r in A, B.
      change 2 with (Z.of_nat 2) in A, B. rewrite <- Nat2Z.inj_div in A, B.
      repeat split; try lia. intros R _. specialize (B R). lia.
    + intros H. injection H as <- <- <-.
      repeat split; try lia; discriminate.
  - intros H. injection H as <- <- <-.
    repeat split; try lia; discriminate.
Qed.

(** A capture that reports no frames stops the run at the first frame it
    shows. *)
Lemma monitor_zero_frame_count cap_frame_count frames :
  int_of_float cap_frame_count = Ok 0 -> (2 <= List.length frames)%nat ->
  exists e,
    summary frame
      (monitor frame frame_shape frame_copy cv2_resize cv2_rectangle
         cv2_putText cv2_addWeighted cv2_cvtColor model show_boxes capacity
         true cap_frame_count frames) = (0%nat, [], Raise e).
Proof.
  intros T L. rewrite monitor_summary, T.
  destruct frames as [|f1 [|f2 rest]]; cbn [List.length] in L; try lia.
  cbn [monitor_loop]. change ((0 + 1) mod 2 =? 0) with false.
  change ((0 + 1 + 1) mod 2 =? 0) with true. cbn [negb].
  change (0 + 1 + 1) with 2. rewrite summary_then.
  destruct (show_frame_summary frame frame_shape frame_copy cv2_resize
              cv2_rectangle cv2_putText cv2_addWeighted cv2_cvtColor model
              show_boxes (safe_capacity capacity) (max_capacity capacity) 0
              2 f2) as [(v & Hv & _)|(e & S)].
  - rewrite progress_zero_frames in Hv. discriminate.
  - exists e. unfold summary in S. injection S as S1 S2 S3.
    rewrite S3, S1, S2. reflexivity.
Qed.

(** With a positive frame count the progress bar stays within 0 and 100. *)
Lemma monitor_progress_in_range cap_is_opened cap_frame_count total frames :
  int_of_float cap_frame_count = Ok total -> 0 < total ->
  Z.of_nat (List.length frames) < 2 ^ 46 ->
  Forall (fun v => 0 <= v <= 100)
    (progress_values frame
       (fst (monitor frame frame_shape frame_copy cv2_resize cv2_rectangle
               cv2_putText cv2_addWeighted cv2_cvtColor model show_boxes
               capacity cap_is_opened cap_frame_count frames))).
Proof.
  intros T Ht L.
  pose proof (monitor_summary cap_is_opened cap_frame_count frames) as S.
  rewrite T in S. unfold summary at 1 in S.
  destruct cap_is_opened.
  - destruct (summary frame (monitor_loop _ _ _ _ _ _ _ _ _ _ _ _ _ frames 0))
      as [[n ps] r] eqn:E.
    injection S as _ -> _.
    destruct (monitor_loop_summary _ _ _ _ _ _ _ _ _ _ _ _ _ _ _ _ _ _ E)
      as (_ & _ & _ & D).
    eapply Forall_impl; [|exact D]. cbn beta.
    intros v (k & Hk & Hv).
    destruct (progress_in_range k total Ht ltac:(lia)) as (v' & Hv' & B & _).
    congruence.
  - injection S as _ -> _. constructor.
Qed.

End MonitorFacts.


(** * Facts about what the page and the frame show *)

Section DisplayFacts.

Variable frame : Type.
Variable frame_copy : frame -> exc frame.
Variable cv2_rectangle :
  frame -> Z * Z -> Z * Z -> Z * Z * Z -> Z -> exc frame.
Variable cv2_putText :
  frame -> string -> Z * Z -> pyval -> Z * Z * Z -> Z -> exc frame.
Variable cv2_addWeighted :
  frame -> float -> frame -> float -> Z -> exc frame.

(** The alert and the recommendations the page shows for a count. *)
Lemma boxes_by_count c s m r : get_alert_status c s m = Ok r ->
  (m <= c ->
   alert_box frame r = AlertError frame "🚨 Overcrowding Detected" /\
   rec_box frame r
   = RecInfo frame
       ("**💡 Recommendations:**" ++ nl ++ nl
        ++ "1. Stop all entries immediately" ++ nl
        ++ "2. Activate emergency protocols" ++ nl
        ++ "3. Deploy security personnel")) /\
  (c < m -> s <= c ->
   alert_box frame r = AlertWarning frame "⚠️ Approaching Capacity" /\
   rec_box frame r
   = RecInfo frame
       ("**💡 Recommendations:**" ++ nl ++ nl
        ++ "1. Reduce entry rate" ++ nl
        ++ "2. Increase monitoring" ++ nl
        ++ "3. Prepare dispersal plan")) /\
  (c < m -> c < s ->
   alert_box frame r = AlertSuccess frame "✅ Normal Operations" /\
   rec_box frame r = RecEmpty frame).
Proof.
  intros H. destruct (get_alert_status_inv c s m r H) as [_ [A E|A B E|A B E]];
    repeat split; intros; try lia;
    unfold alert_box, rec_box; rewrite E; cbn [status message recommendations];
    vm_compute; reflexivity.
Qed.

(** The percentage of a result can be printed at any number of decimals. *)
Lemma percentage_formats c s m r n : get_alert_status c s m = Ok r ->
  exists text, py_format_f n (percentage r) = Ok text /\
    (m <= 0 -> text = fixed_text n 0) /\
    (0 < m -> exists p, percentage r = PyFloat p /\ text = format_float n p).
Proof.
  intros H. destruct (get_alert_status_inv c s m r H) as [P _].
  destruct (Z_lt_le_dec 0 m) as [Hm|Hm].
  - destruct (percentage_pos_inv c s m r Hm H) as (q & _ & Hp).
    rewrite Hp. eexists. split; [reflexivity|]. split; [lia|].
    intros _. eexists. split; reflexivity.
  - rewrite alert_percentage_nonpos in P by assumption. injection P as <-.
    eexists. split; [reflexivity|]. split; [reflexivity|lia].
Qed.

(** Every count the page can show is written out. *)
Lemma double_bound_digits : double_bound < 10 ^ 4300.
Proof. vm_compute. reflexivity. Qed.

Lemma py_str_int_returns z : Z.abs z < 10 ^ 4300 ->
  py_str_int z = Ok (str_int z).
Proof.
  intros H. unfold py_str_int.
  destruct (Z.ltb_spec (Z.abs z) (10 ^ 4300)) as [L|L]; [reflexivity|].
  exfalso. apply (Z.lt_irrefl (Z.abs z)).
  apply Z.lt_le_trans with (10 ^ 4300); assumption.
Qed.

Lemma py_str_int_raises z : 10 ^ 4300 <= Z.abs z ->
  exists e, py_str_int z = Raise e /\ exn_class e = "ValueError".
Proof.
  intros H. unfold py_str_int.
  destruct (Z.ltb_spec (Z.abs z) (10 ^ 4300)) as [L|L].
  - exfalso. apply (Z.lt_irrefl (Z.abs z)).
    apply Z.lt_le_trans with (10 ^ 4300); assumption.
  - eexists. split; reflexivity.
Qed.

(** [annotate_frame] takes every result of [get_alert_status] and every
    count of at most 4300 digits: only OpenCV can make it fail. *)
Lemma annotate_frame_returns c s m r frm count :
  (forall f, exists f', frame_copy f = Ok f') ->
  (forall f p q col t, exists f', cv2_rectangle f p q col t = Ok f') ->
  (forall f text p sc col t, exists f', cv2_putText f text p sc col t = Ok f') ->
  (forall f a g b z, exists f', cv2_addWeighted f a g b z = Ok f') ->
  get_alert_status c s m = Ok r -> Z.abs count < 10 ^ 4300 ->
  exists annotated,
    annotate_frame frame frame_copy cv2_rectangle cv2_putText cv2_addWeighted
      frm count r = Ok annotated.
Proof.
  intros Copy Rect Text Weighted H D. unfold annotate_frame.
  destruct (Copy frm) as [a0 ->]. cbn [bind].
  destruct (Copy a0) as [o0 ->]. cbn [bind].
  destruct (Rect o0 (0, 0) (500, 180) (0, 0, 0) (-1)) as [o1 ->]. cbn [bind].
  destruct (Weighted o1 (float_literal 6 10) a0 (float_literal 4 10) 0)
    as [a1 ->]. cbn [bind].
  rewrite (py_str_int_returns count D). cbn [bind].
  destruct (Text a1 ("Count: " ++ str_int count) (15, 45)
              (PyFloat (float_literal 13 10)) (0, 255, 0) 3) as [a2 ->].
  cbn [bind].
  destruct (Text a2 (status_emoji r ++ " " ++ status r) (15, 95)
              (PyFloat (float_literal 13 10)) (color_bgr r) 3) as [a3 ->].
  cbn [bind].
  destruct (percentage_formats c s m r 1 H) as (text & -> & _). cbn [bind].
  destruct (Text a3 (text ++ "% of max") (15, 145)
              (PyFloat (float_literal 9 10)) (color_bgr r) 2) as [a4 ->].
  cbn [bind]. exists a4. reflexivity.
Qed.

(** A count of more digits stops it where the count is to be written. *)
Lemma annotate_frame_raises r frm count :
  (forall f, exists f', frame_copy f = Ok f') ->
  (forall f p q col t, exists f', cv2_rectangle f p q col t = Ok f') ->
  (forall f a g b z, exists f', cv2_addWeighted f a g b z = Ok f') ->
  10 ^ 4300 <= Z.abs count ->
  exists e,
    annotate_frame frame frame_copy cv2_rectangle cv2_putText cv2_addWeighted
      frm count r = Raise e /\ exn_class e = "ValueError".
Proof.
  intros Copy Rect Weighted D. unfold annotate_frame.
  destruct (Copy frm) as [a0 ->]. cbn [bind].
  destruct (Copy a0) as [o0 ->]. cbn [bind].
  destruct (Rect o0 (0, 0) (500, 180) (0, 0, 0) (-1)) as [o1 ->]. cbn [bind].
  destruct (Weighted o1 (float_literal 6 10) a0 (float_literal 4 10) 0)
    as [a1 ->]. cbn [bind].
  destruct (py_str_int_raises count D) as (e & -> & C).
  exists e. split; [reflexivity|exact C].
Qed.

End DisplayFacts.


(** * Facts about a run that reaches its end *)

Section CompletionFacts.

Variable frame : Type.
Variable frame_shape : frame -> exc (Z * Z).
Variable frame_copy : frame -> exc frame.
Variable cv2_resize : frame -> Z * Z -> exc frame.
Variable cv2_rectangle :
  frame -> Z * Z -> Z * Z -> Z * Z * Z -> Z -> exc frame.
Variable cv2_putText :
  frame -> string -> Z * Z -> pyval -> Z * Z * Z -> Z -> exc frame.
Variable cv2_addWeighted :
  frame -> float -> frame -> float -> Z -> exc frame.
Variable cv2_cvtColor : frame -> exc frame.

Variable model : drawing_detector frame.
Variable show_boxes : bool.
Variables safe max_cap total_frames : Z.

(** The copies and the OpenCV calls of the page succeed. *)
Hypothesis copy_returns : forall f, exists f', frame_copy f = Ok f'.
Hypothesis rectangle_returns :
  forall f p q col t, exists f', cv2_rectangle f p q col t = Ok f'.
Hypothesis putText_returns :
  forall f text p sc col t, exists f', cv2_putText f text p sc col t = Ok f'.
Hypothesis addWeighted_returns :
  forall f a g b z, exists f', cv2_addWeighted f a g b z = Ok f'.
Hypothesis cvtColor_returns : forall f, exists f', cv2_cvtColor f = Ok f'.

(** The model returns fewer boxes than a float can count. *)
Hypothesis boxes_bounded :
  forall f conf iou results, model f conf iou = Ok results ->
    Z.of_nat (List.length (flat_map result_boxes (map as_result results)))
    < double_bound.

Hypothesis max_cap_positive : 0 < max_cap.

Lemma count_bounded frm :
  exists k,
    fst (count_people_in_frame frame frame_shape cv2_resize
           (counting frame model) frm) = Ok k /\
    0 <= k < double_bound.
Proof.
  unfold count_people_in_frame.
  destruct (count_people_body frame frame_shape cv2_resize
              (counting frame model) frm) as [k|e] eqn:E; cbn [fst].
  - exists k. split; [reflexivity|].
    destruct (count_people_body_inv _ _ _ _ _ _ E) as (resized & rs' & M & C).
    unfold counting in M.
    destruct (model resized _ _) as [rs|] eqn:M'; [|discriminate M].
    cbn [bind] in M. injection M as <-.
    destruct (count_results_inv _ _ C) as [_ ->].
    pose proof (person_boxes_le (map as_result rs)) as L.
    pose proof (boxes_bounded _ _ _ _ M') as B. lia.
  - exists 0. split; [reflexivity|]. split; [lia|reflexivity].
Qed.

Lemma snd_then {A B} (c : run frame A) (k : A -> run frame B) :
  snd (then_ frame c k)
  = match snd c with
    | Ok a => snd (k a)
    | Raise e => Raise e
    end.
Proof.
  destruct c as [t [a|e]]; cbn [then_ snd]; [|reflexivity].
  destruct (k a). reflexivity.
Qed.

(** Of a frame that is shown, only the progress bar can still fail. *)
Lemma show_frame_ends frame_count frm :
  snd (show_frame frame frame_shape frame_copy cv2_resize cv2_rectangle
         cv2_putText cv2_addWeighted cv2_cvtColor model show_boxes safe
         max_cap total_frames frame_count frm)
  = match progress_value frame_count total_frames with
    | Ok _ => Ok tt
    | Raise e => Raise e
    end.
Proof.
  unfold show_frame.
  destruct (count_bounded frm) as (k & Hk & Bk).
  destruct (count_people_in_frame _ _ _ _ frm) as [count printed].
  cbn [fst] in Hk. subst count.
  rewrite snd_then. cbn [snd]. rewrite snd_then. cbn [lift snd].
  assert (Q : quotient_in_range k max_cap).
  { right. rewrite Z.abs_eq by lia.
    apply Z.lt_le_trans with (double_bound * 1);
      [rewrite Z.mul_1_r; exact (proj2 Bk)|].
    apply Z.mul_le_mono_nonneg_l; [|lia]. apply Z.lt_le_incl. reflexivity. }
  destruct (get_alert_status_total k safe max_cap Q) as [alert Ha].
  rewrite snd_then. cbn [lift snd]. rewrite Ha.
  rewrite snd_then.
  match goal with
  | |- match snd ?c with _ => _ end = _ =>
      assert (A : exists annotated, snd c = Ok annotated)
  end.
  { destruct show_boxes.
    - destruct (draw_detections _ _ _ _ _ _ frm model) as [a t].
      exists a. reflexivity.
    - assert (D : Z.abs k < 10 ^ 4300).
      { rewrite Z.abs_eq by apply Bk.
        apply Z.lt_trans with double_bound;
          [apply Bk|exact double_bound_digits]. }
      destruct (annotate_frame_returns frame frame_copy cv2_rectangle
                  cv2_putText cv2_addWeighted k safe max_cap alert frm k
                  copy_returns rectangle_returns putText_returns
                  addWeighted_returns Ha D) as [a Hann].
      exists a. cbn [lift snd]. exact Hann. }
  destruct A as [annotated ->].
  rewrite snd_then. cbn [emit snd]. rewrite snd_then. cbn [emit snd].
  destruct (percentage_formats k safe max_cap alert 0 Ha) as (pct & Hp & _).
  rewrite snd_then. cbn [lift snd]. rewrite Hp.
  rewrite snd_then. cbn [emit snd].
  destruct (cvtColor_returns annotated) as [image Hi].
  rewrite snd_then. cbn [lift snd]. rewrite Hi.
  rewrite snd_then. cbn [emit snd]. rewrite snd_then. cbn [emit snd].
  rewrite snd_then. cbn [emit snd].
  rewrite snd_then. cbn [lift snd].
  destruct (progress_value frame_count total_frames) as [v|e];
    [|reflexivity].
  rewrite snd_then. cbn [emit snd]. reflexivity.
Qed.

(** A frame is shown to the end. *)
Lemma show_frame_completes frame_count frm : 0 < total_frames ->
  0 <= frame_count < 2 ^ 46 ->
  snd (show_frame frame frame_shape frame_copy cv2_resize cv2_rectangle
         cv2_putText cv2_addWeighted cv2_cvtColor model show_boxes safe
         max_cap total_frames frame_count frm) = Ok tt.
Proof.
  intros Ht Hf. rewrite show_frame_ends.
  destruct (progress_in_range frame_count total_frames Ht Hf) as (v & Hv & _).
  rewrite Hv. reflexivity.
Qed.

Lemma monitor_loop_completes frames frame_count : 0 < total_frames ->
  0 <= frame_count ->
  frame_count + Z.of_nat (List.length frames) < 2 ^ 46 ->
  snd (monitor_loop frame frame_shape frame_copy cv2_resize cv2_rectangle
         cv2_putText cv2_addWeighted cv2_cvtColor model show_boxes safe
         max_cap total_frames frames frame_count) = Ok tt.
Proof.
  intros Ht. revert frame_count.
  induction frames as [|frm rest IH]; intros fc Hf Hl;
    cbn [monitor_loop]; [reflexivity|].
  cbn [List.length] in Hl. rewrite Nat2Z.inj_succ in Hl.
  destruct (negb ((fc + 1) mod 2 =? 0)).
  - apply IH; lia.
  - rewrite snd_then. rewrite show_frame_completes by lia. apply IH; lia.
Qed.

(** Without a frame count the first frame shown is the last. *)
Lemma monitor_loop_zero_division f1 f2 rest : total_frames = 0 ->
  snd (monitor_loop frame frame_shape frame_copy cv2_resize cv2_rectangle
         cv2_putText cv2_addWeighted cv2_cvtColor model show_boxes safe
         max_cap total_frames (f1 :: f2 :: rest) 0)
  = Raise (ZeroDivisionError "division by zero").
Proof.
  intros T. cbn [monitor_loop]. change ((0 + 1) mod 2 =? 0) with false.
  change ((0 + 1 + 1) mod 2 =? 0) with true. cbn [negb].
  rewrite snd_then. rewrite show_frame_ends.
  rewrite T, progress_zero_frames. reflexivity.
Qed.

End CompletionFacts.

Section RunFacts.

Variable frame : Type.
Variable frame_shape : frame -> exc (Z * Z).
Variable frame_copy : frame -> exc frame.
Variable cv2_resize : frame -> Z * Z -> exc frame.
Variable cv2_rectangle :
  frame -> Z * Z -> Z * Z -> Z * Z * Z -> Z -> exc frame.
Variable cv2_putText :
  frame -> string -> Z * Z -> pyval -> Z * Z * Z -> Z -> exc frame.
Variable cv2_addWeighted :
  frame -> float -> frame -> float -> Z -> exc frame.
Variable cv2_cvtColor : frame -> exc frame.

(** With OpenCV at work, a positive maximum and a positive frame count, the
    run reaches its final message. *)
Lemma monitor_completes (model : drawing_detector frame) show_boxes capacity
  cap_is_opened cap_frame_count total_frames frames :
  (forall f, exists f', frame_copy f = Ok f') ->
  (forall f p q col t, exists f', cv2_rectangle f p q col t = Ok f') ->
  (forall f text p sc col t,
     exists f', cv2_putText f text p sc col t = Ok f') ->
  (forall f a g b z, exists f', cv2_addWeighted f a g b z = Ok f') ->
  (forall f, exists f', cv2_cvtColor f = Ok f') ->
  (forall f conf iou results, model f conf iou = Ok results ->
     Z.of_nat (List.length (flat_map result_boxes (map as_result results)))
     < double_bound) ->
  0 < max_capacity capacity ->
  int_of_float cap_frame_count = Ok total_frames -> 0 < total_frames ->
  Z.of_nat (List.length frames) < 2 ^ 46 ->
  snd (monitor frame frame_shape frame_copy cv2_resize cv2_rectangle
         cv2_putText cv2_addWeighted cv2_cvtColor model show_boxes capacity
         cap_is_opened cap_frame_count frames) = Ok tt.
Proof.
  intros Copy Rect Text Weighted Color Boxes Hm T Ht L.
  unfold monitor. rewrite snd_then. cbn [lift snd]. rewrite T.
  cbv zeta. rewrite snd_then.
  match goal with
  | |- match snd ?c with _ => _ end = _ => assert (E : snd c = Ok tt)
  end.
  { destruct cap_is_opened; [|reflexivity].
    apply monitor_loop_completes; try assumption; lia. }
  rewrite E. reflexivity.
Qed.

(** With OpenCV at work and a positive maximum, a frame count of 0 ends the
    run in the division of the progress bar. *)
Lemma monitor_zero_division (model : drawing_detector frame) show_boxes
  capacity cap_frame_count frames :
  (forall f, exists f', frame_copy f = Ok f') ->
  (forall f p q col t, exists f', cv2_rectangle f p q col t = Ok f') ->
  (forall f text p sc col t,
     exists f', cv2_putText f text p sc col t = Ok f') ->
  (forall f a g b z, exists f', cv2_addWeighted f a g b z = Ok f') ->
  (forall f, exists f', cv2_cvtColor f = Ok f') ->
  (forall f conf iou results, model f conf iou = Ok results ->
     Z.of_nat (List.length (flat_map result_boxes (map as_result results)))
     < double_bound) ->
  0 < max_capacity capacity ->
  int_of_float cap_frame_count = Ok 0 -> (2 <= List.length frames)%nat ->
  snd (monitor frame frame_shape frame_copy cv2_resize cv2_rectangle
         cv2_putText cv2_addWeighted cv2_cvtColor model show_boxes capacity
         true cap_frame_count frames)
  = Raise (ZeroDivisionError "division by zero").
Proof.
  intros Copy Rect Text Weighted Color Boxes Hm T L.
  destruct frames as [|f1 [|f2 rest]]; cbn [List.length] in L; try lia.
  unfold monitor. rewrite snd_then. cbn [lift snd]. rewrite T.
  cbv zeta. rewrite snd_then.
  rewrite monitor_loop_zero_division by (try assumption; reflexivity).
  reflexivity.
Qed.

End RunFacts.


(** * Facts about the venue form *)

Module SessionFacts.

Lemma new_session_settled : settled new_session.
Proof. split; [discriminate|]. intros d H. discriminate H. Qed.

Lemma with_defaults_settled st : settled st -> settled (with_defaults st).
Proof.
  intros [A B]. split.
  - unfold with_defaults; cbn [capacity_calculated].
    destruct (capacity_calculated st) as [[|]|]; congruence.
  - intros d H. apply B. revert H. unfold with_defaults; cbn [capacity].
    destruct (capacity st) as [[c|]|]; cbn [truthy]; congruence.
Qed.

Lemma truthy_defaults st :
  truthy (capacity (with_defaults st)) = truthy (capacity st).
Proof.
  unfold with_defaults; cbn [capacity].
  destruct (capacity st) as [[c|]|]; reflexivity.
Qed.

Lemma venue_form_settled st area clicked : settled st -> 50 <= area ->
  settled (fst (venue_form st area clicked)).
Proof.
  intros S Ha. apply with_defaults_settled in S. unfold venue_form.
  destruct clicked.
  - destruct (estimate_venue_capacity (PyInt area)) as [d|e] eqn:E;
      cbn [fst truthy capacity capacity_calculated]; [|exact S].
    split; [discriminate|]. cbn [capacity truthy]. intros d' H.
    injection H as <-. exists area. split; assumption.
  - pose proof S as [A _].
    destruct (truthy (capacity (with_defaults st))) as [d|].
    + destruct (capacity_calculated (with_defaults st)) as [[|]|];
        try congruence; cbn [fst]; exact S.
    + cbn [fst]. exact S.
Qed.

Lemma reachable_settled st : reachable st -> settled st.
Proof.
  induction 1 as [|st area clicked R IH Ha].
  - exact new_session_settled.
  - apply venue_form_settled; assumption.
Qed.

(** What a run goes on to show. *)
Lemma venue_form_page st area clicked : settled st ->
  snd (venue_form st area clicked)
  = if clicked then
      match estimate_venue_capacity (PyInt area) with
      | Ok d => Ok (Monitoring d true)
      | Raise e => Raise e
      end
    else
      match truthy (capacity st) with
      | Some d => Ok (Monitoring d false)
      | None => Ok AskForCapacity
      end.
Proof.
  intros S. apply with_defaults_settled in S. unfold venue_form.
  destruct clicked.
  - destruct (estimate_venue_capacity (PyInt area)) as [d|e]; reflexivity.
  - pose proof (truthy_defaults st) as T. destruct S as [A _].
    destruct (truthy (capacity (with_defaults st))) as [d|]; rewrite <- T;
      [|reflexivity].
    destruct (capacity_calculated (with_defaults st)) as [[|]|];
      try congruence; reflexivity.
Qed.

(** The capacity a run leaves in the session. *)
Lemma venue_form_keeps st area clicked : settled st ->
  truthy (capacity (fst (venue_form st area clicked)))
  = if clicked then
      match estimate_venue_capacity (PyInt area) with
      | Ok d => Some d
      | Raise _ => truthy (capacity st)
      end
    else truthy (capacity st).
Proof.
  intros S. apply with_defaults_settled in S. unfold venue_form.
  destruct clicked.
  - destruct (estimate_venue_capacity (PyInt area)) as [d|e];
      cbn [fst capacity truthy]; [reflexivity|apply truthy_defaults].
  - pose proof (truthy_defaults st) as D.
    destruct (truthy (capacity (with_defaults st))) as [d|] eqn:T;
      rewrite <- D.
    + destruct (capacity_calculated (with_defaults st)) as [[|]|];
        cbn [fst capacity]; exact T.
    + cbn [fst]. exact T.
Qed.

(** The capacities a session holds are those of an area of 50 or more. *)
Lemma settled_capacity st d : settled st -> truthy (capacity st) = Some d ->
  20 <= safe_capacity d /\ 33 <= max_capacity d.
Proof.
  intros [_ B] T. destruct (B d T) as (area & Ha & E).
  assert (Hb : area < double_bound).
  { apply estimate_int_returns_iff. exists d. exact E. }
  destruct (estimate_mono (PyInt 50) (PyInt area)) as (r1 & r & H1 & H & S & M).
  - reflexivity.
  - exact Hb.
  - reflexivity.
  - cbn [py_le]. f_equal. apply Z.leb_le. lia.
  - rewrite estimate_50 in H1. injection H1 as <-.
    rewrite E in H. injection H as <-.
    cbn [safe_capacity max_capacity] in S, M. split; assumption.
Qed.

End SessionFacts.

Import SessionFacts.


(** * Further properties of [get_alert_status] *)

(** X1.  With a positive [max_capacity] the percentage is a float that sits
    on the side of 100.0 its status says: at least 100.0 for CRITICAL, at
    most 100.0 for WARNING and SAFE (where rounding can bring it up to
    100.0 itself).  It is not negative for a count that is not, exactly
    100.0 for a count equal to [max_capacity] and exactly 0.0 for no
    count. *)
Theorem percentage_against_status c s m r : 0 < m ->
  get_alert_status c s m = Ok r ->
  exists p, percentage r = PyFloat p /\
    (status r = "CRITICAL" -> float_le hundred p = true) /\
    (status r <> "CRITICAL" -> float_le p hundred = true) /\
    (0 <= c -> float_le (S754_zero false) p = true) /\
    (c = m -> p = hundred) /\ (c = 0 -> p = S754_zero false).
Proof.
  intros Hm Hr.
  destruct (percentage_pos_inv c s m r Hm Hr) as (q & Hq & Hp).
  exists (float_mul q hundred). split; [assumption|].
  assert (S : (m <= c /\ status r = "CRITICAL") \/
              (c < m /\ status r <> "CRITICAL")).
  { destruct (status_cases c s m r Hr) as [[A E]|[(A & B & E)|(A & B & E)]];
      [left|right|right]; (split; [assumption|]); rewrite E;
      try reflexivity; discriminate. }
  split; [|split; [|split; [|split]]].
  - intros E. destruct S as [[A _]|[_ B]]; [|contradiction].
    apply (percentage_above c m); assumption.
  - intros E. destruct S as [[_ B]|[A _]]; [contradiction|].
    apply (percentage_below c m); try assumption. lia.
  - intros Hc. apply (percentage_nonneg c m); assumption.
  - intros ->. rewrite int_truediv_self in Hq by assumption.
    injection Hq as <-. apply hundred_percent.
  - intros ->. rewrite int_truediv_zero in Hq by assumption.
    injection Hq as <-. reflexivity.
Qed.

Lemma percentage_against_status_witness :
  0 < 2 ^ 54 /\
  exists r, get_alert_status (2 ^ 54 - 1) 1 (2 ^ 54) = Ok r /\
    status r = "WARNING" /\ percentage r = PyFloat hundred /\
    float_le hundred hundred = true.
Proof.
  split; [reflexivity|].
  destruct (get_alert_status (2 ^ 54 - 1) 1 (2 ^ 54)) as [r|] eqn:E;
    [|discriminate E].
  exists r. split; [reflexivity|].
  assert (S : status r = "WARNING" /\ percentage r = PyFloat hundred)
    by (revert E; vm_compute; intros E; injection E as <-; split; reflexivity).
  destruct S as [S P]. split; [exact S|]. split; [exact P|].
  destruct (percentage_against_status (2 ^ 54 - 1) 1 (2 ^ 54) r eq_refl E)
    as (p & Hp & _ & B & _).
  rewrite P in Hp. injection Hp as <-. apply B. rewrite S. discriminate.
Defined.

(** X2.  Larger capacities never make a count more severe: if
    [safe_capacity] and [max_capacity] are both raised (or kept), the
    status of the same count stays or moves down in the order
    SAFE < WARNING < CRITICAL, and for a count that is not negative and
    positive maxima its percentage does not grow. *)
Theorem larger_capacities_lower_status c s1 m1 s2 m2 r1 r2 :
  s1 <= s2 -> m1 <= m2 ->
  get_alert_status c s1 m1 = Ok r1 -> get_alert_status c s2 m2 = Ok r2 ->
  status_le (status r2) (status r1) /\
  (0 <= c -> 0 < m1 -> py_le (percentage r2) (percentage r1) = Ok true).
Proof.
  intros Hs Hm H1 H2. split.
  - apply (status_antitone c s1 m1 s2 m2); assumption.
  - intros Hc Hp.
    destruct (percentage_pos_inv c s1 m1 r1 Hp H1) as (q1 & Q1 & ->).
    destruct (percentage_pos_inv c s2 m2 r2 ltac:(lia) H2) as (q2 & Q2 & ->).
    cbn [py_le]. f_equal.
    apply (percentage_max_antitone c m1 m2); try assumption. lia.
Qed.

Lemma larger_capacities_lower_status_witness :
  200 <= 300 /\ 335 <= 500 /\
  exists r1 r2, get_alert_status 340 200 335 = Ok r1 /\
    get_alert_status 340 300 500 = Ok r2 /\
    status_le (status r2) (status r1) /\
    py_le (percentage r2) (percentage r1) = Ok true.
Proof.
  split; [lia|]. split; [lia|].
  destruct (get_alert_status 340 200 335) as [r1|] eqn:E1; [|discriminate E1].
  destruct (get_alert_status 340 300 500) as [r2|] eqn:E2; [|discriminate E2].
  exists r1, r2. split; [reflexivity|]. split; [reflexivity|].
  destruct (larger_capacities_lower_status 340 200 335 300 500 r1 r2
              ltac:(lia) ltac:(lia) E1 E2) as [S P].
  split; [exact S|]. apply P; lia.
Defined.

(** X3.  Every key of the returned dictionary except the percentage is a
    function of the status: two results of the same status, whatever the
    calls that gave them, carry the same emoji, colour name, BGR colour,
    message and recommendations. *)
Theorem fields_follow_status c1 s1 m1 c2 s2 m2 r1 r2 :
  get_alert_status c1 s1 m1 = Ok r1 -> get_alert_status c2 s2 m2 = Ok r2 ->
  status r1 = status r2 ->
  status_emoji r1 = status_emoji r2 /\ color r1 = color r2 /\
  color_bgr r1 = color_bgr r2 /\ message r1 = message r2 /\
  recommendations r1 = recommendations r2.
Proof. apply same_status_same_fields. Qed.

Lemma fields_follow_status_witness :
  exists r1 r2, get_alert_status 250 200 335 = Ok r1 /\
    get_alert_status 7 5 25 = Ok r2 /\
    status r1 = status r2 /\ color_bgr r1 = color_bgr r2 /\
    recommendations r1 = recommendations r2.
Proof.
  destruct (get_alert_status 250 200 335) as [r1|] eqn:E1; [|discriminate E1].
  destruct (get_alert_status 7 5 25) as [r2|] eqn:E2; [|discriminate E2].
  exists r1, r2. split; [reflexivity|]. split; [reflexivity|].
  assert (S : status r1 = status r2).
  { revert E1 E2. vm_compute. intros E1 E2.
    injection E1 as <-. injection E2 as <-. reflexivity. }
  split; [exact S|].
  destruct (fields_follow_status 250 200 335 7 5 25 r1 r2 E1 E2 S)
    as (_ & _ & B & _ & R).
  split; assumption.
Defined.

(** * Further properties of [estimate_venue_capacity] *)

(** X4.  The two capacities of an estimate, used as the thresholds of
    [get_alert_status] (as the page does), split the counts into three
    ranges that leave nothing out and do not overlap: SAFE below
    [safe_capacity], WARNING from [safe_capacity] up to [max_capacity]
    excluded, CRITICAL from [max_capacity] on. *)
Theorem estimate_thresholds_split_counts a n r al :
  estimate_venue_capacity a = Ok r ->
  get_alert_status n (safe_capacity r) (max_capacity r) = Ok al ->
  (status al = "SAFE" <-> n < safe_capacity r) /\
  (status al = "WARNING" <-> safe_capacity r <= n < max_capacity r) /\
  (status al = "CRITICAL" <-> max_capacity r <= n).
Proof. apply estimate_then_alert. Qed.

Lemma estimate_thresholds_split_counts_witness :
  estimate_venue_capacity (PyInt 500)
  = Ok (mkCapacityEstimate (PyInt 500) 200 335) /\
  exists al, get_alert_status 250 200 335 = Ok al /\
    (status al = "WARNING" <-> 200 <= 250 < 335).
Proof.
  split; [exact estimate_default|].
  destruct (get_alert_status 250 200 335) as [al|] eqn:A; [|discriminate A].
  exists al. split; [reflexivity|].
  exact (proj1 (proj2 (estimate_thresholds_split_counts (PyInt 500) 250
                         (mkCapacityEstimate (PyInt 500) 200 335) al
                         estimate_default A))).
Defined.

(** X5.  The venue form only lets areas from 50 square metres on through.
    For every such integer area within the range of a float the estimate
    returns, with a safe capacity of at least 20 and a maximum of at least
    33, and every count that is not negative and within the range of a
    float is then classified, with a float as percentage. *)
Theorem venue_form_is_monitored z n :
  50 <= z < double_bound -> 0 <= n < double_bound ->
  exists r al p, estimate_venue_capacity (PyInt z) = Ok r /\
    20 <= safe_capacity r /\ 33 <= max_capacity r /\
    get_alert_status n (safe_capacity r) (max_capacity r) = Ok al /\
    percentage al = PyFloat p.
Proof. apply monitored_venue. Qed.

Lemma venue_form_is_monitored_witness :
  (50 <= 750 < double_bound /\ 0 <= 410 < double_bound) /\
  exists r al p, estimate_venue_capacity (PyInt 750) = Ok r /\
    20 <= safe_capacity r /\ 33 <= max_capacity r /\
    get_alert_status 410 (safe_capacity r) (max_capacity r) = Ok al /\
    percentage al = PyFloat p.
Proof.
  assert (H1 : 50 <= 750 < double_bound) by (split; [lia|reflexivity]).
  assert (H2 : 0 <= 410 < double_bound) by (split; [lia|reflexivity]).
  split; [split; assumption|].
  exact (venue_form_is_monitored 750 410 H1 H2).
Defined.

(** X6.  The capacities grow with the area: for two areas within range
    (integers or floats, compared as Python compares them), the smaller one
    positive, both calls return and neither capacity of the larger area is
    below that of the smaller. *)
Theorem capacities_grow_with_area a1 a2 :
  area_in_range a1 -> area_in_range a2 ->
  py_le a1 (PyInt 0) = Ok false -> py_le a1 a2 = Ok true ->
  exists r1 r2, estimate_venue_capacity a1 = Ok r1 /\
    estimate_venue_capacity a2 = Ok r2 /\
    safe_capacity r1 <= safe_capacity r2 /\ max_capacity r1 <= max_capacity r2.
Proof.
  intros R1 R2 K L. apply estimate_mono; try assumption.
  apply kept_area_iff. assumption.
Qed.

Lemma capacities_grow_with_area_witness :
  exists r1 r2,
    estimate_venue_capacity (PyInt 120) = Ok r1 /\
    estimate_venue_capacity (PyFloat (float_literal 2505 10)) = Ok r2 /\
    safe_capacity r1 <= safe_capacity r2 /\ max_capacity r1 <= max_capacity r2.
Proof.
  apply (capacities_grow_with_area (PyInt 120)
           (PyFloat (float_literal 2505 10))).
  - reflexivity.
  - split; reflexivity.
  - reflexivity.
  - reflexivity.
Defined.

(** X7.  The area an estimate reports is positive, and estimating again
    from it gives the same dictionary: the default area 500 stands for
    itself. *)
Theorem estimate_again_from_area a r : estimate_venue_capacity a = Ok r ->
  estimate_venue_capacity (area r) = Ok r /\
  py_le (area r) (PyInt 0) = Ok false.
Proof.
  intros H. destruct (estimate_area_fixed a r H) as [F K].
  split; [exact F|]. apply kept_area_iff. exact K.
Qed.

Lemma estimate_again_from_area_witness :
  exists r, estimate_venue_capacity (PyInt (-10)) = Ok r /\
    area r = PyInt 500 /\ estimate_venue_capacity (area r) = Ok r.
Proof.
  destruct (estimate_venue_capacity (PyInt (-10))) as [r|] eqn:E;
    [|discriminate E].
  exists r. split; [reflexivity|]. split.
  - revert E. vm_compute. intros E. injection E as <-. reflexivity.
  - exact (proj1 (estimate_again_from_area (PyInt (-10)) r E)).
Defined.

(** X8.  On a float area: NaN raises [ValueError] and plus infinity raises
    [OverflowError] (neither is [<= 0], and [int] refuses them); every
    other float returns, and one that is [<= 0], minus infinity included,
    gets the default estimate 500 / 200 / 335. *)
Theorem estimate_on_float_areas f : is_float f = true ->
  (f = S754_nan ->
   estimate_venue_capacity (PyFloat f)
   = Raise (ValueError "cannot convert float NaN to integer")) /\
  (f = S754_infinity false ->
   estimate_venue_capacity (PyFloat f)
   = Raise (OverflowError "cannot convert float infinity to integer")) /\
  (f <> S754_nan -> f <> S754_infinity false ->
   exists r, estimate_venue_capacity (PyFloat f) = Ok r) /\
  (float_le_int f 0 = true ->
   estimate_venue_capacity (PyFloat f)
   = Ok (mkCapacityEstimate (PyInt 500) 200 335)).
Proof.
  intros V. split; [|split; [|split]].
  - intros ->. exact estimate_nan.
  - intros ->. exact estimate_inf.
  - apply estimate_float_returns. exact V.
  - intros L. apply estimate_replaced. right. cbn [py_le]. rewrite L.
    reflexivity.
Qed.

Lemma estimate_on_float_areas_witness :
  is_float (S754_infinity true) = true /\
  estimate_venue_capacity (PyFloat (S754_infinity true))
  = Ok (mkCapacityEstimate (PyInt 500) 200 335).
Proof.
  split; [reflexivity|].
  exact (proj2 (proj2 (proj2 (estimate_on_float_areas (S754_infinity true)
                                eq_refl))) eq_refl).
Defined.

(** X9.  For an integer area from 3 up to [10^13] square metres the
    capacities are strictly ordered and below the area:
    [1 <= safe_capacity < max_capacity < area]. *)
Theorem capacities_below_area z r : 3 <= z <= 10 ^ 13 ->
  estimate_venue_capacity (PyInt z) = Ok r ->
  1 <= safe_capacity r /\ safe_capacity r < max_capacity r /\
  max_capacity r < z.
Proof. apply estimate_int_bounds. Qed.

Lemma capacities_below_area_witness :
  3 <= 50 <= 10 ^ 13 /\
  exists r, estimate_venue_capacity (PyInt 50) = Ok r /\
    1 <= safe_capacity r /\ safe_capacity r < max_capacity r /\
    max_capacity r < 50.
Proof.
  assert (H : 3 <= 50 <= 10 ^ 13) by (split; [lia|discriminate]).
  split; [exact H|].
  destruct (estimate_venue_capacity (PyInt 50)) as [r|] eqn:E;
    [|discriminate E].
  exists r. split; [reflexivity|].
  exact (capacities_below_area 50 r H E).
Defined.

(** * Further properties of [count_people_in_frame] *)

(** X10.  When [count_people_in_frame] prints no error, the model was
    called, every class id of every box it returned could be read, and the
    count is the number of boxes whose class id is the person class, over
    all results (a result whose [boxes] is [None] or empty adds nothing);
    it never exceeds the number of boxes. *)
Theorem count_is_person_boxes (frame : Type)
  (frame_shape : frame -> exc (Z * Z))
  (cv2_resize : frame -> Z * Z -> exc frame)
  (model : detector frame) (frm : frame) :
  snd (count_people_in_frame frame frame_shape cv2_resize model frm) = [] ->
  exists resized results,
    model resized (float_literal 25 100) (float_literal 5 10) = Ok results /\
    readable (flat_map result_boxes results) /\
    fst (count_people_in_frame frame frame_shape cv2_resize model frm)
    = Ok (Z.of_nat (List.length (person_boxes results))) /\
    (List.length (person_boxes results)
     <= List.length (flat_map result_boxes results))%nat.
Proof. apply count_people_counts. Qed.

Lemma count_is_person_boxes_witness :
  fst (count_people_in_frame unit (fun _ => Ok (480, 640)) (fun f _ => Ok f)
         (fun _ _ _ =>
            Ok [ mkResult (Some [mkBox [PyInt 0]; mkBox [PyInt 2];
                                 mkBox [PyFloat (float_literal 0 1)]]);
                 mkResult None; mkResult (Some []) ]) tt)
  = Ok 2.
Proof.
  destruct (count_is_person_boxes unit (fun _ => Ok (480, 640))
              (fun f _ => Ok f)
              (fun _ _ _ =>
                 Ok [ mkResult (Some [mkBox [PyInt 0]; mkBox [PyInt 2];
                                      mkBox [PyFloat (float_literal 0 1)]]);
                      mkResult None; mkResult (Some []) ]) tt eq_refl)
    as (resized & results & M & _ & C & _).
  injection M as <-. exact C.
Defined.

(** X11.  One class id that cannot be read voids the whole count: if what
    the model returns always holds a box whose [cls] is empty or is not a
    number, the function returns 0 and prints one error line, however many
    person boxes were detected. *)
Theorem unreadable_class_id_voids_count (frame : Type)
  (frame_shape : frame -> exc (Z * Z))
  (cv2_resize : frame -> Z * Z -> exc frame)
  (model : detector frame) (frm : frame) :
  (forall f conf iou results, model f conf iou = Ok results ->
     ~ readable (flat_map result_boxes results)) ->
  fst (count_people_in_frame frame frame_shape cv2_resize model frm) = Ok 0 /\
  exists line,
    snd (count_people_in_frame frame frame_shape cv2_resize model frm)
    = [line].
Proof. apply count_people_unreadable. Qed.

Lemma unreadable_class_id_voids_count_witness :
  fst (count_people_in_frame unit (fun _ => Ok (480, 640)) (fun f _ => Ok f)
         (fun _ _ _ =>
            Ok [mkResult (Some [mkBox [PyInt 0]; mkBox [PyInt 0]; mkBox []])])
         tt)
  = Ok 0.
Proof.
  apply (unreadable_class_id_voids_count unit (fun _ => Ok (480, 640))
           (fun f _ => Ok f)
           (fun _ _ _ =>
              Ok [mkResult (Some [mkBox [PyInt 0]; mkBox [PyInt 0];
                                  mkBox []])]) tt).
  intros f conf iou results M R. injection M as <-.
  destruct (R (mkBox []) (or_intror (or_intror (or_introl eq_refl))))
    as [class_id H].
  discriminate H.
Defined.

(** X12.  A frame of width up to 1280 goes to the model as it is.  A wider
    one (of a height below [2^53]) is first resized to width 1280 and to the
    height [int(height * (1280 / width))], the quotient and the product
    taken in float arithmetic, and that height is never above its own:
    frames are shrunk, not enlarged. *)
Theorem wide_frame_is_shrunk (frame : Type)
  (frame_shape : frame -> exc (Z * Z))
  (cv2_resize : frame -> Z * Z -> exc frame)
  (model : detector frame) (frm : frame) (height width : Z) :
  frame_shape frm = Ok (height, width) ->
  (width <= 1280 ->
   count_people_body frame frame_shape cv2_resize model frm
   = (results <- model frm (float_literal 25 100) (float_literal 5 10) ;;
      count_results results 0)) /\
  (1280 < width -> 0 <= height < 2 ^ 53 ->
   exists scale new_height,
     int_truediv 1280 width = Ok scale /\
     (x <- py_mul (PyInt height) (PyFloat scale) ;; py_int x)
     = Ok new_height /\
     0 <= new_height <= height /\
     count_people_body frame frame_shape cv2_resize model frm
     = (resized <- cv2_resize frm (1280, new_height) ;;
        results <-
          model resized (float_literal 25 100) (float_literal 5 10) ;;
        count_results results 0)).
Proof.
  intros Hs. split.
  - apply (count_people_body_narrow frame frame_shape cv2_resize model frm
             height width Hs).
  - apply (count_people_body_wide frame frame_shape cv2_resize model frm
             height width Hs).
Qed.

Lemma wide_frame_is_shrunk_witness :
  (1280 < 1920 /\ 0 <= 1080 < 2 ^ 53) /\
  count_people_body (Z * Z) (fun _ => Ok (1080, 1920))
    (fun _ size => Ok size)
    (fun resized _ _ =>
       Ok [mkResult (Some (repeat (mkBox [PyInt 0])
                                     (Z.to_nat (snd resized))))])
    (1920, 1080)
  = Ok 720.
Proof.
  assert (H1 : 1280 < 1920) by reflexivity.
  assert (H2 : 0 <= 1080 < 2 ^ 53) by (split; [discriminate|reflexivity]).
  split; [split; assumption|].
  destruct (proj2 (wide_frame_is_shrunk (Z * Z) (fun _ => Ok (1080, 1920))
                     (fun _ size => Ok size)
                     (fun resized _ _ =>
                        Ok [mkResult
                              (Some (repeat (mkBox [PyInt 0])
                                       (Z.to_nat (snd resized))))])
                     (1920, 1080) 1080 1920 eq_refl) H1 H2)
    as (scale & nh & S & N & B & E).
  rewrite E.
  assert (Hs : scale = S754_finite false 6004799503160661 (-53)).
  { revert S. vm_compute. intros S. injection S as <-. reflexivity. }
  assert (Hn : nh = 720).
  { revert N. rewrite Hs. vm_compute. intros N. injection N as <-.
    reflexivity. }
  rewrite Hn. vm_compute. reflexivity.
Defined.

(** * Properties of [draw_detections] *)

(** X13.  When [draw_detections] draws (its [try] block does not raise),
    the number it writes on the frame as "Detected: n" is the number
    [count_people_in_frame] computes from the same results of the model:
    the number of boxes of the person class. *)
Theorem drawn_count_is_counted (frame : Type)
  (frame_shape : frame -> exc (Z * Z)) (frame_copy : frame -> exc frame)
  (cv2_resize : frame -> Z * Z -> exc frame)
  (cv2_rectangle : frame -> Z * Z -> Z * Z -> Z * Z * Z -> Z -> exc frame)
  (cv2_putText :
     frame -> string -> Z * Z -> pyval -> Z * Z * Z -> Z -> exc frame)
  (frm : frame) (model : drawing_detector frame) (out : frame) :
  draw_detections_body frame frame_shape frame_copy cv2_resize cv2_rectangle
    cv2_putText frm model = Ok out ->
  exists resized results k boxed written,
    model resized (float_literal 25 100) (float_literal 5 10) = Ok results /\
    count_results (map as_result results) 0 = Ok k /\
    k = Z.of_nat (List.length (person_boxes (map as_result results))) /\
    cv2_putText boxed ("Detected: " ++ str_int k) (20, 45) (PyInt 1)
      (0, 255, 0) 2 = Ok written /\
    (out = written \/
     exists height width, cv2_resize written (width, height) = Ok out).
Proof. apply draw_detections_count. Qed.

Lemma drawn_count_is_counted_witness :
  exists out,
    draw_detections_body (list string) (fun _ => Ok (480, 640))
      (fun f => Ok f) (fun f _ => Ok f) (fun f _ _ _ _ => Ok f)
      (fun img text _ _ _ _ => Ok (text :: img)) []
      (fun _ _ _ =>
         Ok [mkDrawnResult
               (Some [mkDrawnBox (mkBox [PyInt 0])
                        [[PyInt 10; PyInt 20; PyInt 110; PyInt 220]]
                        [PyFloat (float_literal 87 100)];
                      mkDrawnBox (mkBox [PyInt 16]) [] []])])
    = Ok out /\
    In "Detected: 1" out.
Proof.
  destruct (draw_detections_body (list string) (fun _ => Ok (480, 640))
              (fun f => Ok f) (fun f _ => Ok f) (fun f _ _ _ _ => Ok f)
              (fun img text _ _ _ _ => Ok (text :: img)) []
              (fun _ _ _ =>
                 Ok [mkDrawnResult
                       (Some [mkDrawnBox (mkBox [PyInt 0])
                                [[PyInt 10; PyInt 20; PyInt 110; PyInt 220]]
                                [PyFloat (float_literal 87 100)];
                              mkDrawnBox (mkBox [PyInt 16]) [] []])]))
    as [out|] eqn:E; [|discriminate E].
  exists out. split; [reflexivity|].
  destruct (drawn_count_is_counted _ _ _ _ _ _ _ _ out E)
    as (resized & results & k & boxed & written & M & _ & K & T & O).
  injection M as <-. injection T as <-.
  assert (W : In "Detected: 1" (("Detected: " ++ str_int k) :: boxed))
    by (left; rewrite K; reflexivity).
  destruct O as [->|(h & w & R)]; [exact W|].
  injection R as <-. exact W.
Defined.

(** * Properties of the monitoring loop of [app.py] *)

(** X14.  The value the progress bar is set to,
    [min(int((frame_count / total_frames) * 100), 100)]: with a reported
    frame count of 0 its computation raises [ZeroDivisionError]; with a
    positive one (and fewer than [2^46] frames read) it returns a value
    between 0 and 100, which is 100 once [frame_count] has reached
    [total_frames], and which never decreases as [frame_count] grows. *)
Theorem progress_bar_value frame_count total_frames :
  (total_frames = 0 ->
   progress_value frame_count total_frames
   = Raise (ZeroDivisionError "division by zero")) /\
  (0 < total_frames -> 0 <= frame_count < 2 ^ 46 ->
   exists v, progress_value frame_count total_frames = Ok v /\
     0 <= v <= 100 /\ (total_frames <= frame_count -> v = 100)) /\
  (0 < total_frames ->
   forall later v1 v2, 0 <= frame_count <= later -> later < 2 ^ 46 ->
     progress_value frame_count total_frames = Ok v1 ->
     progress_value later total_frames = Ok v2 -> v1 <= v2).
Proof.
  split; [|split].
  - intros ->. apply progress_zero_frames.
  - apply progress_in_range.
  - intros Ht later v1 v2 Hf Hl.
    apply (progress_monotone frame_count later total_frames v1 v2 Ht Hf Hl).
Qed.

Lemma progress_bar_value_witness :
  (0 < 300 /\ 0 <= 171 < 2 ^ 46) /\
  exists v, progress_value 171 300 = Ok v /\ 0 <= v <= 100.
Proof.
  assert (H1 : 0 < 300) by reflexivity.
  assert (H2 : 0 <= 171 < 2 ^ 46) by (split; [discriminate|reflexivity]).
  split; [split; assumption|].
  destruct (proj1 (proj2 (progress_bar_value 171 300)) H1 H2)
    as (v & E & B & _).
  exists v. split; assumption.
Defined.

(** X15.  A capture that reports a frame count of 0 stops the run: with
    two frames or more to read, the loop raises on the first frame it
    shows (the second one read), before the progress bar is set even once,
    so that no frame is shown to the end and the final message never
    comes.  When the OpenCV calls of the page succeed, the model returns
    fewer boxes than a float can count and the maximum is positive, what is
    raised is the ZeroDivisionError of [frame_count / total_frames]. *)
Theorem zero_frame_count_stops_monitor (frame : Type)
  (frame_shape : frame -> exc (Z * Z)) (frame_copy : frame -> exc frame)
  (cv2_resize : frame -> Z * Z -> exc frame)
  (cv2_rectangle : frame -> Z * Z -> Z * Z -> Z * Z * Z -> Z -> exc frame)
  (cv2_putText :
     frame -> string -> Z * Z -> pyval -> Z * Z * Z -> Z -> exc frame)
  (cv2_addWeighted : frame -> float -> frame -> float -> Z -> exc frame)
  (cv2_cvtColor : frame -> exc frame)
  (model : drawing_detector frame) (show_boxes : bool)
  (capacity : CapacityEstimate) (cap_frame_count : float)
  (frames : list frame) :
  int_of_float cap_frame_count = Ok 0 -> (2 <= List.length frames)%nat ->
  let r := monitor frame frame_shape frame_copy cv2_resize cv2_rectangle
             cv2_putText cv2_addWeighted cv2_cvtColor model show_boxes
             capacity true cap_frame_count frames in
  (exists e, summary frame r = (0%nat, [], Raise e)) /\
  ((forall f, exists f', frame_copy f = Ok f') ->
   (forall f p q col t, exists f', cv2_rectangle f p q col t = Ok f') ->
   (forall f text p sc col t,
      exists f', cv2_putText f text p sc col t = Ok f') ->
   (forall f a g b z, exists f', cv2_addWeighted f a g b z = Ok f') ->
   (forall f, exists f', cv2_cvtColor f = Ok f') ->
   (forall f conf iou results, model f conf iou = Ok results ->
      Z.of_nat (List.length (flat_map result_boxes (map as_result results)))
      < double_bound) ->
   0 < max_capacity capacity ->
   snd r = Raise (ZeroDivisionError "division by zero")).
Proof.
  intros T L r. split.
  - apply monitor_zero_frame_count; assumption.
  - intros Copy Rect Text Weighted Color Boxes Hm.
    apply monitor_zero_division; assumption.
Qed.

Lemma zero_frame_count_stops_monitor_witness :
  summary unit
    (monitor unit (fun _ => Ok (480, 640)) (fun f => Ok f)
       (fun f _ => Ok f) (fun f _ _ _ _ => Ok f)
       (fun f _ _ _ _ _ => Ok f) (fun f _ _ _ _ => Ok f) (fun f => Ok f)
       (fun _ _ _ => Ok []) false
       (mkCapacityEstimate (PyInt 500) 200 335) true (S754_zero false)
       [tt; tt; tt])
  = (0%nat, [], Raise (ZeroDivisionError "division by zero")).
Proof.
  destruct (zero_frame_count_stops_monitor unit (fun _ => Ok (480, 640))
              (fun f => Ok f) (fun f _ => Ok f) (fun f _ _ _ _ => Ok f)
              (fun f _ _ _ _ _ => Ok f) (fun f _ _ _ _ => Ok f)
              (fun f => Ok f) (fun _ _ _ => Ok []) false
              (mkCapacityEstimate (PyInt 500) 200 335) (S754_zero false)
              [tt; tt; tt] eq_refl (le_S 2 2 (le_n 2))) as [[e H] D].
  cbv zeta in H, D.
  assert (R : Raise e = Raise (ZeroDivisionError "division by zero") :> exc unit).
  { rewrite <- D.
    - apply (f_equal snd) in H. cbn [summary snd] in H. symmetry. exact H.
    - intros f. exists f. reflexivity.
    - intros f p q col t. exists f. reflexivity.
    - intros f text p sc col t. exists f. reflexivity.
    - intros f a g b z. exists f. reflexivity.
    - intros f. exists f. reflexivity.
    - intros f conf iou results E. injection E as <-. reflexivity.
    - reflexivity. }
  rewrite H. rewrite R. reflexivity.
Defined.

(** X16.  The loop shows every second frame and no other: of [n] frames
    read, at most [n / 2] are shown to the end, exactly [n / 2] when the
    run ends without an exception, and the progress bar is set once per
    frame shown.  With a positive reported frame count (and fewer than
    [2^46] frames) every value it is set to lies between 0 and 100. *)
Theorem monitor_shows_every_second_frame (frame : Type)
  (frame_shape : frame -> exc (Z * Z)) (frame_copy : frame -> exc frame)
  (cv2_resize : frame -> Z * Z -> exc frame)
  (cv2_rectangle : frame -> Z * Z -> Z * Z -> Z * Z * Z -> Z -> exc frame)
  (cv2_putText :
     frame -> string -> Z * Z -> pyval -> Z * Z * Z -> Z -> exc frame)
  (cv2_addWeighted : frame -> float -> frame -> float -> Z -> exc frame)
  (cv2_cvtColor : frame -> exc frame)
  (model : drawing_detector frame) (show_boxes : bool)
  (capacity : CapacityEstimate) (cap_is_opened : bool)
  (cap_frame_count : float) (frames : list frame) :
  let r := monitor frame frame_shape frame_copy cv2_resize cv2_rectangle
             cv2_putText cv2_addWeighted cv2_cvtColor model show_boxes
             capacity cap_is_opened cap_frame_count frames in
  (frames_shown frame (fst r) <= List.length frames / 2)%nat /\
  (snd r = Ok tt -> cap_is_opened = true ->
   frames_shown frame (fst r) = (List.length frames / 2)%nat) /\
  List.length (progress_values frame (fst r)) = frames_shown frame (fst r) /\
  (forall total_frames,
     int_of_float cap_frame_count = Ok total_frames -> 0 < total_frames ->
     Z.of_nat (List.length frames) < 2 ^ 46 ->
     Forall (fun v => 0 <= v <= 100) (progress_values frame (fst r))).
Proof.
  intros r.
  destruct (monitor_shows_even_frames frame frame_shape frame_copy cv2_resize
              cv2_rectangle cv2_putText cv2_addWeighted cv2_cvtColor model
              show_boxes capacity cap_is_opened cap_frame_count frames
              _ _ _ eq_refl) as (A & B & C).
  split; [exact A|]. split; [exact B|]. split; [exact C|].
  intros total T Ht L.
  apply (monitor_progress_in_range frame frame_shape frame_copy cv2_resize
           cv2_rectangle cv2_putText cv2_addWeighted cv2_cvtColor model
           show_boxes capacity cap_is_opened cap_frame_count total frames
           T Ht L).
Qed.

Lemma monitor_shows_every_second_frame_witness :
  frames_shown unit
    (fst (monitor unit (fun _ => Ok (480, 640)) (fun f => Ok f)
            (fun f _ => Ok f) (fun f _ _ _ _ => Ok f)
            (fun f _ _ _ _ _ => Ok f) (fun f _ _ _ _ => Ok f)
            (fun f => Ok f) (fun _ _ _ => Ok []) false
            (mkCapacityEstimate (PyInt 500) 200 335) true
            (float_literal 5 1) [tt; tt; tt; tt; tt]))
  = 2%nat.
Proof.
  apply (proj1 (proj2 (monitor_shows_every_second_frame unit
                         (fun _ => Ok (480, 640)) (fun f => Ok f)
                         (fun f _ => Ok f) (fun f _ _ _ _ => Ok f)
                         (fun f _ _ _ _ _ => Ok f) (fun f _ _ _ _ => Ok f)
                         (fun f => Ok f) (fun _ _ _ => Ok []) false
                         (mkCapacityEstimate (PyInt 500) 200 335) true
                         (float_literal 5 1) [tt; tt; tt; tt; tt]))).
  - vm_compute. reflexivity.
  - reflexivity.
Defined.

(** X17.  What the page shows for a count, from the result of
    [get_alert_status]: an error box "Overcrowding Detected" from
    [max_capacity] on, a warning box "Approaching Capacity" from
    [safe_capacity] up to there, a success box "Normal Operations" below;
    and the recommendations box holds the first three recommendations of
    the status, numbered from 1 (the fourth and fifth are never shown), or
    is emptied when the status is SAFE. *)
Theorem page_shows_by_count (frame : Type) c s m r :
  get_alert_status c s m = Ok r ->
  (m <= c ->
   alert_box frame r = AlertError frame "🚨 Overcrowding Detected" /\
   rec_box frame r
   = RecInfo frame
       ("**💡 Recommendations:**" ++ nl ++ nl
        ++ "1. Stop all entries immediately" ++ nl
        ++ "2. Activate emergency protocols" ++ nl
        ++ "3. Deploy security personnel")) /\
  (c < m -> s <= c ->
   alert_box frame r = AlertWarning frame "⚠️ Approaching Capacity" /\
   rec_box frame r
   = RecInfo frame
       ("**💡 Recommendations:**" ++ nl ++ nl
        ++ "1. Reduce entry rate" ++ nl
        ++ "2. Increase monitoring" ++ nl
        ++ "3. Prepare dispersal plan")) /\
  (c < m -> c < s ->
   alert_box frame r = AlertSuccess frame "✅ Normal Operations" /\
   rec_box frame r = RecEmpty frame).
Proof. apply boxes_by_count. Qed.

Lemma page_shows_by_count_witness :
  exists r, get_alert_status 100 200 335 = Ok r /\
    alert_box unit r = AlertSuccess unit "✅ Normal Operations" /\
    rec_box unit r = RecEmpty unit.
Proof.
  destruct (get_alert_status 100 200 335) as [r|] eqn:E; [|discriminate E].
  exists r. split; [reflexivity|].
  exact (proj2 (proj2 (page_shows_by_count unit 100 200 335 r E))
           ltac:(lia) ltac:(lia)).
Defined.

(** * Properties of [annotate_frame] *)

(** X18.  [annotate_frame] takes every dictionary [get_alert_status]
    returns: the percentage, the integer 0 or a float, can always be
    printed with one decimal ("0.0" when [max_capacity <= 0]), so that on a
    count of at most 4300 digits the function returns whenever the copies
    and the OpenCV calls it makes do.  A count of more digits cannot be
    written out: the function then raises the ValueError of the conversion
    of an [int] to a [str], after the overlay is blended in. *)
Theorem annotate_frame_takes_alerts (frame : Type)
  (frame_copy : frame -> exc frame)
  (cv2_rectangle : frame -> Z * Z -> Z * Z -> Z * Z * Z -> Z -> exc frame)
  (cv2_putText :
     frame -> string -> Z * Z -> pyval -> Z * Z * Z -> Z -> exc frame)
  (cv2_addWeighted : frame -> float -> frame -> float -> Z -> exc frame)
  c s m r (frm : frame) (count : Z) :
  get_alert_status c s m = Ok r ->
  (exists text, py_format_f 1 (percentage r) = Ok text /\
     (m <= 0 -> text = "0.0") /\
     (0 < m -> exists p, percentage r = PyFloat p /\
                         text = format_float 1 p)) /\
  ((forall f, exists f', frame_copy f = Ok f') ->
   (forall f p q col t, exists f', cv2_rectangle f p q col t = Ok f') ->
   (forall f text p sc col t,
      exists f', cv2_putText f text p sc col t = Ok f') ->
   (forall f a g b z, exists f', cv2_addWeighted f a g b z = Ok f') ->
   (Z.abs count < 10 ^ 4300 ->
    exists annotated,
      annotate_frame frame frame_copy cv2_rectangle cv2_putText
        cv2_addWeighted frm count r = Ok annotated) /\
   (10 ^ 4300 <= Z.abs count ->
    exists e,
      annotate_frame frame frame_copy cv2_rectangle cv2_putText
        cv2_addWeighted frm count r = Raise e /\
      exn_class e = "ValueError")).
Proof.
  intros H. split.
  - apply (percentage_formats c s m r 1 H).
  - intros Copy Rect Text Weighted. split.
    + apply (annotate_frame_returns frame frame_copy cv2_rectangle
               cv2_putText cv2_addWeighted c s m r frm count Copy Rect Text
               Weighted H).
    + apply (annotate_frame_raises frame frame_copy cv2_rectangle
               cv2_putText cv2_addWeighted r frm count Copy Rect Weighted).
Qed.

Lemma annotate_frame_takes_alerts_witness :
  exists r, get_alert_status 7 5 25 = Ok r /\
    py_format_f 1 (percentage r) = Ok "28.0" /\
    exists annotated,
      annotate_frame (list string) (fun f => Ok f) (fun f _ _ _ _ => Ok f)
        (fun f text _ _ _ _ => Ok (text :: f)) (fun f _ _ _ _ => Ok f)
        [] 7 r = Ok annotated /\
      In "Count: 7" annotated /\ In "28.0% of max" annotated.
Proof.
  destruct (get_alert_status 7 5 25) as [r|] eqn:E; [|discriminate E].
  exists r. split; [reflexivity|].
  destruct (annotate_frame_takes_alerts (list string) (fun f => Ok f)
              (fun f _ _ _ _ => Ok f) (fun f text _ _ _ _ => Ok (text :: f))
              (fun f _ _ _ _ => Ok f) 7 5 25 r [] 7 E)
    as ((text & T & _ & P) & A).
  split.
  - rewrite T. f_equal.
    destruct (P ltac:(lia)) as (p & Hp & ->).
    revert E Hp. vm_compute. intros E. injection E as <-. intros Hp.
    injection Hp as <-. reflexivity.
  - destruct A as [A _].
    + intros f. exists f. reflexivity.
    + intros f p q col t. exists f. reflexivity.
    + intros f txt p sc col t. exists (txt :: f). reflexivity.
    + intros f a g b z. exists f. reflexivity.
    + destruct (A ltac:(vm_compute; reflexivity)) as [annotated Ha].
      exists annotated. split; [exact Ha|].
      revert E Ha. vm_compute. intros E. injection E as <-. intros Ha.
      injection Ha as <-. split; [right; right; left|left]; reflexivity.
Defined.

(** X19.  The monitoring loop runs to its final message, with no exception
    on the way and every second frame shown, whenever the copies and the
    OpenCV calls succeed, the maximum capacity is positive (as it is for
    every area the venue form accepts), the capture reports a positive
    frame count, fewer than [2^46] frames are read and the model returns
    fewer boxes than a float can count: nothing in [count_people_in_frame],
    [get_alert_status], [annotate_frame], [draw_detections] or the progress
    bar can then fail. *)
Theorem monitor_runs_to_the_end (frame : Type)
  (frame_shape : frame -> exc (Z * Z)) (frame_copy : frame -> exc frame)
  (cv2_resize : frame -> Z * Z -> exc frame)
  (cv2_rectangle : frame -> Z * Z -> Z * Z -> Z * Z * Z -> Z -> exc frame)
  (cv2_putText :
     frame -> string -> Z * Z -> pyval -> Z * Z * Z -> Z -> exc frame)
  (cv2_addWeighted : frame -> float -> frame -> float -> Z -> exc frame)
  (cv2_cvtColor : frame -> exc frame)
  (model : drawing_detector frame) (show_boxes : bool)
  (capacity : CapacityEstimate) (cap_frame_count : float)
  (total_frames : Z) (frames : list frame) :
  (forall f, exists f', frame_copy f = Ok f') ->
  (forall f p q col t, exists f', cv2_rectangle f p q col t = Ok f') ->
  (forall f text p sc col t,
     exists f', cv2_putText f text p sc col t = Ok f') ->
  (forall f a g b z, exists f', cv2_addWeighted f a g b z = Ok f') ->
  (forall f, exists f', cv2_cvtColor f = Ok f') ->
  (forall f conf iou results, model f conf iou = Ok results ->
     Z.of_nat (List.length (flat_map result_boxes (map as_result results)))
     < double_bound) ->
  0 < max_capacity capacity ->
  int_of_float cap_frame_count = Ok total_frames -> 0 < total_frames ->
  Z.of_nat (List.length frames) < 2 ^ 46 ->
  let r := monitor frame frame_shape frame_copy cv2_resize cv2_rectangle
             cv2_putText cv2_addWeighted cv2_cvtColor model show_boxes
             capacity true cap_frame_count frames in
  snd r = Ok tt /\
  frames_shown frame (fst r) = (List.length frames / 2)%nat.
Proof.
  intros Copy Rect Text Weighted Color Boxes Hm T Ht L r.
  assert (E : snd r = Ok tt).
  { apply (monitor_completes frame frame_shape frame_copy cv2_resize
             cv2_rectangle cv2_putText cv2_addWeighted cv2_cvtColor model
             show_boxes capacity true cap_frame_count total_frames frames);
      assumption. }
  split; [exact E|].
  destruct (monitor_shows_even_frames frame frame_shape frame_copy cv2_resize
              cv2_rectangle cv2_putText cv2_addWeighted cv2_cvtColor model
              show_boxes capacity true cap_frame_count frames
              _ _ _ eq_refl) as (_ & B & _).
  apply B; [exact E|reflexivity].
Qed.

Lemma monitor_runs_to_the_end_witness :
  let r := monitor unit (fun _ => Ok (480, 640)) (fun f => Ok f)
             (fun f _ => Ok f) (fun f _ _ _ _ => Ok f)
             (fun f _ _ _ _ _ => Ok f) (fun f _ _ _ _ => Ok f)
             (fun f => Ok f) (fun _ _ _ => Ok []) true
             (mkCapacityEstimate (PyInt 500) 200 335) true
             (float_literal 4 1) [tt; tt; tt; tt] in
  snd r = Ok tt /\ frames_shown unit (fst r) = 2%nat.
Proof.
  apply (monitor_runs_to_the_end unit (fun _ => Ok (480, 640))
           (fun f => Ok f) (fun f _ => Ok f) (fun f _ _ _ _ => Ok f)
           (fun f _ _ _ _ _ => Ok f) (fun f _ _ _ _ => Ok f)
           (fun f => Ok f) (fun _ _ _ => Ok []) true
           (mkCapacityEstimate (PyInt 500) 200 335) (float_literal 4 1) 4
           [tt; tt; tt; tt]).
  - intros f. exists f. reflexivity.
  - intros f p q col t. exists f. reflexivity.
  - intros f text p sc col t. exists f. reflexivity.
  - intros f a g b z. exists f. reflexivity.
  - intros f. exists f. reflexivity.
  - intros f conf iou results M. injection M as <-. reflexivity.
  - reflexivity.
  - vm_compute. reflexivity.
  - reflexivity.
  - reflexivity.
Defined.

(** * Properties of the venue form of [app.py] *)

(** X20.  In every session a visitor can be in, whatever was entered and
    clicked before, [capacity_calculated] is not left set at the end of a
    run, and the capacity the session holds, if any, is the estimate of an
    area of 50 or more: its safe capacity is at least 20 and its maximum at
    least 33, so the monitoring loop always gets a positive maximum. *)
Theorem session_capacity_is_positive st : reachable st ->
  capacity_calculated st <> Some true /\
  forall d, truthy (capacity st) = Some d ->
    (exists area, 50 <= area /\ estimate_venue_capacity (PyInt area) = Ok d) /\
    20 <= safe_capacity d /\ 33 <= max_capacity d.
Proof.
  intros R. pose proof (reachable_settled st R) as S.
  split; [exact (proj1 S)|]. intros d T.
  split; [exact (proj2 S d T)|]. exact (settled_capacity st d S T).
Qed.

Lemma session_capacity_is_positive_witness :
  reachable (fst (venue_form new_session 750 true)) /\
  truthy (capacity (fst (venue_form new_session 750 true)))
  = Some (mkCapacityEstimate (PyInt 750) 300 502) /\
  20 <= 300 /\ 33 <= 502.
Proof.
  assert (R : reachable (fst (venue_form new_session 750 true))).
  { apply reach_run; [exact reach_new|discriminate]. }
  assert (T : truthy (capacity (fst (venue_form new_session 750 true)))
              = Some (mkCapacityEstimate (PyInt 750) 300 502))
    by (vm_compute; reflexivity).
  split; [exact R|]. split; [exact T|].
  exact (proj2 (proj2 (session_capacity_is_positive _ R) _ T)).
Defined.

(** X21.  What a run of the venue form does, from any session a visitor
    can be in.  With a click it shows the monitoring section for the new
    estimate together with the message "Capacity calculated!", or raises
    what the estimate raises; without one it shows the monitoring section
    for the capacity the session holds, without that message, or asks for
    the capacity when the session holds none.  The capacity held
    afterwards is the new estimate after a click that returned, and the one
    held before in every other case. *)
Theorem venue_form_run st area clicked : reachable st ->
  snd (venue_form st area clicked)
  = (if clicked then
       match estimate_venue_capacity (PyInt area) with
       | Ok d => Ok (Monitoring d true)
       | Raise e => Raise e
       end
     else
       match truthy (capacity st) with
       | Some d => Ok (Monitoring d false)
       | None => Ok AskForCapacity
       end) /\
  truthy (capacity (fst (venue_form st area clicked)))
  = (if clicked then
       match estimate_venue_capacity (PyInt area) with
       | Ok d => Some d
       | Raise _ => truthy (capacity st)
       end
     else truthy (capacity st)).
Proof.
  intros R. pose proof (reachable_settled st R) as S. split.
  - apply venue_form_page. exact S.
  - apply venue_form_keeps. exact S.
Qed.

Lemma venue_form_run_witness :
  reachable (fst (venue_form new_session 500 true)) /\
  snd (venue_form (fst (venue_form new_session 500 true)) 650 false)
  = Ok (Monitoring (mkCapacityEstimate (PyInt 500) 200 335) false).
Proof.
  assert (R : reachable (fst (venue_form new_session 500 true))).
  { apply reach_run; [exact reach_new|discriminate]. }
  split; [exact R|].
  exact (proj1 (venue_form_run (fst (venue_form new_session 500 true)) 650
                  false R)).
Defined.
